(** * notion2api: the Express front end (src/lightweight-client-express.js)

    A shallow embedding of the HTTP front end of the gateway: the
    [authenticate] middleware, the [POST /v1/chat/completions] handler with
    its streaming and non-streaming branches, and the JavaScript built-ins
    the handler's behaviour depends on ([String.prototype.startsWith],
    [includes], [substring], [trim], [split], [Array.prototype.join],
    [JSON.parse], property access and truthiness), with [JSON.stringify]
    on strings to write the events of a stream.

    Conventions.
    - A JavaScript string is the list of its UTF-16 code units ([jsstring]).
    - A JavaScript value is a [value]; a JavaScript number is an IEEE-754
      binary64 value ([number]).
    - The collaborators that live in other modules of the repository
      ([INITIALIZED_SUCCESSFULLY], [cookieManager], [buildNotionRequest],
      [streamNotionResponse]) are fields of an environment record [env];
      every call the handler makes on them is recorded, in order.
    - Calls on the logger ([req.log.*]) only write to the log and are left
      out; the property reads in their arguments are kept, since they can
      throw.  At start-up the calls on [logger] are what the process does
      beside listening, and are kept ([effect]).

    The file ends with the start-up code ([PORT], the [initialize()]
    chain) and with further properties of the code beside the claims. *)

From Stdlib Require Import String Ascii.
From Stdlib Require Import List NArith ZArith PArith Bool Lia.
Import ListNotations.

Set Implicit Arguments.

(** ** JavaScript strings *)

Module JsString.

Definition jsstring := list N.

(** The code units of an ASCII literal. *)
Definition js (s : string) : jsstring :=
  map N_of_ascii (list_ascii_of_string s).

(** The same, with every apostrophe standing for a double quote: JSON texts
    are written [qq "{'a':1}"] for [{"a":1}]. *)
Definition qq (s : string) : jsstring :=
  map (fun c => if N.eqb c 39 then 34%N else c) (js s).

Fixpoint eqb (a b : jsstring) : bool :=
  match a, b with
  | [], [] => true
  | x :: a', y :: b' => N.eqb x y && eqb a' b'
  | _, _ => false
  end.

(** [s.startsWith(p)] *)
Fixpoint startsWith (p s : jsstring) : bool :=
  match p, s with
  | [], _ => true
  | x :: p', y :: s' => N.eqb x y && startsWith p' s'
  | _ :: _, [] => false
  end.

(** [s.includes(p)] *)
Fixpoint includes (p s : jsstring) : bool :=
  startsWith p s ||
  match s with
  | [] => false
  | _ :: s' => includes p s'
  end.

(** [s.substring(n)] for a non-negative integer [n]: the code units from
    index [n] on, none when [n] is past the end. *)
Definition substring (n : nat) (s : jsstring) : jsstring := skipn n s.

(** WhiteSpace and LineTerminator code points of ECMAScript, the ones
    [String.prototype.trim] strips. *)
Definition is_trim_space (c : N) : bool :=
  match c with
  | 9 | 10 | 11 | 12 | 13 | 32 | 160 | 5760
  | 8192 | 8193 | 8194 | 8195 | 8196 | 8197 | 8198 | 8199 | 8200 | 8201 | 8202
  | 8232 | 8233 | 8239 | 8287 | 12288 | 65279 => true
  | _ => false
  end%N.

Fixpoint trimStart (s : jsstring) : jsstring :=
  match s with
  | c :: s' => if is_trim_space c then trimStart s' else s
  | [] => []
  end.

Definition trimEnd (s : jsstring) : jsstring := rev (trimStart (rev s)).

(** [s.trim()] *)
Definition trim (s : jsstring) : jsstring := trimEnd (trimStart s).

(** [s.split(sep)] for a separator of one code unit: never empty, the
    fields between consecutive separators, empty fields kept. *)
Fixpoint split (sep : N) (s : jsstring) : list jsstring :=
  match s with
  | [] => [[]]
  | c :: s' =>
      if N.eqb c sep then [] :: split sep s'
      else match split sep s' with
           | f :: fs => (c :: f) :: fs
           | [] => [[c]]
           end
  end.

End JsString.

Import JsString.

(** ** JavaScript numbers

    A number is an IEEE-754 binary64 value.  [Finite neg m e] stands for
    [(-1)^neg * m * 2^e] with [0 < m]; the values built below are in
    canonical form: [2^52 <= m < 2^53] and [-1074 <= e <= 971] (normal), or
    [m < 2^52] and [e = -1074] (subnormal). *)

Module JsNumber.

Local Open Scope Z_scope.

Inductive number :=
| Zero (neg : bool)
| Finite (neg : bool) (m e : Z)
| Infinity (neg : bool)
| NaN.

Definition number_eqb (a b : number) : bool :=
  match a, b with
  | Zero s, Zero t => Bool.eqb s t
  | Finite s m e, Finite t m' e' => Bool.eqb s t && (m =? m') && (e =? e')
  | Infinity s, Infinity t => Bool.eqb s t
  | NaN, NaN => true
  | _, _ => false
  end.

(** [num / den * 10^j] as a fraction. *)
Definition scale10 (num den j : Z) : Z * Z :=
  if 0 <=? j then (num * 10 ^ j, den) else (num, den * 10 ^ (- j)).

(** The binary64 value nearest to the positive rational [num / den], ties
    to the even significand (roundTiesToEven); [Infinity] from [2^1024] on
    (after rounding), [Zero] at and below [2^-1075]. *)
Definition round_pos (neg : bool) (num den : Z) : number :=
  let l := Z.log2 num - Z.log2 den in
  (* fl = floor (log2 (num / den)) *)
  let ge := if 0 <=? l then den * 2 ^ l <=? num else den <=? num * 2 ^ (- l) in
  let fl := if ge then l else l - 1 in
  let e := Z.max (fl - 52) (-1074) in
  let n' := if 0 <=? e then num else num * 2 ^ (- e) in
  let d' := if 0 <=? e then den * 2 ^ e else den in
  let q := n' / d' in
  let r := n' mod d' in
  let up := (d' <? 2 * r) || ((d' =? 2 * r) && Z.odd q) in
  let m := if up then q + 1 else q in
  let '(m, e) := if m =? 2 ^ 53 then (2 ^ 52, e + 1) else (m, e) in
  if m =? 0 then Zero neg
  else if 971 <? e then Infinity neg
  else Finite neg m e.

(** The number a decimal literal denotes: digits [d] (as an integer) times
    [10^j], with sign. *)
Definition of_decimal (neg : bool) (d j : Z) : number :=
  if d =? 0 then Zero neg
  else let '(num, den) := scale10 d 1 j in round_pos neg num den.

(** The number value of an integer. *)
Definition of_Z (z : Z) : number :=
  of_decimal (z <? 0) (Z.abs z) 0.

(** ToBoolean on numbers: false for [+0], [-0] and [NaN]. *)
Definition truthy (x : number) : bool :=
  match x with
  | Zero _ | NaN => false
  | _ => true
  end.

(** Decimal digits of a natural number, most significant first. *)
Fixpoint digits_aux (fuel : nat) (z : Z) (acc : jsstring) : jsstring :=
  match fuel with
  | O => acc
  | S fuel' =>
      let acc' := Z.to_N (48 + z mod 10) :: acc in
      if z <? 10 then acc' else digits_aux fuel' (z / 10) acc'
  end.

Definition digits (z : Z) : jsstring :=
  digits_aux (S (Z.to_nat (Z.log2 z))) z [].

(** The least [n], from [n0] upwards, with [num / den < 10^n]. *)
Fixpoint magnitude (fuel : nat) (num den n : Z) : Z :=
  match fuel with
  | O => n
  | S fuel' =>
      let '(a, b) := scale10 1 1 n in
      if num * b <? a * den then n else magnitude fuel' num den (n + 1)
  end.

(** The shortest decimal that reads back as [Finite false m e]: the first
    number of digits [k], counting upwards, for which some [s] of [k] digits has
    [s * 10^(n-k)] round to the value; of two such [s] the one nearer to
    the value, the even one on a tie. Returns [(s, k, n)]. *)
Fixpoint shortest (fuel : nat) (m e n k : Z) : Z * Z * Z :=
  let num := if 0 <=? e then m * 2 ^ e else m in
  let den := if 0 <=? e then 1 else 2 ^ (- e) in
  let '(a, b) := scale10 num den (k - n) in
  let lo := a / b in
  let r := a mod b in
  let hi := lo + 1 in
  let reads s :=
    let '(c, d) := scale10 s 1 (n - k) in
    number_eqb (round_pos false c d) (Finite false m e) in
  let ok_lo := (0 <? lo) && reads lo in
  let ok_hi := reads hi in
  let pick_lo := (2 * r <? b) || ((2 * r =? b) && Z.even lo) in
  let found s := if s =? 10 ^ k then (10 ^ (k - 1), k, n + 1) else (s, k, n) in
  match fuel with
  | O => found lo
  | S fuel' =>
      if ok_lo && ok_hi then found (if pick_lo then lo else hi)
      else if ok_lo then found lo
      else if ok_hi then found hi
      else shortest fuel' m e n (k + 1)
  end.

Definition zeros (n : Z) : jsstring := repeat 48%N (Z.to_nat n).

(** Number::toString(x), radix 10. *)
Definition toString (x : number) : jsstring :=
  match x with
  | NaN => js "NaN"
  | Zero _ => js "0"
  | Infinity neg => (if neg then js "-" else []) ++ js "Infinity"
  | Finite neg m e =>
      let num := if 0 <=? e then m * 2 ^ e else m in
      let den := if 0 <=? e then 1 else 2 ^ (- e) in
      let n0 := magnitude 640 num den (-324) in
      let '(s, k, n) := shortest 17 m e n0 1 in
      let ds := digits s in
      let body :=
        if (-5 <=? n) && (n <=? 21) then
          if k <=? n then ds ++ zeros (n - k)
          else if 0 <? n then
            firstn (Z.to_nat n) ds ++ js "." ++ skipn (Z.to_nat n) ds
          else js "0." ++ zeros (- n) ++ ds
        else
          let ex := n - 1 in
          let sign := if 0 <=? ex then js "+" else js "-" in
          match ds with
          | [d] => [d] ++ js "e" ++ sign ++ digits (Z.abs ex)
          | d :: rest => [d] ++ js "." ++ rest ++ js "e" ++ sign ++ digits (Z.abs ex)
          | [] => []
          end in
      (if neg then js "-" else []) ++ body
  end.

End JsNumber.

Import JsNumber.

(** ** JavaScript values *)

#[local] Set Warnings "-register-all".

Inductive value :=
| VUndefined
| VNull
| VBool (b : bool)
| VNum (x : number)
| VStr (s : jsstring)
| VArr (elements : list value)
| VObj (properties : list (jsstring * value)).

(** An exception: an [Error] object, observed only through its [message]. *)
Record exn := JsError { message : jsstring }.

(** The own property [k] of an object whose properties were defined in list
    order: a later definition of a name replaces an earlier one. *)
Fixpoint own (k : jsstring) (properties : list (jsstring * value)) : option value :=
  match properties with
  | [] => None
  | (k', v) :: rest =>
      match own k rest with
      | Some v' => Some v'
      | None => if JsString.eqb k k' then Some v else None
      end
  end.

Definition value_name (v : value) : jsstring :=
  match v with VNull => js "null" | _ => js "undefined" end.

(** V8's message for a property read on [undefined] or [null]. *)
Definition cannot_read (base : value) (k : jsstring) : exn :=
  JsError (js "Cannot read properties of " ++ value_name base ++
           js " (reading '" ++ k ++ js "')").

(** [base.k] for a name [k] that no built-in prototype defines (the handler
    reads [model], [stream], [messages], [choices], [delta], [content]):
    a [TypeError] on [undefined] and [null], the own property of an
    object, [undefined] otherwise. *)
Definition get (k : jsstring) (base : value) : value + exn :=
  match base with
  | VUndefined | VNull => inr (cannot_read base k)
  | VObj ps => inl (match own k ps with Some v => v | None => VUndefined end)
  | _ => inl VUndefined
  end.

(** [base[i]] for an array index [i]: the element of an array, the
    one-unit string of a string, the own property named by the decimal
    digits of [i] of an object. *)
Definition get_index (i : nat) (base : value) : value + exn :=
  let k := JsNumber.digits (Z.of_nat i) in
  match base with
  | VUndefined | VNull => inr (cannot_read base k)
  | VArr l => inl (nth i l VUndefined)
  | VStr s => inl (match nth_error s i with Some c => VStr [c] | None => VUndefined end)
  | VObj ps => inl (match own k ps with Some v => v | None => VUndefined end)
  | _ => inl VUndefined
  end.

(** ToBoolean *)
Definition truthy (v : value) : bool :=
  match v with
  | VUndefined | VNull => false
  | VBool b => b
  | VNum x => JsNumber.truthy x
  | VStr s => match s with [] => false | _ => true end
  | VArr _ | VObj _ => true
  end.

(** [Array.isArray(v)] *)
Definition isArray (v : value) : bool :=
  match v with VArr _ => true | _ => false end.

(** ToString of the values [JSON.parse] builds.  An array prints its
    elements separated by commas ([undefined] and [null] as nothing); a
    plain object prints as [[object Object]], unless it has an own property
    [toString] that hides the inherited method: a property of a parsed
    object is never callable, [valueOf] gives no primitive either, and the
    conversion throws a [TypeError] ([None]). *)
Fixpoint toString (v : value) : option jsstring :=
  match v with
  | VUndefined => Some (js "undefined")
  | VNull => Some (js "null")
  | VBool b => Some (js (if b then "true" else "false"))
  | VNum x => Some (JsNumber.toString x)
  | VStr s => Some s
  | VArr l =>
      (fix join_comma (l : list value) : option jsstring :=
         match l with
         | [] => Some []
         | x :: rest =>
             let sx := match x with
                       | VUndefined | VNull => Some []
                       | _ => toString x
                       end in
             match sx, rest with
             | Some a, [] => Some a
             | Some a, _ :: _ =>
                 match join_comma rest with
                 | Some b => Some (a ++ js "," ++ b)
                 | None => None
                 end
             | None, _ => None
             end
         end) l
  | VObj ps =>
      match own (js "toString") ps with
      | Some _ =>
          (* own toString not callable; then valueOf: own (not callable) or
             inherited (returns the object): no primitive either way *)
          None
      | None => Some (js "[object Object]")
      end
  end.

(** [elements.join('')] *)
Fixpoint join_empty (elements : list value) : option jsstring :=
  match elements with
  | [] => Some []
  | x :: rest =>
      match (match x with VUndefined | VNull => Some [] | _ => toString x end),
            join_empty rest with
      | Some a, Some b => Some (a ++ b)
      | _, _ => None
      end
  end.

(** ** [JSON.parse]

    The JSON grammar of ECMA-404 as [JSON.parse] reads it: white space is
    tab, line feed, carriage return and space; a string holds any code unit
    from U+0020 on except the quote and the backslash, and the escapes
    backslash followed by quote, backslash, slash, b, f, n, r, t, or by u
    and four hexadecimal digits; a number is an optional minus sign, an
    integer part (a single 0, or a non-zero digit and any digits), an
    optional fraction (a point and at least one digit) and an optional
    exponent (e or E, an optional sign, at least one digit), and denotes
    the nearest binary64 value. *)

Module Json.

Inductive parse_result (A : Type) :=
| Parsed (a : A) (rest : jsstring)
| SyntaxError
| OutOfFuel.

Arguments SyntaxError {A}.
Arguments OutOfFuel {A}.

Definition is_ws (c : N) : bool :=
  match c with 9 | 10 | 13 | 32 => true | _ => false end%N.

Fixpoint skip_ws (s : jsstring) : jsstring :=
  match s with
  | c :: s' => if is_ws c then skip_ws s' else s
  | [] => []
  end.

Definition is_digit (c : N) : bool := (48 <=? c)%N && (c <=? 57)%N.

Definition hex_digit (c : N) : option N :=
  if (48 <=? c)%N && (c <=? 57)%N then Some (c - 48)%N
  else if (65 <=? c)%N && (c <=? 70)%N then Some (c - 55)%N
  else if (97 <=? c)%N && (c <=? 102)%N then Some (c - 87)%N
  else None.

Definition hex4 (a b c d : N) : option N :=
  match hex_digit a, hex_digit b, hex_digit c, hex_digit d with
  | Some x, Some y, Some z, Some w => Some (((x * 16 + y) * 16 + z) * 16 + w)%N
  | _, _, _, _ => None
  end.

(** [s] begins with the code unit [c]: what follows it. *)
Definition starts (c : N) (s : jsstring) : option jsstring :=
  match s with
  | c' :: rest => if N.eqb c' c then Some rest else None
  | [] => None
  end.

(** The code unit a one-letter escape stands for. *)
Definition simple_escape (e : N) : option N :=
  match e with
  | 34 => Some 34     (* quote *)
  | 92 => Some 92     (* backslash *)
  | 47 => Some 47     (* slash *)
  | 98 => Some 8      (* b *)
  | 102 => Some 12    (* f *)
  | 110 => Some 10    (* n *)
  | 114 => Some 13    (* r *)
  | 116 => Some 9     (* t *)
  | _ => None
  end%N.

Definition cons_char (c : N) (r : option (jsstring * jsstring)) :
  option (jsstring * jsstring) :=
  match r with
  | Some (str, rest) => Some (c :: str, rest)
  | None => None
  end.

(** The characters of a string literal after its opening quote, up to the
    closing quote, and what follows it. *)
Fixpoint string_chars (s : jsstring) : option (jsstring * jsstring) :=
  match s with
  | [] => None
  | c :: rest =>
      if N.eqb c 34 then Some ([], rest)
      else if N.eqb c 92 then
        match rest with
        | [] => None
        | e :: rest1 =>
            match simple_escape e with
            | Some u => cons_char u (string_chars rest1)
            | None =>
                if N.eqb e 117 then
                  match rest1 with
                  | h1 :: h2 :: h3 :: h4 :: rest2 =>
                      match hex4 h1 h2 h3 h4 with
                      | Some u => cons_char u (string_chars rest2)
                      | None => None
                      end
                  | _ => None
                  end
                else None
            end
        end
      else if N.ltb c 32 then None
      else cons_char c (string_chars rest)
  end.

Fixpoint take_digits (s : jsstring) : jsstring * jsstring :=
  match s with
  | c :: s' =>
      if is_digit c then let '(ds, rest) := take_digits s' in (c :: ds, rest)
      else ([], s)
  | [] => ([], [])
  end.

(** At least one digit. *)
Definition take_digits1 (s : jsstring) : option (jsstring * jsstring) :=
  match take_digits s with
  | ([], _) => None
  | (ds, rest) => Some (ds, rest)
  end.

Definition digits_value (ds : jsstring) : Z :=
  fold_left (fun acc c => (acc * 10 + Z.of_N (c - 48))%Z) ds 0%Z.

(** An optional minus sign. *)
Definition sign (s : jsstring) : bool * jsstring :=
  match starts 45 s with
  | Some r => (true, r)
  | None => (false, s)
  end.

(** The integer part: a single 0, or digits that start with a non-zero one. *)
Definition int_part (s : jsstring) : option (jsstring * jsstring) :=
  match starts 48 s with
  | Some r => Some ([48%N], r)
  | None => take_digits1 s
  end.

(** The optional fraction: its digits. *)
Definition frac_part (s : jsstring) : option (jsstring * jsstring) :=
  match starts 46 s with
  | Some r => take_digits1 r
  | None => Some ([], s)
  end.

(** The optional exponent: its value. *)
Definition exp_part (s : jsstring) : option (Z * jsstring) :=
  let after_e :=
    match starts 101 s with
    | Some r => Some r
    | None => starts 69 s
    end in
  match after_e with
  | None => Some (0%Z, s)
  | Some r =>
      let '(eneg, r1) :=
        match starts 45 r with
        | Some r' => (true, r')
        | None =>
            match starts 43 r with
            | Some r' => (false, r')
            | None => (false, r)
            end
        end in
      match take_digits1 r1 with
      | Some (ds, r') =>
          Some (if eneg then (- digits_value ds)%Z else digits_value ds, r')
      | None => None
      end
  end.

(** A number literal at the head of [s]. *)
Definition number_literal (s : jsstring) : option (number * jsstring) :=
  let '(neg, s1) := sign s in
  match int_part s1 with
  | None => None
  | Some (int_ds, s2) =>
      match frac_part s2 with
      | None => None
      | Some (frac_ds, s3) =>
          match exp_part s3 with
          | None => None
          | Some (ex, s4) =>
              Some (JsNumber.of_decimal neg (digits_value (int_ds ++ frac_ds))
                      (ex - Z.of_nat (length frac_ds))%Z, s4)
          end
      end
  end.

Definition keyword (k : jsstring) (v : value) (s : jsstring) : parse_result value :=
  if startsWith k s then Parsed v (skipn (length k) s) else SyntaxError.

(** What the first code unit of a value announces. *)
Inductive opening := Open_null | Open_true | Open_false | Open_string
                   | Open_array | Open_object | Open_number.

Definition opening_of (c : N) : opening :=
  match c with
  | 110 => Open_null
  | 116 => Open_true
  | 102 => Open_false
  | 34 => Open_string
  | 91 => Open_array
  | 123 => Open_object
  | _ => Open_number
  end%N.

Definition map_result {A B} (f : A -> B) (r : parse_result A) : parse_result B :=
  match r with
  | Parsed a rest => Parsed (f a) rest
  | SyntaxError => SyntaxError
  | OutOfFuel => OutOfFuel
  end.

Fixpoint parse_value (fuel : nat) (s : jsstring) : parse_result value :=
  match fuel with
  | O => OutOfFuel
  | S fuel' =>
      match skip_ws s with
      | [] => SyntaxError
      | c :: r =>
          match opening_of c with
          | Open_null => keyword (js "null") VNull (c :: r)
          | Open_true => keyword (js "true") (VBool true) (c :: r)
          | Open_false => keyword (js "false") (VBool false) (c :: r)
          | Open_string =>
              match string_chars r with
              | Some (str, rest) => Parsed (VStr str) rest
              | None => SyntaxError
              end
          | Open_array =>
              match starts 93 (skip_ws r) with
              | Some rest => Parsed (VArr []) rest
              | None => map_result VArr (parse_elements fuel' r)
              end
          | Open_object =>
              match starts 125 (skip_ws r) with
              | Some rest => Parsed (VObj []) rest
              | None => map_result VObj (parse_members fuel' r)
              end
          | Open_number =>
              match number_literal (c :: r) with
              | Some (x, rest) => Parsed (VNum x) rest
              | None => SyntaxError
              end
          end
      end
  end

with parse_elements (fuel : nat) (s : jsstring) : parse_result (list value) :=
  match fuel with
  | O => OutOfFuel
  | S fuel' =>
      match parse_value fuel' s with
      | Parsed v r =>
          match starts 93 (skip_ws r) with
          | Some rest => Parsed [v] rest
          | None =>
              match starts 44 (skip_ws r) with
              | Some rest => map_result (cons v) (parse_elements fuel' rest)
              | None => SyntaxError
              end
          end
      | SyntaxError => SyntaxError
      | OutOfFuel => OutOfFuel
      end
  end

with parse_members (fuel : nat) (s : jsstring) : parse_result (list (jsstring * value)) :=
  match fuel with
  | O => OutOfFuel
  | S fuel' =>
      match starts 34 (skip_ws s) with
      | None => SyntaxError
      | Some r =>
          match string_chars r with
          | None => SyntaxError
          | Some (k, r1) =>
              match starts 58 (skip_ws r1) with
              | None => SyntaxError
              | Some r2 =>
                  match parse_value fuel' r2 with
                  | Parsed v r3 =>
                      match starts 125 (skip_ws r3) with
                      | Some rest => Parsed [(k, v)] rest
                      | None =>
                          match starts 44 (skip_ws r3) with
                          | Some rest =>
                              map_result (cons (k, v)) (parse_members fuel' rest)
                          | None => SyntaxError
                          end
                      end
                  | SyntaxError => SyntaxError
                  | OutOfFuel => OutOfFuel
                  end
              end
          end
      end
  end.

Definition fuel_for (s : jsstring) : nat := S (S (2 * length s)).

(** [JSON.parse(text)]: the value, or [None] for the [SyntaxError] it
    throws. *)
Definition parse (text : jsstring) : option value :=
  match parse_value (fuel_for text) text with
  | Parsed v rest => match skip_ws rest with [] => Some v | _ => None end
  | _ => None
  end.

End Json.

(** ** [JSON.stringify] on strings

    QuoteJSONString: the quote, the backslash and the control characters
    are escaped, a surrogate that is not half of a pair is written as a
    unicode escape, everything else is written as it is. *)

Module JsonQuote.

Definition is_high (c : N) : bool := (55296 <=? c)%N && (c <=? 56319)%N.

Definition is_low (c : N) : bool := (56320 <=? c)%N && (c <=? 57343)%N.

(** A hexadecimal digit, lower case. *)
Definition hex_char (d : N) : N := if (d <? 10)%N then (48 + d)%N else (87 + d)%N.

Definition unicode_escape (c : N) : jsstring :=
  [92; 117; hex_char (c / 4096); hex_char ((c / 256) mod 16);
   hex_char ((c / 16) mod 16); hex_char (c mod 16)]%N.

Definition quote_unit (c : N) : jsstring :=
  if N.eqb c 8 then js "\b"
  else if N.eqb c 9 then js "\t"
  else if N.eqb c 10 then js "\n"
  else if N.eqb c 12 then js "\f"
  else if N.eqb c 13 then js "\r"
  else if N.eqb c 34 then [92; 34]%N
  else if N.eqb c 92 then [92; 92]%N
  else if N.ltb c 32 then unicode_escape c
  else [c].

Fixpoint quote_chars (s : jsstring) : jsstring :=
  match s with
  | [] => []
  | c :: rest =>
      if is_high c then
        match rest with
        | d :: rest' =>
            if is_low d then c :: d :: quote_chars rest'
            else unicode_escape c ++ quote_chars rest
        | [] => unicode_escape c
        end
      else if is_low c then unicode_escape c ++ quote_chars rest
      else quote_unit c ++ quote_chars rest
  end.

(** [JSON.stringify(s)] for a string [s]. *)
Definition stringify_string (s : jsstring) : jsstring :=
  34%N :: quote_chars s ++ [34%N].

End JsonQuote.

(** ** The HTTP layer: response, collaborators, effects *)

(** What the handler has done to [res]: the status set by [res.status],
    the headers set by [res.setHeader] (latest first), the body given to
    [res.json], the chunks [stream.pipe(res)] has written, and whether the
    response head has gone out ([res.headersSent]).  What Express does with
    a body beyond sending it (serialisation, default headers) is not part
    of the embedding. *)
Record response := {
  statusCode : N;
  headers : list (jsstring * jsstring);
  body : option value;
  written : list jsstring;
  headersSent : bool
}.

Definition fresh_response : response :=
  {| statusCode := 200; headers := []; body := None; written := [];
     headersSent := false |}.

(** The value [res.getHeader(name)] would return (header names compare as
    written: the handler only uses the three names below). *)
Fixpoint getHeader (name : jsstring) (hs : list (jsstring * jsstring)) : option jsstring :=
  match hs with
  | [] => None
  | (k, v) :: rest => if JsString.eqb name k then Some v else getHeader name rest
  end.

(** Calls on the collaborators imported from the other modules, and on the
    upstream stream and the request object. *)
Inductive call :=
| Call_getValidCount
| Call_getStatus
| Call_buildNotionRequest (requestData : value)
| Call_streamNotionResponse (notionRequestBody : value)
| Call_stream_on (event : string)
| Call_stream_pipe
| Call_req_on (event : string)
| Call_stream_end.

(** What the request is waiting for once the handler has returned. *)
Inductive phase :=
| Idle
    (* no listener registered *)
| Streaming
    (* stream piped into res; listeners: stream error, req close *)
| Aggregating (requestData : value) (chunks : list value)
    (* listeners: stream data, end, error; chunks is the array of the
       non-streaming branch *).

Record conn := {
  res : response;
  calls : list call;      (* in call order *)
  waiting : phase
}.

Definition fresh_conn : conn :=
  {| res := fresh_response; calls := []; waiting := Idle |}.

(** The collaborators, as the handler sees them. *)
Record env := {
  INITIALIZED_SUCCESSFULLY : bool;
  (* the number cookieManager.getValidCount() returns *)
  getValidCount : N;
  (* buildNotionRequest(requestData): its result, or the error it throws *)
  buildNotionRequest : value -> value + exn;
  (* await streamNotionResponse(body): a stream, or the error it rejects with *)
  streamNotionResponse : value -> unit + exn;
  (* randomUUID() *)
  randomUUID : jsstring;
  (* Math.floor(Date.now() / 1000) *)
  created : number
}.

(** Computations of the handler: they change the connection and return or
    throw. *)
Definition M (A : Type) : Type := conn -> (A + exn) * conn.

Definition ret {A} (a : A) : M A := fun c => (inl a, c).

Definition throw {A} (e : exn) : M A := fun c => (inr e, c).

Definition bind {A B} (m : M A) (k : A -> M B) : M B :=
  fun c => match m c with
           | (inl a, c') => k a c'
           | (inr e, c') => (inr e, c')
           end.

Definition try_catch {A} (m : M A) (handler : exn -> M A) : M A :=
  fun c => match m c with
           | (inl a, c') => (inl a, c')
           | (inr e, c') => handler e c'
           end.

Declare Scope js_scope.
Delimit Scope js_scope with js.
Notation "x <- m ;; k" := (bind m (fun x => k))
  (at level 61, m at next level, right associativity) : js_scope.
Notation "m ;;; k" := (bind m (fun _ => k))
  (at level 61, right associativity) : js_scope.
Local Open Scope js_scope.

Definition lift {A} (r : A + exn) : M A :=
  match r with inl a => ret a | inr e => throw e end.

Definition record (k : call) : M unit :=
  fun c => (inl tt, {| res := res c; calls := calls c ++ [k]; waiting := waiting c |}).

Definition update_res (f : response -> response) : M unit :=
  fun c => (inl tt, {| res := f (res c); calls := calls c; waiting := waiting c |}).

Definition wait_for (p : phase) : M unit :=
  fun c => (inl tt, {| res := res c; calls := calls c; waiting := p |}).

Definition ERR_HTTP_HEADERS_SENT : exn :=
  JsError (js "Cannot set headers after they are sent to the client").

(** [res.status(code)] *)
Definition res_status (code : N) : M unit :=
  update_res (fun r =>
    {| statusCode := code; headers := headers r; body := body r;
       written := written r; headersSent := headersSent r |}).

(** [res.setHeader(name, v)]: throws once the head has been sent. *)
Definition res_setHeader (name v : jsstring) : M unit :=
  fun c =>
    if headersSent (res c) then throw ERR_HTTP_HEADERS_SENT c
    else update_res (fun r =>
      {| statusCode := statusCode r; headers := (name, v) :: headers r;
         body := body r; written := written r; headersSent := headersSent r |}) c.

(** The characters of a token of a media type: letters, digits and
    [! # $ % & ' * + - . ^ _ ` | ~]. *)
Definition is_token_char (c : N) : bool :=
  ((48 <=? c)%N && (c <=? 57)%N) || ((65 <=? c)%N && (c <=? 90)%N) ||
  ((97 <=? c)%N && (c <=? 122)%N) ||
  existsb (N.eqb c)
    [33; 35; 36; 37; 38; 39; 42; 43; 45; 46; 94; 95; 96; 124; 126]%N.

Definition is_token (s : jsstring) : bool :=
  match s with
  | [] => false
  | _ :: _ => forallb is_token_char s
  end.

Fixpoint before_semicolon (s : jsstring) : jsstring :=
  match s with
  | [] => []
  | c :: s' => if N.eqb c 59 then [] else c :: before_semicolon s'
  end.

(** The test Express puts a [Content-Type] to when a body is sent under
    it: [res.send] rewrites the header with [setCharset], which reads it
    with [contentType.parse], and that throws a [TypeError] unless the type
    (the text before the first semicolon, trimmed) is two tokens with a
    slash between them.  (The parameters after a semicolon, which it reads
    too, are left out: the handler sets a value without any.) *)
Definition media_type (type : jsstring) : bool :=
  match split 47 (trim (before_semicolon type)) with
  | [t; subtype] => is_token t && is_token subtype
  | _ => false
  end.

(** The [Content-Type] set on the response, if any, is a media type. *)
Definition has_media_type (r : response) : bool :=
  match getHeader (js "Content-Type") (headers r) with
  | Some type => media_type type
  | None => true
  end.

Definition invalid_media_type : exn := JsError (js "invalid media type").

(** [res.json(v)]: sends the response with body [v].  It throws a
    [TypeError] when the [Content-Type] already set is no media type (the
    header is read before anything is written), and it sets headers
    before it sends, so it throws once the head has been sent. *)
Definition res_json (v : value) : M unit :=
  fun c =>
    if negb (has_media_type (res c)) then throw invalid_media_type c
    else if headersSent (res c) then throw ERR_HTTP_HEADERS_SENT c
    else update_res (fun r =>
      {| statusCode := statusCode r; headers := headers r; body := Some v;
         written := written r; headersSent := true |}) c.

(** [res.headersSent] *)
Definition res_headersSent : M bool := fun c => (inl (headersSent (res c)), c).

(** ** The authentication middleware *)

Section Authenticate.

(** [process.env.PROXY_AUTH_TOKEN]: [None] when the variable is unset. *)
Variable PROXY_AUTH_TOKEN : option jsstring.

(** [const EXPECTED_TOKEN = process.env.PROXY_AUTH_TOKEN || "default_token"] *)
Definition EXPECTED_TOKEN : jsstring :=
  match PROXY_AUTH_TOKEN with
  | Some (c :: t) => c :: t
  | Some [] | None => js "default_token"
  end.

Definition error_body (msg : jsstring) (type : string) : value :=
  VObj [(js "error", VObj [(js "message", VStr msg); (js "type", VStr (js type))])].

Definition auth_required : value :=
  error_body (js "Authentication required. Please provide a valid Bearer token.")
             "authentication_error".

Definition auth_invalid : value :=
  error_body (js "Invalid authentication credentials") "authentication_error".

(** [authHeader.split(' ')[1]]: [None] for [undefined]. *)
Definition token_of (authHeader : jsstring) : option jsstring :=
  nth_error (split 32 authHeader) 1.

(** [token !== EXPECTED_TOKEN] *)
Definition token_differs (token : option jsstring) : bool :=
  match token with
  | Some t => negb (JsString.eqb t EXPECTED_TOKEN)
  | None => true
  end.

(** [authenticate(req, res, next)]: returns [true] when it calls [next()],
    [false] when it has answered itself.  [authHeader] is
    [req.headers.authorization], [None] when the header is absent. *)
Definition authenticate (authHeader : option jsstring) : M bool :=
  match authHeader with
  | Some (c :: h) =>
      let authHeader := c :: h in
      if negb (startsWith (js "Bearer ") authHeader) then
        res_status 401 ;;; res_json auth_required ;;; ret false
      else
        let token := token_of authHeader in
        if token_differs token then
          res_status 401 ;;; res_json auth_invalid ;;; ret false
        else ret true
  | Some [] | None =>
      res_status 401 ;;; res_json auth_required ;;; ret false
  end.

End Authenticate.

(** ** [POST /v1/chat/completions] *)

Section ChatCompletions.

Variable E : env.

Definition not_initialized : value :=
  error_body
    [31995; 32479; 26410; 25104; 21151; 21021; 22987; 21270; 12290; 35831;
     26816; 26597; 24744; 30340; 78; 79; 84; 73; 79; 78; 95; 67; 79; 79; 75;
     73; 69; 26159; 21542; 26377; 25928; 12290]%N
    "server_error".

Definition no_valid_cookies : value :=
  error_body
    [27809; 26377; 21487; 29992; 30340; 26377; 25928; 99; 111; 111; 107; 105;
     101; 12290; 35831; 26816; 26597; 24744; 30340; 78; 79; 84; 73; 79; 78;
     95; 67; 79; 79; 75; 73; 69; 37197; 32622; 12290]%N
    "server_error".

Definition invalid_messages : value :=
  error_body (js "Invalid request: 'messages' field must be a non-empty array.")
             "invalid_request_error".

Definition internal_error (error : exn) : value :=
  error_body (js "Internal server error: " ++ message error) "server_error".

Definition stream_failed : value :=
  VObj [(js "error", VObj [(js "message", VStr (js "Stream processing failed"))])].

(** [messages.length === 0] for a value that passed [Array.isArray]. *)
Definition length_is_zero (messages : value) : bool :=
  match messages with
  | VArr [] => true
  | _ => false
  end.

(** The handler, up to the point where it returns: the guards, the request
    translation, and the set-up of one of the two branches. *)
Definition chat_completions (req_body : value) : M unit :=
  try_catch
    (if negb (INITIALIZED_SUCCESSFULLY E) then
       res_status 500 ;;; res_json not_initialized
     else
       record Call_getValidCount ;;;
       if N.eqb (getValidCount E) 0 then
         res_status 500 ;;; res_json no_valid_cookies
       else
         let requestData := req_body in
         (* req.log.info({ model: requestData.model, stream: requestData.stream }, ...) *)
         _ <- lift (get (js "model") requestData) ;;
         _ <- lift (get (js "stream") requestData) ;;
         messages <- lift (get (js "messages") requestData) ;;
         if negb (truthy messages) || negb (isArray messages)
            || length_is_zero messages then
           res_status 400 ;;; res_json invalid_messages
         else
           record (Call_buildNotionRequest requestData) ;;;
           notionRequestBody <- lift (buildNotionRequest E requestData) ;;
           stream <- lift (get (js "stream") requestData) ;;
           if truthy stream then
             res_setHeader (js "Content-Type") (js "text-event-stream") ;;;
             res_setHeader (js "Cache-Control") (js "no-cache") ;;;
             res_setHeader (js "Connection") (js "keep-alive") ;;;
             record (Call_streamNotionResponse notionRequestBody) ;;;
             _ <- lift (streamNotionResponse E notionRequestBody) ;;
             record (Call_stream_on "error") ;;;
             record Call_stream_pipe ;;;
             record (Call_req_on "close") ;;;
             wait_for Streaming
           else
             record (Call_streamNotionResponse notionRequestBody) ;;;
             _ <- lift (streamNotionResponse E notionRequestBody) ;;
             record (Call_stream_on "data") ;;;
             record (Call_stream_on "end") ;;;
             record (Call_stream_on "error") ;;;
             wait_for (Aggregating requestData []))
    (fun error =>
       sent <- res_headersSent ;;
       if negb sent then res_status 500 ;;; res_json (internal_error error)
       else ret tt).

(** *** The listeners of the non-streaming branch *)

(** [chunkData.choices[0].delta] *)
Definition choices_0_delta (chunkData : value) : value + exn :=
  match get (js "choices") chunkData with
  | inl choices =>
      match get_index 0 choices with
      | inl choice => get (js "delta") choice
      | inr e => inr e
      end
  | inr e => inr e
  end.

(** [chunkData.choices[0].delta.content] *)
Definition choices_0_delta_content (chunkData : value) : value + exn :=
  match choices_0_delta chunkData with
  | inl delta => get (js "content") delta
  | inr e => inr e
  end.

Definition SyntaxError_thrown : exn := JsError (js "SyntaxError").

(** The body of the [try] in the [data] listener: the array [chunks] after
    it, or the exception thrown. *)
Definition try_push (chunkStr : jsstring) (chunks : list value) : list value + exn :=
  let dataJson := trim (substring 6 chunkStr) in
  match dataJson with
  | [] => inl chunks
  | _ :: _ =>
      match Json.parse dataJson with
      | None => inr SyntaxError_thrown
      | Some chunkData =>
          match get (js "choices") chunkData with
          | inr e => inr e
          | inl choices =>
              if negb (truthy choices) then inl chunks
              else
                match choices_0_delta chunkData with
                | inr e => inr e
                | inl delta =>
                    if negb (truthy delta) then inl chunks
                    else
                      match choices_0_delta_content chunkData with
                      | inr e => inr e
                      | inl content =>
                          if negb (truthy content) then inl chunks
                          else
                            match choices_0_delta_content chunkData with
                            | inr e => inr e
                            | inl content' => inl (chunks ++ [content'])
                            end
                      end
                end
          end
      end
  end.

(** [stream.on('data', (chunk) => ...)], on [chunkStr = chunk.toString()]:
    the array [chunks] after the listener has run. *)
Definition on_data (chunkStr : jsstring) (chunks : list value) : list value :=
  if startsWith (js "data: ") chunkStr && negb (includes (js "[DONE]") chunkStr) then
    match try_push chunkStr chunks with
    | inl chunks' => chunks'
    | inr _ => chunks      (* catch (error) { req.log.error(...) } *)
    end
  else chunks.

Definition TypeError_to_primitive : exn :=
  JsError (js "Cannot convert object to primitive value").

(** The object the [end] listener answers with, [model] being
    [requestData.model] and [content] being [chunks.join('')]. *)
Definition fullResponse (model : value) (content : jsstring) : value :=
  VObj
    [(js "id", VStr (js "chatcmpl-" ++ randomUUID E));
     (js "object", VStr (js "chat.completion"));
     (js "created", VNum (created E));
     (js "model", model);
     (js "choices",
      VArr [VObj [(js "index", VNum (Zero false));
                  (js "message",
                   VObj [(js "role", VStr (js "assistant"));
                         (js "content", VStr content)]);
                  (js "finish_reason", VStr (js "stop"))]]);
     (js "usage",
      VObj [(js "prompt_tokens", VNull);
            (js "completion_tokens", VNull);
            (js "total_tokens", VNull)])].

(** [stream.on('end', () => ...)]: the object is built, property by
    property, then sent. *)
Definition on_end (requestData : value) (chunks : list value) : M unit :=
  model <- lift (get (js "model") requestData) ;;
  match join_empty chunks with
  | None => throw TypeError_to_primitive
  | Some content => res_json (fullResponse model content)
  end.

(** [stream.on('error', (error) => ...)] of the non-streaming branch *)
Definition on_error : M unit :=
  sent <- res_headersSent ;;
  if negb sent then res_status 500 ;;; res_json stream_failed else ret tt.

(** *** What happens after the handler has returned *)

(** The events of the upstream stream and of the request, and the client
    going away.  With the Node of the image (Dockerfile: node:20) a request
    emits [close] once its body has been read, which is before the handler
    registers its listener (the body is read by the middleware, and the
    handler waits for the upstream call first): a client that goes away
    later is no [close] of the request, and the handler has no listener for
    it. *)
Inductive event :=
| Data (chunkStr : jsstring)     (* the stream emits data *)
| End                            (* the stream emits end *)
| Error (error : exn)            (* the stream emits error *)
| Close                          (* the request emits close *)
| Disconnect                     (* the client goes away *).

(** [stream.pipe(res)] writes every chunk to the response. *)
Definition res_write (chunkStr : jsstring) : M unit :=
  update_res (fun r =>
    {| statusCode := statusCode r; headers := headers r; body := body r;
       written := written r ++ [chunkStr]; headersSent := true |}).

(** One event, handled by the listeners registered for it.  ([resolve] and
    [reject] settle the promise the handler returned, which nothing in the
    file observes; [pipe] also ends the response when the stream ends.) *)
Definition on_event (ev : event) : M unit :=
  fun c =>
    match waiting c, ev with
    | Aggregating requestData chunks, Data chunkStr =>
        wait_for (Aggregating requestData (on_data chunkStr chunks)) c
    | Aggregating requestData chunks, End => on_end requestData chunks c
    | Aggregating _ _, Error _ => on_error c
    | Aggregating _ _, Close => ret tt c
    | Aggregating _ _, Disconnect => ret tt c
    | Streaming, Data chunkStr => res_write chunkStr c
    | Streaming, End => ret tt c
    | Streaming, Error _ => ret tt c          (* req.log.error only *)
    | Streaming, Close => record Call_stream_end c
    | Streaming, Disconnect => ret tt c
    | Idle, _ => ret tt c
    end.

Fixpoint on_events (evs : list event) : M unit :=
  match evs with
  | [] => ret tt
  | ev :: rest => on_event ev ;;; on_events rest
  end.

End ChatCompletions.

(** ** The routes *)

Record request := {
  (* req.headers.authorization, None when the header is absent *)
  authorization : option jsstring;
  (* req.body *)
  req_body : value
}.

Inductive endpoint :=
| GET_v1_models
| POST_v1_chat_completions
| GET_health
| GET_cookies_status.

(** The routes registered with the [authenticate] middleware. *)
Definition authenticated (ep : endpoint) : bool :=
  match ep with
  | GET_health => false
  | _ => true
  end.

Section Routes.

Variable PROXY_AUTH_TOKEN : option jsstring.
Variable E : env.
(* cookieManager.getStatus() and new Date().toISOString() *)
Variable getStatus : value.
Variable timestamp : jsstring.

Definition modelList : value :=
  VObj [(js "data",
         VArr [VObj [(js "id", VStr (js "openai-gpt-4.1"))];
               VObj [(js "id", VStr (js "anthropic-opus-4"))];
               VObj [(js "id", VStr (js "anthropic-sonnet-4"))];
               VObj [(js "id", VStr (js "anthropic-sonnet-3.x-stable"))]])].

(** The handler of a route, run once the middleware has called [next()]. *)
Definition handler (ep : endpoint) (req : request) : M unit :=
  match ep with
  | GET_v1_models => res_json modelList
  | POST_v1_chat_completions => chat_completions E (req_body req)
  | GET_health =>
      record Call_getValidCount ;;;
      res_json (VObj [(js "status", VStr (js "ok"));
                      (js "timestamp", VStr timestamp);
                      (js "initialized", VBool (INITIALIZED_SUCCESSFULLY E));
                      (js "valid_cookies", VNum (of_Z (Z.of_N (getValidCount E))))])
  | GET_cookies_status =>
      record Call_getValidCount ;;;
      record Call_getStatus ;;;
      res_json (VObj [(js "total_cookies", VNum (of_Z (Z.of_N (getValidCount E))));
                      (js "cookies", getStatus)])
  end.

(** A request to a route: the middleware, then the handler. *)
Definition serve (ep : endpoint) (req : request) : M unit :=
  if authenticated ep then
    ok <- authenticate PROXY_AUTH_TOKEN (authorization req) ;;
    if ok then handler ep req else ret tt
  else handler ep req.

End Routes.

(** A non-streaming exchange from the handler's point of view: the handler
    runs, then the stream emits the chunks and ends. *)
Definition aggregate (E : env) (req_body : value) (chunkStrs : list jsstring) : M unit :=
  chat_completions E req_body ;;; on_events E (map Data chunkStrs ++ [End]).

(** [requestData.stream] is truthy. *)
Definition wants_stream (req_body : value) : bool :=
  match get (js "stream") req_body with
  | inl s => truthy s
  | inr _ => false
  end.

(** The [messages] of a request pass the handler's check. *)
Definition has_messages (req_body : value) : bool :=
  match get (js "messages") req_body with
  | inl (VArr (_ :: _)) => true
  | _ => false
  end.

(** ** The specification's reading of the stream (section 4.4)

    A read chunk is a well-formed event when it starts with the prefix and
    the rest is a JSON text; its [deltaContent] and [finishReason] are the
    strings at [choices[0].delta.content] and [choices[0].finish_reason]
    of the OpenAI chunk format. *)

Definition event_json (chunkStr : jsstring) : option value :=
  if startsWith (js "data: ") chunkStr
  then Json.parse (trim (substring 6 chunkStr))
  else None.

(** The payload is not a JSON text. *)
Definition malformed (chunkStr : jsstring) : bool :=
  startsWith (js "data: ") chunkStr &&
  match Json.parse (trim (substring 6 chunkStr)) with
  | None => true
  | Some _ => false
  end.

Definition deltaContent (chunkData : value) : option value :=
  match choices_0_delta_content chunkData with
  | inl content => if truthy content then Some content else None
  | inr _ => None
  end.

Definition finishReason (chunkData : value) : option jsstring :=
  match get (js "choices") chunkData with
  | inl choices =>
      match get_index 0 choices with
      | inl choice =>
          match get (js "finish_reason") choice with
          | inl (VStr r) => Some r
          | _ => None
          end
      | inr _ => None
      end
  | inr _ => None
  end.

(** The text a chunk adds to the content, as a string. *)
Definition delta_text (chunkStr : jsstring) : jsstring :=
  match event_json chunkStr with
  | Some chunkData =>
      match deltaContent chunkData with
      | Some (VStr s) => s
      | _ => []
      end
  | None => []
  end.

(** Every delta content of the chunk is a string or absent, as the data
    model has it ([deltaContent: string|null]). *)
Definition string_delta (chunkStr : jsstring) : bool :=
  match event_json chunkStr with
  | Some chunkData =>
      match deltaContent chunkData with
      | Some (VStr _) | None => true
      | Some _ => false
      end
  | None => true
  end.

(** The event a delta with the string [content] is written as: the
    prefix, the chunk object serialised by [JSON.stringify], a blank line. *)
Definition delta_event (content : jsstring) : jsstring :=
  js "data: " ++ qq "{'choices':[{'delta':{'content':" ++
  JsonQuote.stringify_string content ++ qq "}}]}" ++ [10; 10]%N.

(** Every element is a UTF-16 code unit. *)
Definition code_units (s : jsstring) : Prop := Forall (fun c => (c < 65536)%N) s.

(** Step 5 as written: the concatenation of the [deltaContent] of every
    well-formed event, and the last [finishReason] seen, [stop] if none. *)
Definition spec_content (chunkStrs : list jsstring) : jsstring :=
  concat (map delta_text chunkStrs).

Definition spec_finishReason (chunkStrs : list jsstring) : jsstring :=
  fold_left
    (fun seen chunkStr =>
       match event_json chunkStr with
       | Some chunkData =>
           match finishReason chunkData with
           | Some r => r
           | None => seen
           end
       | None => seen
       end)
    chunkStrs (js "stop").

(** What the code does instead: a chunk that contains the sentinel text
    anywhere adds nothing. *)
Definition kept_text (chunkStr : jsstring) : jsstring :=
  if includes (js "[DONE]") chunkStr then [] else delta_text chunkStr.

(** The content and the finish reason of the completion a connection has
    answered with. *)
Definition answered (c : conn) : option (jsstring * jsstring) :=
  match body (res c) with
  | Some full =>
      match get (js "choices") full with
      | inl (VArr [choice]) =>
          match get (js "message") choice, get (js "finish_reason") choice with
          | inl message, inl (VStr reason) =>
              match get (js "content") message with
              | inl (VStr content) => Some (content, reason)
              | _ => None
              end
          | _, _ => None
          end
      | _ => None
      end
  | None => None
  end.

(** Modelled from the spec: the two pools of section 4, reduced to what the
    gateway asks of them before a call: the number of entries in state
    [Valid] ([validCount()]); [select()] signals exhaustion exactly when
    that number is zero.  [CookieManager.js] and [ProxyPool.js] are not
    part of the file embedded here. *)
Record pools := {
  credential_validCount : N;
  egress_validCount : N
}.

Definition exhausted (p : pools) : bool :=
  N.eqb (credential_validCount p) 0 || N.eqb (egress_validCount p) 0.

(** Modelled from the spec: the error of section 7 for an exhausted egress
    pool, observed through its name. *)
Definition NoEgressAvailable : exn := JsError (js "NoEgressAvailable").

(** Modelled from the spec: the handler's environment beside these pools.
    [cookieManager] is the credential pool, which the handler asks itself.
    The handler does not ask the egress pool ([proxyPool] is imported by
    the file and not used): the route is selected by the upstream call,
    [streamNotionResponse] of [lightweight-client.js], which is not part of
    the file embedded here; by section 4.5 it fails fast with
    [NoEgressAvailable] when the egress pool's [select()] signals
    exhaustion, before the upstream is contacted. *)
Definition env_with (p : pools) (E : env) : env :=
  {| INITIALIZED_SUCCESSFULLY := INITIALIZED_SUCCESSFULLY E;
     getValidCount := credential_validCount p;
     buildNotionRequest := buildNotionRequest E;
     streamNotionResponse := fun notionRequestBody =>
       if N.eqb (egress_validCount p) 0 then inr NoEgressAvailable
       else streamNotionResponse E notionRequestBody;
     randomUUID := randomUUID E;
     created := created E |}.

(** The upstream call was made. *)
Definition upstream_called (c : conn) : bool :=
  existsb (fun k => match k with Call_streamNotionResponse _ => true | _ => false end)
          (calls c).

(** The request translator was invoked. *)
Definition translator_called (c : conn) : bool :=
  existsb (fun k => match k with Call_buildNotionRequest _ => true | _ => false end)
          (calls c).

(** A pool was asked something. *)
Definition pool_called (c : conn) : bool :=
  existsb (fun k => match k with Call_getValidCount | Call_getStatus => true | _ => false end)
          (calls c).

(** [stream.end()] was called, or a [close] listener registered. *)
Definition cancellation_wired (c : conn) : bool :=
  existsb (fun k => match k with Call_req_on _ | Call_stream_end => true | _ => false end)
          (calls c).

(** ** Connections and chunks, for the statements below *)

(** The connection [c] once the handler has answered with status [code]
    and body [b]. *)
Definition answered_with (c : conn) (code : N) (b : value) : conn :=
  {| res := {| statusCode := code; headers := headers (res c); body := Some b;
               written := written (res c); headersSent := true |};
     calls := calls c;
     waiting := waiting c |}.

(** The connection [c] once [res.status(code)] has been called and
    nothing has been sent. *)
Definition status_set (c : conn) (code : N) : conn :=
  {| res := {| statusCode := code; headers := headers (res c); body := body (res c);
               written := written (res c); headersSent := headersSent (res c) |};
     calls := calls c;
     waiting := waiting c |}.

(** The three ways the contract of section 6 has a request refused: no
    header, a header that does not start with the scheme, a token other
    than the secret. *)
Definition rejected (secret : jsstring) (authHeader : option jsstring) : bool :=
  match authHeader with
  | None => true
  | Some h =>
      negb (startsWith (js "Bearer ") h) ||
      match token_of h with
      | Some token => negb (JsString.eqb token secret)
      | None => true
      end
  end.

(** The connection [c] after the calls [ks]. *)
Definition called (c : conn) (ks : list call) : conn :=
  {| res := res c; calls := calls c ++ ks; waiting := waiting c |}.

(** The connection [c] after [res.setHeader] for each of [hs], the first
    of [hs] set last. *)
Definition with_headers (c : conn) (hs : list (jsstring * jsstring)) : conn :=
  {| res := {| statusCode := statusCode (res c); headers := hs ++ headers (res c);
               body := body (res c); written := written (res c);
               headersSent := headersSent (res c) |};
     calls := calls c;
     waiting := waiting c |}.

(** The connection [c], its listeners registered. *)
Definition now_waiting (c : conn) (p : phase) : conn :=
  {| res := res c; calls := calls c; waiting := p |}.

(** [undefined] or [null] *)
Definition is_nullish (v : value) : bool :=
  match v with
  | VUndefined | VNull => true
  | _ => false
  end.

(** The three headers of the streaming branch, the last set first. *)
Definition stream_headers : list (jsstring * jsstring) :=
  [(js "Connection", js "keep-alive");
   (js "Cache-Control", js "no-cache");
   (js "Content-Type", js "text-event-stream")].

(** The array [chunks] after the [data] listener has run on each of
    [chunkStrs] in turn. *)
Definition collect (chunkStrs : list jsstring) (chunks : list value) : list value :=
  fold_left (fun acc chunkStr => on_data chunkStr acc) chunkStrs chunks.

(** What a chunk, taken by itself, adds to the array: the delta content of
    the event it is, unless it contains the sentinel text. *)
Definition pushed (chunkStr : jsstring) : list value :=
  if includes (js "[DONE]") chunkStr then []
  else match event_json chunkStr with
       | Some chunkData =>
           match deltaContent chunkData with
           | Some content => [content]
           | None => []
           end
       | None => []
       end.

(** The connection is in the non-streaming branch, or answered already. *)
Definition not_streaming (c : conn) : bool :=
  match waiting c with
  | Streaming => false
  | _ => true
  end.

(** ** Examples of requests and streams *)

Definition example_env : env :=
  {| INITIALIZED_SUCCESSFULLY := true;
     getValidCount := 1;
     buildNotionRequest := fun requestData => inl requestData;
     streamNotionResponse := fun _ => inl tt;
     randomUUID := js "00000000-0000-4000-8000-000000000000";
     created := of_Z 1700000000 |}.

Definition example_request (stream : bool) : value :=
  VObj [(js "model", VStr (js "anthropic-sonnet-4"));
        (js "messages",
         VArr [VObj [(js "role", VStr (js "user")); (js "content", VStr (js "Hi"))]]);
        (js "stream", VBool stream)].

Definition Hel_lo_DONE : list jsstring :=
  [qq "data: {'choices':[{'delta':{'content':'Hel'}}]}";
   qq "data: {'choices':[{'delta':{'content':'lo'}}]}";
   qq "data: [DONE]"].

Definition not_initialized_env : env :=
  {| INITIALIZED_SUCCESSFULLY := false;
     getValidCount := 0;
     buildNotionRequest := buildNotionRequest example_env;
     streamNotionResponse := streamNotionResponse example_env;
     randomUUID := randomUUID example_env;
     created := created example_env |}.

(** One valid cookie, no valid proxy. *)
Definition no_egress : pools :=
  {| credential_validCount := 1; egress_validCount := 0 |}.

(** No valid cookie. *)
Definition no_credential : pools :=
  {| credential_validCount := 0; egress_validCount := 1 |}.

(** A body without [messages]. *)
Definition no_messages : value :=
  VObj [(js "model", VStr (js "anthropic-sonnet-4"))].

(** Two events, the second with a content that holds the sentinel text and
    with a finish reason, then the sentinel. *)
Definition Hel_lo_length : list jsstring :=
  [qq "data: {'choices':[{'delta':{'content':'Hel'},'finish_reason':null}]}";
   qq "data: {'choices':[{'delta':{'content':'lo [DONE]'},'finish_reason':'length'}]}";
   qq "data: [DONE]"].

(** An event, whole and cut in two reads. *)
Definition Hel_event : jsstring :=
  qq "data: {'choices':[{'delta':{'content':'Hel'}}]}".

Definition Hel_event_head : jsstring := qq "data: {'choices':[{'del".

Definition Hel_event_tail : jsstring := qq "ta':{'content':'Hel'}}]}".

Definition lo_event : jsstring :=
  qq "data: {'choices':[{'delta':{'content':'lo'}}]}".

(** The malformed event of section 8. *)
Definition not_json : jsstring := qq "data: {not json".

(** A well-formed event whose content holds the sentinel text. *)
Definition DONE_in_content : jsstring :=
  qq "data: {'choices':[{'delta':{'content':'say [DONE] then stop'}}]}".

(** ** Configuration and start-up *)

(** [process.env.NAME || d]: the variable when it is set and not empty. *)
Definition env_or (variable : option jsstring) (d : value) : value :=
  match variable with
  | Some (c :: t) => VStr (c :: t)
  | Some [] | None => d
  end.

(** What a template literal writes for a string or a number. *)
Definition text_of (v : value) : jsstring :=
  match toString v with
  | Some s => s
  | None => []
  end.

(** What the process does at start-up, beside serving requests. *)
Inductive effect :=
| Listen (port : value)                   (* app.listen(PORT, callback) *)
| Log (level : string) (msg : jsstring)   (* logger.level(msg) *)
| Exit (code : N)                         (* process.exit(code) *).

(** What becomes of the call [app.listen(PORT, callback)]: the server
    comes to listen and the callback runs; the call throws; or neither
    (the server fails later, or is still to listen). *)
Inductive listen_outcome :=
| Listening
| Listen_throws (error : exn)
| Listen_pending.

Section Configuration.

(** [process.env.PORT] as the node process reads it, that is once
    [dotenv.config] has run: [None] when the variable is set neither in the
    environment of the process nor in the [.env] file. *)
Variable env_PORT : option jsstring.
Variable E : env.

(** [const PORT = process.env.PORT || 7860] *)
Definition PORT : value := env_or env_PORT (VNum (of_Z 7860)).

(** The callback of [app.listen]: what it logs once the server listens. *)
Definition on_listening : list effect :=
  [Log "info" (js "Server started successfully on port " ++ text_of PORT);
   Log "info" (js "Listening at http://0.0.0.0:" ++ text_of PORT)] ++
  if INITIALIZED_SUCCESSFULLY E then
    [Log "info" (js "System initialization status: OK");
     Log "info" (js "Available cookies: " ++
                 text_of (VNum (of_Z (Z.of_N (getValidCount E)))))]
  else
    [Log "warn" (js "System initialization status: FAILED");
     Log "warn" (js "Warning: System did not initialize successfully. API calls will fail.");
     Log "warn" (js "Please check if your NOTION_COOKIE is valid.")].

(** The handler of [.catch]. *)
Definition on_rejected : list effect :=
  [Log "fatal" (js "Initialization failed, application cannot start.");
   Exit 1].

(** [initialize().then(...).catch(...)]: [initialize()] resolves or rejects;
    when it resolves, [app.listen] is called, and [.catch] also takes what
    that call throws. *)
Definition start (initialize : unit + exn) (listen : listen_outcome) : list effect :=
  match initialize with
  | inl _ =>
      Listen PORT ::
      match listen with
      | Listening => on_listening
      | Listen_throws _ => on_rejected
      | Listen_pending => []
      end
  | inr _ => on_rejected
  end.

End Configuration.

(** ** Events and connections, for the further properties *)

(** The stream ends or fails: the two events the non-streaming branch
    answers on. *)
Definition terminal (ev : event) : bool :=
  match ev with
  | End | Error _ => true
  | Data _ | Close | Disconnect => false
  end.

(** The request emits [close]. *)
Definition is_close (ev : event) : bool :=
  match ev with
  | Close => true
  | _ => false
  end.

(** The response has been answered with a body. *)
Definition is_answered (c : conn) : bool :=
  match body (res c) with Some _ => headersSent (res c) | None => false end.

(** A listener of the upstream stream has been registered. *)
Definition listening_to_stream (c : conn) : bool :=
  existsb (fun k => match k with Call_stream_on _ | Call_stream_pipe => true | _ => false end)
          (calls c).

(** The text the end listener makes of the array after the chunks
    [chunkStrs]: [chunks.join('')], [None] when the conversion throws. *)
Definition joined (chunkStrs : list jsstring) : option jsstring :=
  join_empty (flat_map pushed chunkStrs).

(** The connection a request that passes every guard leaves behind, in the
    streaming branch and in the non-streaming branch. *)
Definition streaming_conn (data nb : value) : conn :=
  {| res := {| statusCode := 200; headers := stream_headers; body := None;
               written := []; headersSent := false |};
     calls := [Call_getValidCount; Call_buildNotionRequest data;
               Call_streamNotionResponse nb; Call_stream_on "error";
               Call_stream_pipe; Call_req_on "close"];
     waiting := Streaming |}.

Definition aggregating_conn (data nb : value) : conn :=
  {| res := fresh_response;
     calls := [Call_getValidCount; Call_buildNotionRequest data;
               Call_streamNotionResponse nb; Call_stream_on "data";
               Call_stream_on "end"; Call_stream_on "error"];
     waiting := Aggregating data [] |}.

(** The connection [c] once [pipe] has written [chunkStrs] to the response. *)
Definition wrote (c : conn) (chunkStrs : list jsstring) : conn :=
  {| res := {| statusCode := statusCode (res c); headers := headers (res c);
               body := body (res c);
               written := written (res c) ++ chunkStrs;
               headersSent := match chunkStrs with
                              | [] => headersSent (res c)
                              | _ :: _ => true
                              end |};
     calls := calls c;
     waiting := waiting c |}.

(** No code unit of the pattern is white space. *)
Definition solid (q : jsstring) : bool := forallb (fun c => negb (is_trim_space c)) q.

(** A code unit [JSON.stringify] writes as it is, and that is not half of a
    surrogate pair. *)
Definition plain (c : N) : bool :=
  negb (N.ltb c 32) && negb (N.eqb c 34) && negb (N.eqb c 92) &&
  negb (JsonQuote.is_high c) && negb (JsonQuote.is_low c).

(** ** More examples *)

(** The request translator throws. *)
Definition failing_translator_env : env :=
  {| INITIALIZED_SUCCESSFULLY := true;
     getValidCount := 1;
     buildNotionRequest := fun _ => inr (JsError (js "Unsupported model"));
     streamNotionResponse := streamNotionResponse example_env;
     randomUUID := randomUUID example_env;
     created := created example_env |}.

(** The upstream call is rejected. *)
Definition failing_upstream_env : env :=
  {| INITIALIZED_SUCCESSFULLY := true;
     getValidCount := 1;
     buildNotionRequest := buildNotionRequest example_env;
     streamNotionResponse := fun _ => inr (JsError (js "socket hang up"));
     randomUUID := randomUUID example_env;
     created := created example_env |}.

(** Events whose delta contents are a number, a boolean, an object and an
    array. *)
Definition mixed_contents : list jsstring :=
  [qq "data: {'choices':[{'delta':{'content':1.5}}]}";
   qq "data: {'choices':[{'delta':{'content':true}}]}";
   qq "data: {'choices':[{'delta':{'content':{'a':1}}}]}";
   qq "data: {'choices':[{'delta':{'content':['x',null,'y']}}]}"].

(** An event whose delta content is an object with a [toString] key. *)
Definition toString_content : list jsstring :=
  [qq "data: {'choices':[{'delta':{'content':{'toString':1}}}]}"].

(** [PROXY_AUTH_TOKEN] set to [a b]: a secret with a space in it. *)
Definition secret_with_space : option jsstring := Some (js "a b").

(** * Facts *)

(** ** Strings *)

Module JsStringFacts.

Lemma jseqb_spec a b : reflect (a = b) (eqb a b).
Proof.
  revert b; induction a as [|x a IH]; intros [|y b]; simpl;
    try (constructor; congruence).
  destruct (N.eqb_spec x y) as [->|Hxy]; simpl.
  - destruct (IH b) as [->|Hab]; constructor; congruence.
  - constructor; congruence.
Qed.

Lemma startsWith_app p s : startsWith p (p ++ s) = true.
Proof. induction p as [|x p IH]; simpl; [|rewrite N.eqb_refl]; auto. Qed.

Lemma startsWith_inv p s :
  startsWith p s = true -> exists r, s = p ++ r.
Proof.
  revert s; induction p as [|x p IH]; intros s H; simpl in *.
  - now exists s.
  - destruct s as [|y s]; [discriminate|].
    apply andb_prop in H as [Hxy Hp]. apply N.eqb_eq in Hxy as ->.
    destruct (IH _ Hp) as [r ->]. now exists r.
Qed.

Lemma includes_app p a b : includes p (a ++ p ++ b) = true.
Proof.
  induction a as [|x a IH]; simpl.
  - destruct p as [|y p]; simpl; [destruct b; reflexivity|].
    rewrite N.eqb_refl, startsWith_app. reflexivity.
  - rewrite IH. apply orb_true_r.
Qed.

Lemma includes_inv p s :
  includes p s = true -> exists a b, s = a ++ p ++ b.
Proof.
  induction s as [|x s IH]; simpl; intros H.
  - rewrite orb_false_r in H. apply startsWith_inv in H as [r Hr].
    exists [], r. exact Hr.
  - apply orb_prop in H as [H|H].
    + apply startsWith_inv in H as [r Hr]. exists [], r. exact Hr.
    + destruct (IH H) as (a & b & ->). now exists (x :: a), b.
Qed.

End JsStringFacts.

Import JsStringFacts.

(** ** [JSON.parse] never runs out of fuel *)

Module JsonFacts.

Import Json.

Lemma skip_ws_length s : length (skip_ws s) <= length s.
Proof.
  induction s as [|c s IH]; simpl; [lia|].
  destruct (is_ws c); simpl; lia.
Qed.

Lemma starts_length c s rest :
  starts c s = Some rest -> length s = S (length rest).
Proof.
  destruct s as [|c' s']; simpl; [discriminate|].
  destruct (N.eqb c' c); [|discriminate].
  now intros [= ->].
Qed.

Lemma cons_char_inv c r str rest :
  cons_char c r = Some (str, rest) ->
  exists str', r = Some (str', rest) /\ str = c :: str'.
Proof.
  destruct r as [[str' rest']|]; simpl; [|discriminate].
  intros [= <- <-]. now exists str'.
Qed.

Lemma string_chars_length_aux n :
  forall s str rest,
    length s <= n -> string_chars s = Some (str, rest) -> length rest < length s.
Proof.
  induction n as [|n IH]; intros s str rest Hn H.
  - destruct s; [discriminate|simpl in Hn; lia].
  - destruct s as [|c s1]; [discriminate|].
    simpl in Hn. simpl in H.
    destruct (N.eqb c 34).
    { injection H as _ <-. simpl. lia. }
    destruct (N.eqb c 92).
    + destruct s1 as [|e s2]; [discriminate|].
      destruct (simple_escape e).
      * apply cons_char_inv in H as (str' & H & _).
        apply IH in H; simpl in *; lia.
      * destruct (N.eqb e 117); [|discriminate].
        destruct s2 as [|h1 [|h2 [|h3 [|h4 s3]]]]; try discriminate.
        destruct (hex4 h1 h2 h3 h4); [|discriminate].
        apply cons_char_inv in H as (str' & H & _).
        apply IH in H; simpl in *; lia.
    + destruct (N.ltb c 32); [discriminate|].
      apply cons_char_inv in H as (str' & H & _).
      apply IH in H; simpl in *; lia.
Qed.

Lemma string_chars_length s str rest :
  string_chars s = Some (str, rest) -> length rest < length s.
Proof. apply (string_chars_length_aux (n := length s)); lia. Qed.

Lemma take_digits_length s ds rest :
  take_digits s = (ds, rest) -> length rest <= length s.
Proof.
  revert ds rest; induction s as [|c s IH]; simpl; intros ds rest H.
  - injection H as _ <-. simpl; lia.
  - destruct (is_digit c).
    + destruct (take_digits s) as [ds' rest'] eqn:Ht.
      injection H as _ <-. specialize (IH _ _ eq_refl). lia.
    + injection H as _ <-. simpl; lia.
Qed.

Lemma take_digits1_length s ds rest :
  take_digits1 s = Some (ds, rest) -> length rest <= length s.
Proof.
  unfold take_digits1. destruct (take_digits s) as [ds' rest'] eqn:Ht.
  destruct ds'; [discriminate|]. intros [= _ <-].
  eapply take_digits_length; eauto.
Qed.

Lemma number_literal_length s x rest :
  number_literal s = Some (x, rest) -> length rest <= length s.
Proof.
  unfold number_literal, sign, int_part, frac_part, exp_part.
  intros H.
  repeat match type of H with
  | context [starts ?c ?t] =>
      let E := fresh "E" in
      destruct (starts c t) eqn:E; [apply starts_length in E|]
  | context [take_digits1 ?t] =>
      let E := fresh "E" in
      destruct (take_digits1 t) as [[? ?]|] eqn:E;
        [apply take_digits1_length in E|]
  end;
  try discriminate; injection H as _ <-; simpl in *; lia.
Qed.

Lemma keyword_length k v s a rest :
  keyword k v s = Parsed a rest -> length rest <= length s.
Proof.
  unfold keyword. destruct (startsWith k s); [|discriminate].
  intros [= _ <-]. rewrite length_skipn. lia.
Qed.

Lemma map_result_Parsed {A B} (f : A -> B) r b rest :
  map_result f r = Parsed b rest -> exists a, r = Parsed a rest /\ b = f a.
Proof.
  destruct r; simpl; try discriminate. intros [= <- <-]. eauto.
Qed.

Lemma map_result_OutOfFuel {A B} (f : A -> B) r :
  map_result f r = OutOfFuel -> r = OutOfFuel.
Proof. destruct r; simpl; congruence. Qed.

(** Whatever is parsed, the rest is a suffix no longer than the input. *)
Lemma parse_length fuel :
  (forall s v rest, parse_value fuel s = Parsed v rest -> length rest <= length s) /\
  (forall s vs rest, parse_elements fuel s = Parsed vs rest -> length rest <= length s) /\
  (forall s ps rest, parse_members fuel s = Parsed ps rest -> length rest <= length s).
Proof.
  induction fuel as [|fuel (IHv & IHe & IHm)];
    [repeat split; intros; discriminate|].
  repeat split; intros s a rest H; simpl in H.
  - pose proof (skip_ws_length s) as Hs.
    destruct (skip_ws s) as [|c r]; [discriminate|].
    simpl in Hs.
    destruct (opening_of c).
    + apply keyword_length in H. simpl in H. lia.
    + apply keyword_length in H. simpl in H. lia.
    + apply keyword_length in H. simpl in H. lia.
    + destruct (string_chars r) as [[str rest']|] eqn:Hc; [|discriminate].
      injection H as _ <-. apply string_chars_length in Hc. lia.
    + pose proof (skip_ws_length r) as Hr.
      destruct (starts 93 (skip_ws r)) eqn:Hb.
      * injection H as _ <-. apply starts_length in Hb. lia.
      * apply map_result_Parsed in H as (vs & H & _). apply IHe in H. lia.
    + pose proof (skip_ws_length r) as Hr.
      destruct (starts 125 (skip_ws r)) eqn:Hb.
      * injection H as _ <-. apply starts_length in Hb. lia.
      * apply map_result_Parsed in H as (vs & H & _). apply IHm in H. lia.
    + destruct (number_literal (c :: r)) as [[x rest']|] eqn:Hn; [|discriminate].
      injection H as _ <-. apply number_literal_length in Hn. simpl in Hn. lia.
  - destruct (parse_value fuel s) as [v r| |] eqn:Hv; try discriminate.
    apply IHv in Hv. pose proof (skip_ws_length r) as Hr.
    destruct (starts 93 (skip_ws r)) eqn:Hb.
    + injection H as _ <-. apply starts_length in Hb. lia.
    + destruct (starts 44 (skip_ws r)) eqn:Hc; [|discriminate].
      apply starts_length in Hc.
      apply map_result_Parsed in H as (vs & H & _). apply IHe in H. lia.
  - pose proof (skip_ws_length s) as Hs.
    destruct (starts 34 (skip_ws s)) as [r|] eqn:Hq; [|discriminate].
    apply starts_length in Hq.
    destruct (string_chars r) as [[k r1]|] eqn:Hk; [|discriminate].
    apply string_chars_length in Hk. pose proof (skip_ws_length r1) as Hr1.
    destruct (starts 58 (skip_ws r1)) as [r2|] eqn:Hcol; [|discriminate].
    apply starts_length in Hcol.
    destruct (parse_value fuel r2) as [v r3| |] eqn:Hv; try discriminate.
    apply IHv in Hv. pose proof (skip_ws_length r3) as Hr3.
    destruct (starts 125 (skip_ws r3)) eqn:Hb.
    + injection H as _ <-. apply starts_length in Hb. lia.
    + destruct (starts 44 (skip_ws r3)) eqn:Hc; [|discriminate].
      apply starts_length in Hc.
      apply map_result_Parsed in H as (vs & H & _). apply IHm in H. lia.
Qed.

(** Twice the length of the input, and a little, is fuel enough. *)
Lemma parse_fuel fuel :
  (forall s, 2 * length s < fuel -> parse_value fuel s <> OutOfFuel) /\
  (forall s, 2 * length s + 1 < fuel -> parse_elements fuel s <> OutOfFuel) /\
  (forall s, 2 * length s + 1 < fuel -> parse_members fuel s <> OutOfFuel).
Proof.
  induction fuel as [|fuel (IHv & IHe & IHm)];
    [repeat split; intros; lia|].
  destruct (parse_length fuel) as (Lv & Le & Lm).
  repeat split; intros s Hf H; simpl in H.
  - pose proof (skip_ws_length s) as Hs.
    destruct (skip_ws s) as [|c r]; [discriminate|].
    simpl in Hs.
    destruct (opening_of c).
    + unfold keyword in H. destruct (startsWith _ _); discriminate.
    + unfold keyword in H. destruct (startsWith _ _); discriminate.
    + unfold keyword in H. destruct (startsWith _ _); discriminate.
    + destruct (string_chars r) as [[? ?]|]; discriminate.
    + destruct (starts 93 (skip_ws r)); [discriminate|].
      apply map_result_OutOfFuel in H. revert H. apply IHe. lia.
    + destruct (starts 125 (skip_ws r)); [discriminate|].
      apply map_result_OutOfFuel in H. revert H. apply IHm. lia.
    + destruct (number_literal (c :: r)) as [[? ?]|]; discriminate.
  - destruct (parse_value fuel s) as [v r| |] eqn:Hv; try discriminate.
    + apply Lv in Hv. pose proof (skip_ws_length r) as Hr.
      destruct (starts 93 (skip_ws r)); [discriminate|].
      destruct (starts 44 (skip_ws r)) eqn:Hc; [|discriminate].
      apply starts_length in Hc.
      apply map_result_OutOfFuel in H. revert H. apply IHe. lia.
    + revert Hv. apply IHv. lia.
  - pose proof (skip_ws_length s) as Hs.
    destruct (starts 34 (skip_ws s)) as [r|] eqn:Hq; [|discriminate].
    apply starts_length in Hq.
    destruct (string_chars r) as [[k r1]|] eqn:Hk; [|discriminate].
    apply string_chars_length in Hk. pose proof (skip_ws_length r1) as Hr1.
    destruct (starts 58 (skip_ws r1)) as [r2|] eqn:Hcol; [|discriminate].
    apply starts_length in Hcol.
    destruct (parse_value fuel r2) as [v r3| |] eqn:Hv; try discriminate.
    + apply Lv in Hv. pose proof (skip_ws_length r3) as Hr3.
      destruct (starts 125 (skip_ws r3)); [discriminate|].
      destruct (starts 44 (skip_ws r3)) eqn:Hc; [|discriminate].
      apply starts_length in Hc.
      apply map_result_OutOfFuel in H. revert H. apply IHm. lia.
    + revert Hv. apply IHv. lia.
Qed.

(** [parse] returns [None] only for a syntax error: the recursion of
    [parse_value] always ends within [fuel_for text]. *)
Lemma parse_total text : parse_value (fuel_for text) text <> OutOfFuel.
Proof.
  apply (proj1 (parse_fuel (fuel_for text))). unfold fuel_for. lia.
Qed.

End JsonFacts.

(** ** [JSON.parse] reads back what [JSON.stringify] writes *)

Module QuoteFacts.

Import Json JsonQuote.

Lemma hex_digit_char d : (d < 16)%N -> hex_digit (hex_char d) = Some d.
Proof.
  intros H. unfold hex_char, hex_digit.
  destruct (N.ltb_spec d 10).
  - replace ((48 <=? 48 + d) && (48 + d <=? 57))%N with true.
    + f_equal. lia.
    + symmetry. apply andb_true_intro. split; apply N.leb_le; lia.
  - replace ((48 <=? 87 + d) && (87 + d <=? 57))%N with false.
    + replace ((65 <=? 87 + d) && (87 + d <=? 70))%N with false.
      * replace ((97 <=? 87 + d) && (87 + d <=? 102))%N with true.
        -- f_equal. lia.
        -- symmetry. apply andb_true_intro. split; apply N.leb_le; lia.
      * symmetry. apply andb_false_intro2. apply N.leb_gt. lia.
    + symmetry. apply andb_false_intro2. apply N.leb_gt. lia.
Qed.

Lemma hex4_escape c :
  (c < 65536)%N ->
  hex4 (hex_char (c / 4096)) (hex_char ((c / 256) mod 16))
       (hex_char ((c / 16) mod 16)) (hex_char (c mod 16)) = Some c.
Proof.
  intros H. unfold hex4.
  rewrite !hex_digit_char.
  - f_equal.
    replace (c / 4096)%N with (c / 16 / 16 / 16)%N
      by (now rewrite !N.Div0.div_div).
    replace (c / 256)%N with (c / 16 / 16)%N by (now rewrite !N.Div0.div_div).
    assert (Hd : (c / 16 / 16 / 16 < 16)%N)
      by (do 3 apply N.Div0.div_lt_upper_bound; lia).
    pose proof (N.div_mod c 16 ltac:(lia)) as H0.
    pose proof (N.div_mod (c / 16) 16 ltac:(lia)) as H1.
    pose proof (N.div_mod (c / 16 / 16) 16 ltac:(lia)) as H2.
    set (a := (c / 16)%N) in *. set (r0 := (c mod 16)%N) in *.
    set (b := (a / 16)%N) in *. set (r1 := (a mod 16)%N) in *.
    set (d := (b / 16)%N) in *. set (r2 := (b mod 16)%N) in *.
    clearbody d r2. clearbody b r1. clearbody a r0. lia.
  - apply N.mod_lt; lia.
  - apply N.mod_lt; lia.
  - apply N.mod_lt; lia.
  - apply N.Div0.div_lt_upper_bound; lia.
Qed.

Lemma string_chars_verbatim c tail :
  N.eqb c 34 = false -> N.eqb c 92 = false -> N.ltb c 32 = false ->
  string_chars (c :: tail) = cons_char c (string_chars tail).
Proof. intros H1 H2 H3. simpl. now rewrite H1, H2, H3. Qed.

Lemma string_chars_unicode_escape c tail :
  (c < 65536)%N ->
  string_chars (unicode_escape c ++ tail) = cons_char c (string_chars tail).
Proof.
  intros H. unfold unicode_escape.
  cbn [app string_chars N.eqb Pos.eqb simple_escape].
  now rewrite (@hex4_escape _ H).
Qed.

Lemma surrogate_verbatim c :
  is_high c = true \/ is_low c = true ->
  N.eqb c 34 = false /\ N.eqb c 92 = false /\ N.ltb c 32 = false.
Proof.
  unfold is_high, is_low. intros [H|H]; apply andb_prop in H as [H1 H2];
    apply N.leb_le in H1, H2; repeat split;
    try (apply N.eqb_neq; lia); apply N.ltb_ge; lia.
Qed.

Lemma string_chars_quote_unit c tail :
  (c < 65536)%N ->
  string_chars (quote_unit c ++ tail) = cons_char c (string_chars tail).
Proof.
  intros H. unfold quote_unit.
  destruct (N.eqb_spec c 8) as [->|]; [reflexivity|].
  destruct (N.eqb_spec c 9) as [->|]; [reflexivity|].
  destruct (N.eqb_spec c 10) as [->|]; [reflexivity|].
  destruct (N.eqb_spec c 12) as [->|]; [reflexivity|].
  destruct (N.eqb_spec c 13) as [->|]; [reflexivity|].
  destruct (N.eqb_spec c 34) as [->|]; [reflexivity|].
  destruct (N.eqb_spec c 92) as [->|]; [reflexivity|].
  destruct (N.ltb c 32) eqn:Hlt.
  - now apply string_chars_unicode_escape.
  - apply string_chars_verbatim; auto; now apply N.eqb_neq.
Qed.

(** [JSON.parse] reads back the string that [JSON.stringify] wrote. *)
Lemma string_chars_quote_aux n :
  forall s rest,
    length s <= n -> code_units s ->
    string_chars (quote_chars s ++ 34%N :: rest) = Some (s, rest).
Proof.
  induction n as [|n IH]; intros s rest Hn Hs.
  - destruct s; [reflexivity|simpl in Hn; lia].
  - destruct s as [|c t]; [reflexivity|].
    inversion Hs as [|? ? Hc Ht]; subst. simpl in Hn.
    assert (Hrest : string_chars (quote_chars t ++ 34%N :: rest) = Some (t, rest))
      by (apply IH; [lia|assumption]).
    cbn [quote_chars].
    destruct (is_high c) eqn:Hh.
    + destruct t as [|d t'].
      * rewrite string_chars_unicode_escape by assumption.
        cbn [app]. cbn [string_chars N.eqb]. reflexivity.
      * destruct (is_low d) eqn:Hl.
        -- inversion Ht as [|? ? Hd Ht']; subst.
           destruct (surrogate_verbatim c (or_introl Hh)) as (A1 & A2 & A3).
           destruct (surrogate_verbatim d (or_intror Hl)) as (B1 & B2 & B3).
           cbn [app].
           rewrite (@string_chars_verbatim _ _ A1 A2 A3).
           rewrite (@string_chars_verbatim _ _ B1 B2 B3).
           rewrite IH; [reflexivity|simpl in Hn; lia|assumption].
        -- rewrite <- app_assoc.
           rewrite string_chars_unicode_escape by assumption.
           now rewrite Hrest.
    + destruct (is_low c) eqn:Hl.
      * rewrite <- app_assoc.
        rewrite string_chars_unicode_escape by assumption.
        now rewrite Hrest.
      * rewrite <- app_assoc.
        rewrite string_chars_quote_unit by assumption.
        now rewrite Hrest.
Qed.

Lemma string_chars_quote s rest :
  code_units s ->
  string_chars (quote_chars s ++ 34%N :: rest) = Some (s, rest).
Proof. apply (string_chars_quote_aux (n := length s)). lia. Qed.

Lemma map_result_not_OutOfFuel {A B} (f : A -> B) r :
  map_result f r <> OutOfFuel -> r <> OutOfFuel.
Proof. destruct r; simpl; congruence. Qed.

(** Once the fuel is enough, more fuel changes nothing. *)
Lemma parse_more_fuel f :
  (forall s f', f <= f' -> parse_value f s <> OutOfFuel ->
                parse_value f' s = parse_value f s) /\
  (forall s f', f <= f' -> parse_elements f s <> OutOfFuel ->
                parse_elements f' s = parse_elements f s) /\
  (forall s f', f <= f' -> parse_members f s <> OutOfFuel ->
                parse_members f' s = parse_members f s).
Proof.
  induction f as [|f (IHv & IHe & IHm)];
    [repeat split; intros s f' _ H; now contradiction H|].
  repeat split; intros s f' Hf H;
    (destruct f' as [|f']; [lia|]); apply le_S_n in Hf; simpl in H |- *.
  - destruct (skip_ws s) as [|c t]; [reflexivity|].
    destruct (opening_of c); try reflexivity.
    + destruct (starts 93 (skip_ws t)); [reflexivity|].
      apply map_result_not_OutOfFuel in H. now rewrite (IHe _ _ Hf H).
    + destruct (starts 125 (skip_ws t)); [reflexivity|].
      apply map_result_not_OutOfFuel in H. now rewrite (IHm _ _ Hf H).
  - assert (Hv : parse_value f s <> OutOfFuel)
      by (intros E; rewrite E in H; now apply H).
    rewrite (IHv _ _ Hf Hv).
    destruct (parse_value f s) as [v t| |]; try reflexivity.
    destruct (starts 93 (skip_ws t)); [reflexivity|].
    destruct (starts 44 (skip_ws t)); [|reflexivity].
    apply map_result_not_OutOfFuel in H. now rewrite (IHe _ _ Hf H).
  - destruct (starts 34 (skip_ws s)) as [t|]; [|reflexivity].
    destruct (string_chars t) as [[k t1]|]; [|reflexivity].
    destruct (starts 58 (skip_ws t1)) as [t2|]; [|reflexivity].
    assert (Hv : parse_value f t2 <> OutOfFuel)
      by (intros E; rewrite E in H; now apply H).
    rewrite (IHv _ _ Hf Hv).
    destruct (parse_value f t2) as [v t3| |]; try reflexivity.
    destruct (starts 125 (skip_ws t3)); [reflexivity|].
    destruct (starts 44 (skip_ws t3)); [|reflexivity].
    apply map_result_not_OutOfFuel in H. now rewrite (IHm _ _ Hf H).
Qed.

(** A text parsed with some fuel is parsed by [parse]. *)
Lemma parse_with_fuel f text v :
  parse_value f text = Parsed v [] -> parse text = Some v.
Proof.
  intros H. unfold parse.
  assert (E : parse_value (fuel_for text) text = Parsed v []).
  { destruct (Nat.le_gt_cases f (fuel_for text)) as [Hle|Hgt].
    - rewrite (proj1 (parse_more_fuel f) _ _ Hle); [exact H|].
      rewrite H. discriminate.
    - rewrite <- H. symmetry.
      apply (proj1 (parse_more_fuel (fuel_for text))); [lia|].
      apply JsonFacts.parse_total. }
  now rewrite E.
Qed.

Lemma quote_chars_cons c rest :
  quote_chars (c :: rest) =
  if is_high c then
    match rest with
    | d :: rest' =>
        if is_low d then c :: d :: quote_chars rest'
        else unicode_escape c ++ quote_chars rest
    | [] => unicode_escape c
    end
  else if is_low c then unicode_escape c ++ quote_chars rest
  else quote_unit c ++ quote_chars rest.
Proof. reflexivity. Qed.

(** Quoting goes through a concatenation whose second part does not start
    with the low half of a pair. *)
Lemma quote_chars_app_aux n :
  forall a x t,
    length a <= n -> is_low x = false ->
    quote_chars (a ++ x :: t) = quote_chars a ++ quote_chars (x :: t).
Proof.
  induction n as [|n IH]; intros a x t Hn Hx.
  - destruct a; [reflexivity|simpl in Hn; lia].
  - destruct a as [|c a]; [reflexivity|]. simpl in Hn.
    change ((c :: a) ++ x :: t) with (c :: (a ++ x :: t)).
    rewrite (quote_chars_cons c (a ++ x :: t)), (quote_chars_cons c a).
    destruct (is_high c).
    + destruct a as [|d a'].
      * cbn [app]. now rewrite Hx.
      * change ((d :: a') ++ x :: t) with (d :: (a' ++ x :: t)).
        cbv beta iota. destruct (is_low d).
        -- rewrite (IH a' x t); [reflexivity|simpl in Hn; lia|assumption].
        -- rewrite <- app_assoc. f_equal.
           apply (IH (d :: a')); [lia|assumption].
    + destruct (is_low c); rewrite <- app_assoc; f_equal; apply IH;
        lia || assumption.
Qed.

Lemma quote_chars_app a x t :
  is_low x = false ->
  quote_chars (a ++ x :: t) = quote_chars a ++ quote_chars (x :: t).
Proof. apply (quote_chars_app_aux (n := length a)). lia. Qed.

(** The sentinel text in a string is still there once the string is quoted. *)
Lemma includes_quote_chars s :
  includes (js "[DONE]") s = true ->
  includes (js "[DONE]") (quote_chars s) = true.
Proof.
  intros H. apply includes_inv in H as (a & b & ->).
  change (js "[DONE]" ++ b) with (91%N :: js "DONE]" ++ b).
  rewrite quote_chars_app by reflexivity.
  change (quote_chars (91%N :: js "DONE]" ++ b))
    with (js "[DONE]" ++ quote_chars b).
  apply includes_app.
Qed.

Lemma trimStart_spaces ws s :
  forallb is_trim_space ws = true -> trimStart (ws ++ s) = trimStart s.
Proof.
  induction ws as [|c ws IH]; simpl; intros H; [reflexivity|].
  apply andb_prop in H as [-> H]. auto.
Qed.

Lemma trimEnd_spaces s c ws :
  is_trim_space c = false -> forallb is_trim_space ws = true ->
  trimEnd ((s ++ [c]) ++ ws) = s ++ [c].
Proof.
  intros Hc Hws. unfold trimEnd.
  rewrite !rev_app_distr. cbn [rev app].
  rewrite trimStart_spaces.
  - cbn [trimStart]. rewrite Hc. cbn [rev]. now rewrite rev_involutive.
  - rewrite forallb_forall in *. intros x Hx. apply Hws. now apply in_rev.
Qed.

Lemma substring_prefix p s : substring (length p) (p ++ s) = s.
Proof. induction p as [|c p IH]; [reflexivity|exact IH]. Qed.

(** The payload the listener cuts out of a delta event. *)
Lemma delta_event_payload content :
  trim (substring 6 (delta_event content)) =
  qq "{'choices':[{'delta':{'content':" ++ stringify_string content ++ qq "}}]}".
Proof.
  unfold delta_event.
  change 6 with (length (js "data: ")). rewrite substring_prefix.
  unfold trim.
  change (qq "{'choices':[{'delta':{'content':")
    with (123%N :: tl (qq "{'choices':[{'delta':{'content':")).
  cbn [app trimStart]. change (is_trim_space 123) with false. cbv iota.
  change (qq "}}]}") with (qq "}}]" ++ [125%N]).
  set (P := tl (qq "{'choices':[{'delta':{'content':")).
  replace (123%N :: P ++ stringify_string content ++ (qq "}}]" ++ [125%N]) ++ [10%N; 10%N])
    with (((123%N :: P ++ stringify_string content ++ qq "}}]") ++ [125%N]) ++ [10%N; 10%N]).
  - rewrite trimEnd_spaces by reflexivity.
    cbn [app]. now rewrite <- !app_assoc.
  - cbn [app]. now rewrite <- !app_assoc.
Qed.

(** [JSON.parse] reads the chunk object back. *)
Lemma delta_event_parse content :
  code_units content ->
  parse (qq "{'choices':[{'delta':{'content':" ++ stringify_string content ++ qq "}}]}") =
  Some (VObj [(js "choices",
               VArr [VObj [(js "delta", VObj [(js "content", VStr content)])]])]).
Proof.
  intros Hc. apply (parse_with_fuel 12).
  unfold stringify_string.
  cbn -[quote_chars].
  rewrite <- app_assoc. cbn [app].
  rewrite (string_chars_quote _ Hc).
  reflexivity.
Qed.

End QuoteFacts.

(** ** The response *)

Module ResponseFacts.

(** [res.status(code).json(v)] on a response that can take it. *)
Lemma status_json_answers code v c :
  headersSent (res c) = false -> has_media_type (res c) = true ->
  (res_status code ;;; res_json v)%js c = (inl tt, answered_with c code v).
Proof.
  intros Hs Hm. unfold bind, res_status, res_json, update_res.
  cbn [res]. unfold has_media_type in *. cbn [headers headersSent].
  rewrite Hm, Hs. reflexivity.
Qed.

Lemma no_Content_Type_has_media_type r :
  getHeader (js "Content-Type") (headers r) = None -> has_media_type r = true.
Proof. unfold has_media_type. now intros ->. Qed.

End ResponseFacts.

Import ResponseFacts.

(** ** Authentication *)

Module AuthFacts.

Lemma split_not_nil sep s : split sep s <> [].
Proof.
  destruct s as [|c s]; simpl; [discriminate|].
  destruct (N.eqb c sep); [discriminate|].
  destruct (split sep s); discriminate.
Qed.

(** A field holds no separator. *)
Lemma split_fields sep s : Forall (fun f => ~ In sep f) (split sep s).
Proof.
  induction s as [|c s IH]; simpl.
  - constructor; [intros []|constructor].
  - destruct (N.eqb_spec c sep) as [->|Hc].
    + constructor; [intros []|exact IH].
    + destruct (split sep s) as [|f fs]; inversion IH; subst;
        constructor; auto; intros [H|H]; auto; contradiction.
Qed.

Lemma split_app sep p t :
  ~ In sep p -> split sep (p ++ sep :: t) = p :: split sep t.
Proof.
  induction p as [|c p IH]; simpl; intros Hp.
  - now rewrite N.eqb_refl.
  - destruct (N.eqb_spec c sep) as [->|Hc]; [exfalso; auto|].
    rewrite IH by tauto. reflexivity.
Qed.

Lemma split_no_sep sep p : ~ In sep p -> split sep p = [p].
Proof.
  induction p as [|c p IH]; simpl; intros Hp; [reflexivity|].
  destruct (N.eqb_spec c sep) as [->|Hc]; [exfalso; auto|].
  rewrite IH by tauto. reflexivity.
Qed.

(** The first field is the secret exactly when the text is the secret,
    alone or followed by a space. *)
Lemma first_field_is sep secret t :
  ~ In sep secret ->
  (hd_error (split sep t) = Some secret <->
   t = secret \/ exists r, t = secret ++ sep :: r).
Proof.
  intros Hs. split.
  - revert secret Hs. induction t as [|c t IH]; simpl; intros secret Hs H.
    + injection H as <-. now left.
    + destruct (N.eqb_spec c sep) as [->|Hc].
      * injection H as <-. right. now exists t.
      * destruct (split sep t) as [|f fs] eqn:Ht;
          [now destruct (split_not_nil sep t)|].
        injection H as <-.
        destruct (IH f) as [->|[r ->]].
        { intros Hin. apply Hs. now right. }
        { reflexivity. }
        { now left. }
        { right. now exists r. }
  - intros [->|[r ->]].
    + now rewrite split_no_sep.
    + now rewrite split_app.
Qed.

Lemma token_of_Bearer t :
  token_of (js "Bearer " ++ t) = hd_error (split 32 t).
Proof.
  unfold token_of.
  change (js "Bearer " ++ t) with (js "Bearer" ++ 32%N :: t).
  rewrite split_app.
  - simpl. now destruct (split 32 t).
  - vm_compute. intuition discriminate.
Qed.

Lemma token_of_no_space h token :
  token_of h = Some token -> ~ In 32%N token.
Proof.
  unfold token_of. intros H. apply nth_error_In in H.
  pose proof (split_fields 32 h) as F. rewrite Forall_forall in F. auto.
Qed.

(** What [authenticate] does, case by case. *)
Lemma authenticate_cases P h c :
  headersSent (res c) = false ->
  has_media_type (res c) = true ->
  authenticate P h c =
    if rejected (EXPECTED_TOKEN P) h then
      (inl false,
       answered_with c 401
         (match h with
          | Some s => if startsWith (js "Bearer ") s then auth_invalid else auth_required
          | None => auth_required
          end))
    else (inl true, c).
Proof.
  intros Hs Hm.
  assert (R : forall v,
            (res_status 401 ;;; res_json v ;;; ret false)%js c =
            (inl false, answered_with c 401 v)).
  { intros v. pose proof (status_json_answers 401 v c Hs Hm) as H.
    unfold bind in *. destruct (res_status 401 c) as [[[]|e] c1]; [|discriminate].
    now rewrite H. }
  destruct h as [[|x h]|]; try apply R.
  unfold authenticate, rejected, token_differs.
  destruct (startsWith (js "Bearer ") (x :: h)); cbn [negb orb]; [|apply R].
  destruct (token_of (x :: h)) as [t|]; [|apply R].
  destruct (JsString.eqb t (EXPECTED_TOKEN P)); cbn [negb]; [reflexivity|apply R].
Qed.

Lemma authenticate_true_iff P h c :
  fst (authenticate P h c) = inl true <-> rejected (EXPECTED_TOKEN P) h = false.
Proof.
  assert (R : forall v, fst ((res_status 401 ;;; res_json v ;;; ret false) c) <> inl true).
  { intros v. unfold bind, res_status, res_json, update_res, ret, throw. simpl.
    destruct (has_media_type _); simpl; [|discriminate].
    destruct (headersSent (res c)); simpl; discriminate. }
  unfold authenticate, rejected, token_differs.
  destruct h as [[|x h]|].
  - split; [intros H; now apply R in H|discriminate].
  - destruct (startsWith (js "Bearer ") (x :: h)); cbn [negb orb].
    + destruct (token_of (x :: h)) as [t|].
      * destruct (JsString.eqb t (EXPECTED_TOKEN P)); cbn [negb].
        -- split; reflexivity.
        -- split; [intros H; now apply R in H|discriminate].
      * split; [intros H; now apply R in H|discriminate].
    + split; [intros H; now apply R in H|discriminate].
  - split; [intros H; now apply R in H|discriminate].
Qed.

Lemma rejected_false_iff secret h :
  rejected secret h = false <->
  exists s, h = Some s /\ startsWith (js "Bearer ") s = true /\ token_of s = Some secret.
Proof.
  unfold rejected. destruct h as [s|].
  - destruct (startsWith (js "Bearer ") s) eqn:Hb; cbn [negb orb].
    + destruct (token_of s) as [t|] eqn:Ht.
      * destruct (jseqb_spec t secret) as [->|Hne]; cbn [negb].
        -- split; [intros _; exists s; auto|reflexivity].
        -- split; [discriminate|].
           intros (s' & [= <-] & _ & Ht'). congruence.
      * split; [discriminate|]. intros (s' & [= <-] & _ & Ht'). congruence.
    + split; [discriminate|]. intros (s' & [= <-] & Hb' & _). congruence.
  - split; [discriminate|]. intros (s' & Hs & _). discriminate.
Qed.

End AuthFacts.

(** ** The handler, guard by guard *)

Module HandlerFacts.

Lemma get_not_nullish k v :
  is_nullish v = false -> exists x, get k v = inl x.
Proof. destruct v; simpl; intros H; try discriminate; eauto. Qed.

Lemma get_nullish k v :
  is_nullish v = true -> get k v = inr (cannot_read v k).
Proof. destruct v; simpl; intros H; try discriminate; reflexivity. Qed.

(** The handler's test on [messages] is the negation of [has_messages]. *)
Lemma messages_check body m :
  get (js "messages") body = inl m ->
  negb (truthy m) || negb (isArray m) || length_is_zero m = negb (has_messages body).
Proof.
  intros H. unfold has_messages. rewrite H.
  destruct m as [| | b | x | s | [|v l] | ps]; try reflexivity.
  - destruct b; reflexivity.
  - simpl. destruct (JsNumber.truthy x); reflexivity.
  - destruct s; reflexivity.
Qed.

Lemma wants_stream_get body s :
  get (js "stream") body = inl s -> wants_stream body = truthy s.
Proof. intros H. unfold wants_stream. now rewrite H. Qed.

Lemma text_event_stream_no_media_type :
  media_type (js "text-event-stream") = false.
Proof. reflexivity. Qed.

(** Under the streaming headers [res.json] throws. *)
Lemma status_json_throws code v c :
  getHeader (js "Content-Type") (headers (res c)) = Some (js "text-event-stream") ->
  (res_status code ;;; res_json v)%js c = (inr invalid_media_type, status_set c code).
Proof.
  intros H. unfold bind, res_status, res_json, update_res.
  cbn [res]. unfold has_media_type. cbn [headers].
  rewrite H, text_event_stream_no_media_type. reflexivity.
Qed.

(** A streaming request that passes the guards and the translator: the
    headers are set, then the upstream call decides. *)
Lemma chat_completions_streaming E data nb c :
  headersSent (res c) = false ->
  INITIALIZED_SUCCESSFULLY E = true ->
  N.eqb (getValidCount E) 0 = false ->
  has_messages data = true ->
  buildNotionRequest E data = inl nb ->
  wants_stream data = true ->
  chat_completions E data c =
    let c3 := called (with_headers (called c [Call_getValidCount;
                                              Call_buildNotionRequest data])
                                   stream_headers)
                     [Call_streamNotionResponse nb] in
    match streamNotionResponse E nb with
    | inr e => (inr invalid_media_type, status_set c3 500)
    | inl _ =>
        (inl tt,
         now_waiting
           (called c3 [Call_stream_on "error"; Call_stream_pipe; Call_req_on "close"])
           Streaming)
    end.
Proof.
  intros Hs Hi Hn Hmsg Hb Hw.
  destruct c as [[st hs b w sent] ks ph]. cbn in Hs. subst sent.
  assert (Hnull : is_nullish data = false)
    by (destruct data; try reflexivity; discriminate).
  unfold chat_completions, try_catch, bind, called, with_headers, now_waiting,
    status_set.
  rewrite Hi, Hn. cbn [negb record res calls waiting].
  destruct (get_not_nullish (js "model") _ Hnull) as [m1 ->].
  destruct (get_not_nullish (js "stream") _ Hnull) as [s1 Hstream].
  destruct (get_not_nullish (js "messages") _ Hnull) as [m Hm].
  cbn [lift ret]. rewrite Hstream. cbn [lift ret]. rewrite Hm. cbn [lift ret].
  rewrite (messages_check _ Hm), Hmsg. cbn [negb record res calls waiting].
  rewrite Hb. cbn [lift ret throw].
  rewrite <- (wants_stream_get _ Hstream), Hw.
  cbv [res_setHeader update_res].
  cbn [record res calls waiting headersSent statusCode headers body written].
  destruct (streamNotionResponse E nb) as [[]|e]; cbn [lift ret throw].
  - cbv [wait_for]. cbn [res calls waiting]. rewrite <- !app_assoc. reflexivity.
  - unfold res_headersSent. cbn [res headersSent negb].
    unfold res_status, res_json, update_res, has_media_type.
    cbn [res headers headersSent statusCode body written calls waiting].
    rewrite <- !app_assoc. reflexivity.
Qed.

Lemma has_messages_not_nullish data :
  has_messages data = true -> is_nullish data = false.
Proof. destruct data; simpl; intros H; try discriminate; reflexivity. Qed.

Ltac answers Hmt :=
  unfold res_headersSent, res_status, res_json, update_res, has_media_type;
  cbn [res headers headersSent statusCode body written calls waiting negb
       lift ret throw];
  rewrite ?Hmt;
  cbn [res headers headersSent statusCode body written calls waiting negb throw];
  rewrite <- ?app_assoc; reflexivity.

(** The request translator throws: the handler answers 500. *)
Lemma chat_completions_translator_throws E data e c :
  headersSent (res c) = false ->
  has_media_type (res c) = true ->
  INITIALIZED_SUCCESSFULLY E = true ->
  N.eqb (getValidCount E) 0 = false ->
  has_messages data = true ->
  buildNotionRequest E data = inr e ->
  chat_completions E data c =
    (inl tt,
     answered_with (called (called c [Call_getValidCount]) [Call_buildNotionRequest data])
       500 (internal_error e)).
Proof.
  intros Hs Hmt Hi Hn Hmsg Hb.
  destruct c as [[st hs b w sent] ks ph]. cbn in Hs. subst sent.
  unfold has_media_type in Hmt. cbn [res headers] in Hmt.
  pose proof (has_messages_not_nullish _ Hmsg) as Hnull.
  unfold chat_completions, try_catch, bind, called, answered_with.
  rewrite Hi, Hn. cbn [negb record res calls waiting].
  destruct (get_not_nullish (js "model") _ Hnull) as [m1 ->].
  destruct (get_not_nullish (js "stream") _ Hnull) as [s1 Hstream].
  destruct (get_not_nullish (js "messages") _ Hnull) as [m Hm].
  cbn [lift ret]. rewrite Hstream. cbn [lift ret]. rewrite Hm. cbn [lift ret].
  rewrite (messages_check _ Hm), Hmsg. cbn [negb record res calls waiting].
  rewrite Hb. cbn [lift ret throw]. answers Hmt.
Qed.

(** The handler as a decision list: which guard stops the request, what
    has been called by then, and what the connection waits for.  In one
    case the handler throws: a streaming request whose upstream call is
    rejected, when the [catch] block calls [res.json] under the streaming
    headers. *)
Lemma chat_completions_cases E data c :
  headersSent (res c) = false ->
  has_media_type (res c) = true ->
  chat_completions E data c =
    if negb (INITIALIZED_SUCCESSFULLY E) then
      (inl tt, answered_with c 500 not_initialized)
    else
      let c1 := called c [Call_getValidCount] in
      if N.eqb (getValidCount E) 0 then
        (inl tt, answered_with c1 500 no_valid_cookies)
      else if is_nullish data then
        (inl tt, answered_with c1 500 (internal_error (cannot_read data (js "model"))))
      else if negb (has_messages data) then
        (inl tt, answered_with c1 400 invalid_messages)
      else
        let c2 := called c1 [Call_buildNotionRequest data] in
        match buildNotionRequest E data with
        | inr e => (inl tt, answered_with c2 500 (internal_error e))
        | inl nb =>
            if wants_stream data then
              let c3 := called (with_headers c2 stream_headers)
                               [Call_streamNotionResponse nb] in
              match streamNotionResponse E nb with
              | inr e => (inr invalid_media_type, status_set c3 500)
              | inl _ =>
                  (inl tt,
                   now_waiting
                     (called c3 [Call_stream_on "error"; Call_stream_pipe;
                                 Call_req_on "close"])
                     Streaming)
              end
            else
              let c3 := called c2 [Call_streamNotionResponse nb] in
              match streamNotionResponse E nb with
              | inr e => (inl tt, answered_with c3 500 (internal_error e))
              | inl _ =>
                  (inl tt,
                   now_waiting
                     (called c3 [Call_stream_on "data"; Call_stream_on "end";
                                 Call_stream_on "error"])
                     (Aggregating data []))
              end
        end.
Proof.
  intros Hs Hmt.
  destruct (wants_stream data && has_messages data &&
            INITIALIZED_SUCCESSFULLY E && negb (N.eqb (getValidCount E) 0)) eqn:Hpath.
  { apply andb_prop in Hpath as [Hpath Hn]. apply andb_prop in Hpath as [Hpath Hi].
    apply andb_prop in Hpath as [Hw Hmsg]. apply negb_true_iff in Hn.
    rewrite Hi, Hn, Hmsg, Hw, (has_messages_not_nullish _ Hmsg). cbn [negb].
    destruct (buildNotionRequest E data) as [nb|e] eqn:Hb.
    - rewrite (chat_completions_streaming E data c Hs Hi Hn Hmsg Hb Hw).
      cbv zeta. unfold called, with_headers, status_set, now_waiting.
      cbn [res calls waiting]. rewrite <- !app_assoc. reflexivity.
    - apply (chat_completions_translator_throws E data c Hs Hmt Hi Hn Hmsg Hb). }
  destruct c as [[st hs b w sent] ks ph]. cbn in Hs. subst sent.
  unfold has_media_type in Hmt. cbn [res headers] in Hmt.
  unfold chat_completions, try_catch, bind, called, with_headers, now_waiting,
    answered_with.
  destruct (INITIALIZED_SUCCESSFULLY E); cbn [negb]; [|answers Hmt].
  cbn [record res calls waiting].
  destruct (N.eqb (getValidCount E) 0); [answers Hmt|].
  destruct (is_nullish data) eqn:Hn.
  { rewrite (get_nullish _ _ Hn). answers Hmt. }
  destruct (get_not_nullish (js "model") _ Hn) as [m1 ->].
  destruct (get_not_nullish (js "stream") _ Hn) as [s1 Hstream].
  destruct (get_not_nullish (js "messages") _ Hn) as [m Hm].
  cbn [lift ret]. rewrite Hstream. cbn [lift ret]. rewrite Hm. cbn [lift ret].
  rewrite (messages_check _ Hm), (wants_stream_get _ Hstream).
  destruct (has_messages data); cbn [negb]; [|answers Hmt].
  cbn [record res calls waiting].
  destruct (buildNotionRequest E data) as [nb|e]; cbn [lift ret throw];
    [|answers Hmt].
  rewrite <- (wants_stream_get _ Hstream) in *. rewrite !andb_true_r in Hpath.
  cbn [negb andb] in Hpath. rewrite Hpath.
  cbn [record res calls waiting].
  destruct (streamNotionResponse E nb) as [[]|e]; cbn [lift ret throw].
  - cbv [wait_for]. cbn [res calls waiting]. rewrite <- !app_assoc. reflexivity.
  - answers Hmt.
Qed.

(** Without [stream], the handler leaves no [close] listener and no piped
    stream behind. *)
Lemma chat_completions_not_streaming E data :
  wants_stream data = false ->
  not_streaming (snd (chat_completions E data fresh_conn)) = true /\
  cancellation_wired (snd (chat_completions E data fresh_conn)) = false.
Proof.
  intros Hw. rewrite chat_completions_cases by reflexivity. rewrite Hw.
  cbn [snd].
  destruct (INITIALIZED_SUCCESSFULLY E), (N.eqb (getValidCount E) 0),
    (is_nullish data), (has_messages data); cbn [negb];
    try (split; reflexivity).
  destruct (buildNotionRequest E data) as [nb|e]; [|split; reflexivity].
  destruct (streamNotionResponse E nb) as [[]|e]; split; reflexivity.
Qed.

End HandlerFacts.

(** ** The listeners *)

Module ListenerFacts.

Lemma parse_empty : Json.parse [] = None.
Proof. reflexivity. Qed.

(** A falsy value has no [delta] at index 0 to read a [content] from. *)
Lemma falsy_choices_no_delta choices :
  truthy choices = false ->
  exists e, match get_index 0 choices with
            | inl choice => get (js "delta") choice
            | inr e => inr e
            end = inr e.
Proof.
  destruct choices as [| | [|] | x | [|c s] | l | ps]; simpl; intros H;
    try discriminate; eauto.
Qed.

Lemma falsy_delta_no_content delta :
  truthy delta = false ->
  match get (js "content") delta with
  | inl content => truthy content = false
  | inr _ => True
  end.
Proof.
  destruct delta as [| | [|] | x | [|c s] | l | ps]; simpl; intros H;
    try discriminate; auto.
Qed.

(** The [try] block of the listener pushes the delta content of the parsed
    chunk, and nothing else. *)
Lemma try_push_spec chunkStr chunks :
  match try_push chunkStr chunks with
  | inl chunks' =>
      chunks' = chunks ++
        match Json.parse (trim (substring 6 chunkStr)) with
        | Some chunkData =>
            match deltaContent chunkData with
            | Some content => [content]
            | None => []
            end
        | None => []
        end
  | inr _ =>
      match Json.parse (trim (substring 6 chunkStr)) with
      | Some chunkData => deltaContent chunkData = None
      | None => True
      end
  end.
Proof.
  unfold try_push.
  destruct (trim (substring 6 chunkStr)) as [|x dataJson] eqn:Ht.
  { rewrite parse_empty. now rewrite app_nil_r. }
  destruct (Json.parse (x :: dataJson)) as [chunkData|]; [|exact I].
  unfold deltaContent, choices_0_delta_content, choices_0_delta.
  destruct (get (js "choices") chunkData) as [choices|e]; [|reflexivity].
  destruct (truthy choices) eqn:Hc; cbn [negb].
  2:{ destruct (falsy_choices_no_delta _ Hc) as [e ->]. now rewrite app_nil_r. }
  destruct (match get_index 0 choices with
            | inl choice => get (js "delta") choice
            | inr e => inr e
            end) as [delta|e]; [|reflexivity].
  destruct (truthy delta) eqn:Hd; cbn [negb].
  2:{ pose proof (falsy_delta_no_content _ Hd) as H.
      destruct (get (js "content") delta) as [content|e].
      - rewrite H. now rewrite app_nil_r.
      - now rewrite app_nil_r. }
  destruct (get (js "content") delta) as [content|e]; [|reflexivity].
  destruct (truthy content); cbn [negb]; [reflexivity|now rewrite app_nil_r].
Qed.

(** The listener adds to [chunks] what the chunk, by itself, is worth. *)
Lemma on_data_pushed chunkStr chunks :
  on_data chunkStr chunks = chunks ++ pushed chunkStr.
Proof.
  unfold on_data, pushed, event_json.
  destruct (includes (js "[DONE]") chunkStr);
    [now rewrite andb_false_r, app_nil_r|].
  destruct (startsWith (js "data: ") chunkStr); cbn [andb negb];
    [|now rewrite app_nil_r].
  pose proof (try_push_spec chunkStr chunks) as H.
  destruct (try_push chunkStr chunks) as [chunks'|e]; [exact H|].
  destruct (Json.parse (trim (substring 6 chunkStr))) as [chunkData|];
    [rewrite H|]; now rewrite app_nil_r.
Qed.

Lemma collect_pushed chunkStrs chunks :
  collect chunkStrs chunks = chunks ++ flat_map pushed chunkStrs.
Proof.
  revert chunks; induction chunkStrs as [|s ss IH]; intros chunks; simpl.
  - now rewrite app_nil_r.
  - unfold collect in *. simpl. rewrite IH, on_data_pushed.
    now rewrite <- app_assoc.
Qed.

Lemma malformed_pushed chunkStr : malformed chunkStr = true -> pushed chunkStr = [].
Proof.
  unfold malformed, pushed, event_json. intros H.
  apply andb_prop in H as [-> H].
  destruct (Json.parse (trim (substring 6 chunkStr))); [discriminate|].
  now destruct (includes (js "[DONE]") chunkStr).
Qed.

Lemma DONE_pushed chunkStr :
  includes (js "[DONE]") chunkStr = true -> pushed chunkStr = [].
Proof. unfold pushed. now intros ->. Qed.

Lemma no_prefix_pushed chunkStr :
  startsWith (js "data: ") chunkStr = false -> pushed chunkStr = [].
Proof.
  unfold pushed, event_json. intros ->.
  now destruct (includes (js "[DONE]") chunkStr).
Qed.

(** With string deltas, the array joins to the texts kept. *)
Lemma pushed_text chunkStr :
  string_delta chunkStr = true ->
  pushed chunkStr = [] /\ kept_text chunkStr = [] \/
  exists c t, pushed chunkStr = [VStr (c :: t)] /\ kept_text chunkStr = c :: t.
Proof.
  unfold string_delta, pushed, kept_text, delta_text.
  destruct (includes (js "[DONE]") chunkStr); [now left|].
  destruct (event_json chunkStr) as [chunkData|]; [|now left].
  unfold deltaContent.
  destruct (choices_0_delta_content chunkData) as [content|e]; [|now left].
  destruct (truthy content) eqn:Ht; [|now left].
  destruct content as [| | b | x | [|c t] | l | ps]; try discriminate.
  intros _. right. now exists c, t.
Qed.

Lemma join_pushed chunkStrs :
  forallb string_delta chunkStrs = true ->
  join_empty (flat_map pushed chunkStrs) = Some (concat (map kept_text chunkStrs)).
Proof.
  induction chunkStrs as [|s ss IH]; simpl; intros H; [reflexivity|].
  apply andb_prop in H as [Hs Hss]. specialize (IH Hss).
  destruct (pushed_text _ Hs) as [[-> ->]|(c & t & -> & ->)]; simpl.
  - exact IH.
  - now rewrite IH.
Qed.

(** Events in the non-streaming branch *)

Lemma on_events_app E evs1 evs2 c :
  on_events E (evs1 ++ evs2) c = (on_events E evs1 ;;; on_events E evs2)%js c.
Proof.
  revert c; induction evs1 as [|ev evs1 IH]; intros c; simpl.
  - reflexivity.
  - unfold bind in *. destruct (on_event E ev c) as [[[]|e] c']; [|reflexivity].
    apply IH.
Qed.

Lemma on_events_data E chunkStrs requestData chunks c :
  waiting c = Aggregating requestData chunks ->
  on_events E (map Data chunkStrs) c =
  (inl tt, now_waiting c (Aggregating requestData (collect chunkStrs chunks))).
Proof.
  revert chunks c; induction chunkStrs as [|s ss IH]; intros chunks c Hw; simpl.
  - unfold ret, now_waiting. rewrite <- Hw. now destruct c.
  - unfold bind, on_event. rewrite Hw. unfold wait_for.
    rewrite (IH (on_data s chunks)); reflexivity.
Qed.

Lemma on_event_not_streaming E ev c :
  not_streaming c = true ->
  not_streaming (snd (on_event E ev c)) = true /\
  calls (snd (on_event E ev c)) = calls c.
Proof.
  unfold not_streaming, on_event. destruct c as [r ks ph]; cbn [waiting].
  destruct ph as [| |requestData chunks]; [|discriminate|]; intros _.
  - now destruct ev.
  - destruct ev as [chunkStr| |e| |]; try (split; reflexivity).
    + unfold on_end, bind, lift.
      destruct (get (js "model") requestData) as [model|e];
        [|split; reflexivity].
      cbn [ret]. destruct (join_empty chunks) as [content|];
        [|split; reflexivity].
      unfold res_json. cbn [res].
      destruct (has_media_type r); cbn [negb]; [|split; reflexivity].
      destruct (headersSent r); split; reflexivity.
    + unfold on_error, bind, res_headersSent, res_status, res_json, update_res,
        has_media_type.
      cbv beta iota. cbn [res headers headersSent].
      destruct (headersSent r) eqn:Hh; cbn [negb]; [split; reflexivity|].
      cbv beta iota. cbn [res headers headersSent]. rewrite ?Hh.
      destruct (match getHeader _ _ with Some _ => _ | None => _ end);
        cbn [negb]; split; reflexivity.
Qed.

Lemma on_events_not_streaming E evs c :
  not_streaming c = true ->
  not_streaming (snd (on_events E evs c)) = true /\
  calls (snd (on_events E evs c)) = calls c.
Proof.
  revert c; induction evs as [|ev evs IH]; intros c Hc; simpl.
  - now split.
  - destruct (on_event_not_streaming E ev c Hc) as [H1 H2].
    unfold bind. destruct (on_event E ev c) as [[[]|e] c']; simpl in *.
    + destruct (IH c' H1) as [H3 H4]. split; congruence.
    + now split.
Qed.

(** A chunk that adds nothing leaves the connection as it is. *)
Lemma on_event_inert E chunkStr c :
  pushed chunkStr = [] -> not_streaming c = true ->
  on_event E (Data chunkStr) c = (inl tt, c).
Proof.
  intros Hp. unfold not_streaming, on_event. destruct c as [r ks ph]; cbn [waiting].
  destruct ph as [| |requestData chunks]; [reflexivity|discriminate|]; intros _.
  rewrite on_data_pushed, Hp, app_nil_r. reflexivity.
Qed.

Lemma on_events_inert E evs1 chunkStr evs2 c :
  pushed chunkStr = [] -> not_streaming c = true ->
  on_events E (evs1 ++ Data chunkStr :: evs2) c = on_events E (evs1 ++ evs2) c.
Proof.
  intros Hp. revert c; induction evs1 as [|ev evs1 IH]; intros c Hc; simpl.
  - unfold bind. now rewrite on_event_inert.
  - destruct (on_event_not_streaming E ev c Hc) as [H1 _].
    unfold bind. destruct (on_event E ev c) as [[[]|e] c']; [|reflexivity].
    now apply IH.
Qed.

(** A delta event is a well-formed event with the content it was written
    for. *)
Lemma delta_event_json content :
  code_units content ->
  event_json (delta_event content) =
  Some (VObj [(js "choices",
               VArr [VObj [(js "delta", VObj [(js "content", VStr content)])]])]).
Proof.
  intros Hc. unfold event_json.
  rewrite QuoteFacts.delta_event_payload, (QuoteFacts.delta_event_parse Hc).
  unfold delta_event. now rewrite startsWith_app.
Qed.

Lemma delta_event_DONE content :
  includes (js "[DONE]") content = true ->
  includes (js "[DONE]") (delta_event content) = true.
Proof.
  intros H. apply QuoteFacts.includes_quote_chars in H.
  apply includes_inv in H as (a & b & Hq).
  unfold delta_event, JsonQuote.stringify_string. rewrite Hq.
  replace (js "data: " ++ qq "{'choices':[{'delta':{'content':" ++
           (34%N :: (a ++ js "[DONE]" ++ b) ++ [34%N]) ++ qq "}}]}" ++ [10%N; 10%N])
    with ((js "data: " ++ qq "{'choices':[{'delta':{'content':" ++ 34%N :: a) ++
          js "[DONE]" ++ (b ++ [34%N] ++ qq "}}]}" ++ [10%N; 10%N])).
  - apply includes_app.
  - rewrite <- !app_assoc. cbn [app]. now rewrite <- !app_assoc.
Qed.

(** What a delta event is worth to the listener: its content, unless the
    text of the event contains the sentinel text. *)
Lemma delta_event_pushed content :
  content <> [] -> code_units content ->
  pushed (delta_event content) =
  if includes (js "[DONE]") (delta_event content) then [] else [VStr content].
Proof.
  intros Hne Hc. unfold pushed. rewrite (delta_event_json Hc).
  destruct (includes (js "[DONE]") (delta_event content)); [reflexivity|].
  destruct content; [contradiction|reflexivity].
Qed.

Lemma delta_event_texts content :
  content <> [] -> code_units content ->
  string_delta (delta_event content) = true /\
  kept_text (delta_event content) =
    if includes (js "[DONE]") (delta_event content) then [] else content.
Proof.
  intros Hne Hc. unfold string_delta, kept_text, delta_text.
  rewrite (delta_event_json Hc).
  destruct content; [contradiction|].
  split; [reflexivity|].
  now destruct (includes (js "[DONE]") (delta_event (n :: content))).
Qed.

(** In the streaming branch every chunk goes to the response as it is, in
    the order of emission. *)
Lemma streaming_forwards_in_order E chunkStrs c :
  waiting c = Streaming ->
  exists c',
    on_events E (map Data chunkStrs) c = (inl tt, c') /\
    waiting c' = Streaming /\
    calls c' = calls c /\
    written (res c') = written (res c) ++ chunkStrs.
Proof.
  revert c; induction chunkStrs as [|s ss IH]; intros c Hw; simpl.
  - exists c. rewrite app_nil_r. now repeat split.
  - unfold bind, on_event. rewrite Hw. unfold res_write, update_res.
    destruct (IH {| res := {| statusCode := statusCode (res c);
                              headers := headers (res c);
                              body := body (res c);
                              written := written (res c) ++ [s];
                              headersSent := true |};
                    calls := calls c; waiting := waiting c |} Hw)
      as (c' & H1 & H2 & H3 & H4).
    exists c'. rewrite H1. repeat split; auto.
    rewrite H4. cbn. now rewrite <- app_assoc.
Qed.

(** In the streaming branch the [close] listener ends the stream. *)
Lemma streaming_close_ends_the_stream E c :
  waiting c = Streaming ->
  on_event E Close c = (inl tt, called c [Call_stream_end]).
Proof. intros Hw. unfold on_event. now rewrite Hw. Qed.

End ListenerFacts.

(** ** A non-streaming exchange, from the request to the answer *)

Module ExchangeFacts.

Import HandlerFacts ListenerFacts.

Lemma answered_fullResponse E c code model content :
  answered (answered_with c code (fullResponse E model content)) =
  Some (content, js "stop").
Proof. reflexivity. Qed.

(** The whole of a non-streaming exchange that passes the guards. *)
Lemma aggregate_run E data chunkStrs nb model :
  INITIALIZED_SUCCESSFULLY E = true ->
  getValidCount E <> 0%N ->
  has_messages data = true ->
  wants_stream data = false ->
  buildNotionRequest E data = inl nb ->
  streamNotionResponse E nb = inl tt ->
  get (js "model") data = inl model ->
  forallb string_delta chunkStrs = true ->
  aggregate E data chunkStrs fresh_conn =
  (inl tt,
   answered_with
     (now_waiting
        (called fresh_conn
           [Call_getValidCount; Call_buildNotionRequest data;
            Call_streamNotionResponse nb; Call_stream_on "data";
            Call_stream_on "end"; Call_stream_on "error"])
        (Aggregating data (flat_map pushed chunkStrs)))
     200 (fullResponse E model (concat (map kept_text chunkStrs)))).
Proof.
  intros Hi Hn Hm Hw Hb Hst Hmodel Hsd.
  pose proof (has_messages_not_nullish _ Hm) as Hnull.
  apply N.eqb_neq in Hn.
  unfold aggregate, bind.
  rewrite chat_completions_cases by reflexivity.
  rewrite Hi, Hn, Hnull, Hm, Hb, Hw, Hst. cbn [negb].
  rewrite on_events_app. unfold bind.
  erewrite on_events_data by reflexivity.
  rewrite collect_pushed. cbn [app on_events bind on_event now_waiting waiting].
  unfold bind, on_event, now_waiting at 1. cbn [waiting]. unfold on_end, bind.
  rewrite Hmodel. cbn [lift ret]. rewrite (join_pushed _ Hsd).
  reflexivity.
Qed.

(** For a stream of delta events, whatever the contents, the answer is
    the concatenation of the contents whose event does not contain the
    sentinel text. *)
Theorem aggregate_delta_events (E : env) (data nb : value)
    (contents : list jsstring) :
  INITIALIZED_SUCCESSFULLY E = true ->
  getValidCount E <> 0%N ->
  has_messages data = true ->
  wants_stream data = false ->
  buildNotionRequest E data = inl nb ->
  streamNotionResponse E nb = inl tt ->
  Forall (fun content => content <> [] /\ code_units content) contents ->
  answered (snd (aggregate E data
                   (map delta_event contents ++ [js "data: [DONE]"]) fresh_conn)) =
  Some (concat (filter (fun content =>
                          negb (includes (js "[DONE]") (delta_event content)))
                       contents),
        js "stop").
Proof.
  intros Hi Hn Hm Hw Hb Hst Hcs.
  assert (Hsd : forallb string_delta
                  (map delta_event contents ++ [js "data: [DONE]"]) = true).
  { rewrite forallb_app. apply andb_true_intro. split; [|reflexivity].
    rewrite forallb_forall. intros s Hs. apply in_map_iff in Hs as (c & <- & Hc).
    rewrite Forall_forall in Hcs. destruct (Hcs c Hc) as [Hne Hu].
    apply (delta_event_texts Hne Hu). }
  destruct (get_not_nullish (js "model") _ (has_messages_not_nullish _ Hm))
    as [model Hmodel].
  rewrite (aggregate_run E data _ Hi Hn Hm Hw Hb Hst Hmodel Hsd).
  cbn [snd]. rewrite answered_fullResponse. f_equal. f_equal.
  rewrite map_app, concat_app. cbn [map concat].
  change (kept_text (js "data: [DONE]")) with (@nil N).
  rewrite !app_nil_r. clear Hsd.
  induction Hcs as [|content contents [Hne Hu] _ IH]; [reflexivity|].
  cbn [map concat filter].
  rewrite (proj2 (delta_event_texts Hne Hu)), IH.
  now destruct (includes (js "[DONE]") (delta_event content)).
Qed.

End ExchangeFacts.

(** * The claims *)

Import AuthFacts HandlerFacts ListenerFacts ExchangeFacts.

(** C1, as stated, fails: on a stream whose second event has a content
    with the sentinel text in it and the finish reason [length], step 5
    gives the content [Hello [DONE]] and the finish reason [length]; the
    handler answers [Hel] and [stop]. *)
Lemma aggregate_is_not_step_5 :
  answered (snd (aggregate example_env (example_request false) Hel_lo_length fresh_conn))
    = Some (js "Hel", js "stop") /\
  spec_content Hel_lo_length = js "Hello [DONE]" /\
  spec_finishReason Hel_lo_length = js "length".
Proof. repeat split; vm_compute; reflexivity. Qed.

(** C1, amended. For a non-streaming request that passes the guards, when
    the stream has emitted its chunks and ends, the gateway answers once,
    with status 200 and a completion whose content is the concatenation, in
    emission order, of the delta content of every chunk that is a
    well-formed event and does not contain the text [[DONE]], and whose
    finish reason is [stop] whatever the events carry (delta contents being
    strings, as the data model has them). *)
Theorem aggregate_answer (E : env) (data : value) (chunkStrs : list jsstring)
    (nb : value) :
  INITIALIZED_SUCCESSFULLY E = true ->
  getValidCount E <> 0%N ->
  has_messages data = true ->
  wants_stream data = false ->
  buildNotionRequest E data = inl nb ->
  streamNotionResponse E nb = inl tt ->
  forallb string_delta chunkStrs = true ->
  exists c model,
    aggregate E data chunkStrs fresh_conn = (inl tt, c) /\
    statusCode (res c) = 200%N /\
    get (js "model") data = inl model /\
    body (res c) = Some (fullResponse E model (concat (map kept_text chunkStrs))) /\
    answered c = Some (concat (map kept_text chunkStrs), js "stop").
Proof.
  intros Hi Hn Hm Hw Hb Hst Hsd.
  pose proof (has_messages_not_nullish _ Hm) as Hnull.
  destruct (get_not_nullish (js "model") _ Hnull) as [model Hmodel].
  eexists _, model. split.
  - exact (aggregate_run E data chunkStrs Hi Hn Hm Hw Hb Hst Hmodel Hsd).
  - split; [reflexivity|]. split; [exact Hmodel|]. split; [reflexivity|].
    apply answered_fullResponse.
Qed.

Lemma aggregate_answer_witness :
  exists c,
    aggregate example_env (example_request false) Hel_lo_DONE fresh_conn = (inl tt, c) /\
    answered c = Some (js "Hello", js "stop").
Proof.
  destruct (@aggregate_answer example_env (example_request false) Hel_lo_DONE
              (example_request false))
    as (c & model & H1 & _ & _ & _ & H2);
    try reflexivity; [discriminate|].
  exists c. split; [exact H1|exact H2].
Defined.

(** C2, as stated, fails: an event cut in two reads is lost.  The whole
    event gives the content [Hel]; its two halves, read one after the
    other, give the empty content.  And the sentinel does not end the
    stream for the listener: an event read after it is still counted. *)
Lemma split_event_is_lost :
  Hel_event_head ++ Hel_event_tail = Hel_event /\
  answered (snd (aggregate example_env (example_request false)
                   [Hel_event] fresh_conn))
    = Some (js "Hel", js "stop") /\
  answered (snd (aggregate example_env (example_request false)
                   [Hel_event_head; Hel_event_tail] fresh_conn))
    = Some ([], js "stop") /\
  answered (snd (aggregate example_env (example_request false)
                   [js "data: [DONE]"; Hel_event] fresh_conn))
    = Some (js "Hel", js "stop").
Proof. repeat split; vm_compute; reflexivity. Qed.

(** C2, amended. The non-streaming listener keeps nothing from one read to
    the next: after any sequence of chunks the array holds, in order, what
    each chunk is worth by itself.  A chunk that does not start with
    [data: ] (such as the rest of an event cut by a read) is worth nothing,
    and so is a chunk whose payload is not, alone, a JSON text: an event
    cut into two such chunks is lost.  The sentinel [data: [DONE]] is no
    content, and the chunks that come after it still count: the exchange
    ends with the stream's [end] event. *)
Theorem chunks_count_one_by_one (E : env) (requestData : value)
    (chunks : list value) (chunkStrs : list jsstring) (c : conn) :
  waiting c = Aggregating requestData chunks ->
  on_events E (map Data chunkStrs) c =
    (inl tt,
     now_waiting c (Aggregating requestData (chunks ++ flat_map pushed chunkStrs))) /\
  (forall chunkStr,
     startsWith (js "data: ") chunkStr = false -> pushed chunkStr = []) /\
  (forall chunkStr, malformed chunkStr = true -> pushed chunkStr = []) /\
  (forall head tail,
     malformed head = true -> startsWith (js "data: ") tail = false ->
     flat_map pushed [head; tail] = []) /\
  (forall after, pushed (js "data: [DONE]" ++ after) = []) /\
  flat_map pushed [js "data: [DONE]"; Hel_event] = [VStr (js "Hel")].
Proof.
  intros Hw. split; [|split; [|split; [|split; [|split]]]].
  - rewrite (on_events_data E chunkStrs c Hw). now rewrite collect_pushed.
  - exact no_prefix_pushed.
  - exact malformed_pushed.
  - intros head tail Hh Ht. cbn [flat_map].
    now rewrite (malformed_pushed _ Hh), (no_prefix_pushed _ Ht).
  - intros after. apply DONE_pushed.
    apply (includes_app (js "[DONE]") (js "data: ") after).
  - vm_compute. reflexivity.
Qed.

Lemma chunks_count_one_by_one_witness :
  on_events example_env (map Data [Hel_event_head; Hel_event_tail])
    (now_waiting fresh_conn (Aggregating (example_request false) [])) =
  (inl tt, now_waiting fresh_conn (Aggregating (example_request false) [])).
Proof.
  exact (proj1 (@chunks_count_one_by_one example_env (example_request false) []
                  [Hel_event_head; Hel_event_tail]
                  (now_waiting fresh_conn (Aggregating (example_request false) []))
                  eq_refl)).
Defined.

(** C3, as stated, fails in two ways.  In a non-streaming exchange a
    well-formed event that comes after the malformed one is not accumulated
    when its chunk holds the sentinel text: the content answered is [Hel],
    not [Hel] and then the text of the later event.  And in a streaming
    exchange the malformed event is not skipped: it is written to the
    client with the other chunks. *)
Lemma malformed_event_counterexample :
  malformed not_json = true /\
  delta_text DONE_in_content = js "say [DONE] then stop" /\
  answered (snd (aggregate example_env (example_request false)
                   [Hel_event; not_json; DONE_in_content] fresh_conn))
    = Some (js "Hel", js "stop") /\
  written (res (snd ((chat_completions example_env (example_request true) ;;;
                      on_events example_env
                        (map Data [Hel_event; not_json; lo_event] ++ [End]))%js
                       fresh_conn)))
    = [Hel_event; not_json; lo_event].
Proof. repeat split; vm_compute; reflexivity. Qed.

(** C3, amended. A malformed event (a chunk that starts with [data: ] and
    whose payload is not a JSON text) never ends the exchange.  In the
    non-streaming branch the listener leaves the array as it was, the
    exchange goes on as if the chunk had not come, and the content answered
    is the concatenation of the delta contents of the chunks before and
    after it that are well-formed events and do not contain the text
    [[DONE]].  In the streaming branch nothing is parsed and nothing is
    skipped: the malformed chunk is written to the client with the chunks
    before and after it, in order. *)
Theorem malformed_event_in_each_mode (E : env) (data nb : value)
    (before after : list jsstring) (bad : jsstring) :
  malformed bad = true ->
  (forall chunks, on_data bad chunks = chunks) /\
  (wants_stream data = false ->
   aggregate E data (before ++ bad :: after) fresh_conn =
   aggregate E data (before ++ after) fresh_conn) /\
  (INITIALIZED_SUCCESSFULLY E = true ->
   getValidCount E <> 0%N ->
   has_messages data = true ->
   buildNotionRequest E data = inl nb ->
   streamNotionResponse E nb = inl tt ->
   if wants_stream data then
     written (res (snd ((chat_completions E data ;;;
                         on_events E (map Data (before ++ bad :: after) ++ [End]))%js
                          fresh_conn)))
       = before ++ bad :: after
   else
     forallb string_delta (before ++ after) = true ->
     answered (snd (aggregate E data (before ++ bad :: after) fresh_conn))
       = Some (concat (map kept_text (before ++ after)), js "stop")).
Proof.
  intros Hbad.
  assert (Hskip : wants_stream data = false ->
                  aggregate E data (before ++ bad :: after) fresh_conn =
                  aggregate E data (before ++ after) fresh_conn).
  { intros Hw. unfold aggregate, bind.
    destruct (chat_completions_not_streaming E data Hw) as [Hns _].
    destruct (chat_completions E data fresh_conn) as [[[]|e] c]; [|reflexivity].
    cbn [snd] in Hns.
    rewrite !map_app, <- !app_assoc. cbn [map app].
    apply on_events_inert; [now apply malformed_pushed|exact Hns]. }
  split; [|split; [exact Hskip|]].
  - intros chunks. rewrite on_data_pushed, (malformed_pushed _ Hbad).
    apply app_nil_r.
  - intros Hi Hn Hm Hb Hst. destruct (wants_stream data) eqn:Hw.
    + apply N.eqb_neq in Hn. unfold bind at 1.
      rewrite (chat_completions_streaming E data fresh_conn eq_refl Hi Hn Hm Hb Hw).
      cbv zeta. rewrite Hst. rewrite on_events_app. unfold bind at 1.
      match goal with
      | |- context [on_events E (map Data ?l) ?c] =>
          destruct (@streaming_forwards_in_order E l c eq_refl)
            as (c' & H1 & H2 & _ & H4)
      end.
      rewrite H1. cbn [on_events]. unfold bind, on_event. rewrite H2.
      cbn [ret snd]. rewrite H4. reflexivity.
    + intros Hsd. rewrite (Hskip eq_refl).
      destruct (get_not_nullish (js "model") _ (has_messages_not_nullish _ Hm))
        as [model Hmodel].
      rewrite (aggregate_run E data _ Hi Hn Hm Hw Hb Hst Hmodel Hsd).
      cbn [snd]. apply answered_fullResponse.
Qed.

Lemma malformed_event_in_each_mode_witness :
  answered (snd (aggregate example_env (example_request false)
                   ([Hel_event] ++ not_json :: [lo_event]) fresh_conn))
    = Some (js "Hello", js "stop") /\
  written (res (snd ((chat_completions example_env (example_request true) ;;;
                      on_events example_env
                        (map Data ([Hel_event] ++ not_json :: [lo_event]) ++ [End]))%js
                       fresh_conn)))
    = [Hel_event] ++ not_json :: [lo_event].
Proof.
  split.
  - destruct (@malformed_event_in_each_mode example_env (example_request false)
                (example_request false) [Hel_event] [lo_event] not_json eq_refl)
      as (_ & _ & H).
    pose proof (H eq_refl ltac:(discriminate) eq_refl eq_refl eq_refl eq_refl) as H'.
    rewrite H'. vm_compute. reflexivity.
  - destruct (@malformed_event_in_each_mode example_env (example_request true)
                (example_request true) [Hel_event] [lo_event] not_json eq_refl)
      as (_ & _ & H).
    exact (H eq_refl ltac:(discriminate) eq_refl eq_refl eq_refl).
Defined.

(** C4, as stated, fails: a request without [messages] is answered 500
    while the system is not initialised, and 500 while no cookie is valid;
    and when it is answered 400, the cookie pool has been asked for its
    count of valid cookies before the body was looked at. *)
Lemma validation_is_not_first :
  statusCode (res (snd (chat_completions not_initialized_env no_messages fresh_conn)))
    = 500%N /\
  statusCode (res (snd (chat_completions (env_with no_credential example_env)
                          no_messages fresh_conn)))
    = 500%N /\
  statusCode (res (snd (chat_completions example_env no_messages fresh_conn)))
    = 400%N /\
  pool_called (snd (chat_completions example_env no_messages fresh_conn)) = true.
Proof. repeat split; vm_compute; reflexivity. Qed.

(** C4, amended. Once the system is initialised and the cookie manager
    counts at least one valid cookie, a request whose body has no
    [messages], or [messages] that is not an array or is an empty array,
    is answered 400 with the validation error; the only call made by then
    is [cookieManager.getValidCount()]: neither the request translator nor
    the upstream call is invoked, and no listener is registered. *)
Theorem invalid_messages_answer (E : env) (data messages : value) :
  INITIALIZED_SUCCESSFULLY E = true ->
  getValidCount E <> 0%N ->
  get (js "messages") data = inl messages ->
  messages = VUndefined \/ isArray messages = false \/ messages = VArr [] ->
  exists c,
    chat_completions E data fresh_conn = (inl tt, c) /\
    statusCode (res c) = 400%N /\
    body (res c) =
      Some (error_body
              (js "Invalid request: 'messages' field must be a non-empty array.")
              "invalid_request_error") /\
    calls c = [Call_getValidCount] /\
    translator_called c = false /\
    upstream_called c = false /\
    waiting c = Idle.
Proof.
  intros Hi Hn Hget Hm. apply N.eqb_neq in Hn.
  assert (Hnull : is_nullish data = false)
    by (destruct data; try reflexivity; discriminate).
  assert (Hhas : has_messages data = false).
  { unfold has_messages. rewrite Hget.
    destruct Hm as [->|[Hm| ->]]; try reflexivity.
    destruct messages; try reflexivity; discriminate. }
  rewrite (chat_completions_cases E data fresh_conn eq_refl eq_refl).
  rewrite Hi, Hn, Hnull, Hhas. cbn [negb]. cbv zeta.
  eexists. split; [reflexivity|]. repeat split; reflexivity.
Qed.

Lemma invalid_messages_answer_witness :
  exists c,
    chat_completions example_env no_messages fresh_conn = (inl tt, c) /\
    statusCode (res c) = 400%N /\
    calls c = [Call_getValidCount].
Proof.
  destruct (@invalid_messages_answer example_env no_messages VUndefined)
    as (c & H1 & H2 & _ & H3 & _); try reflexivity; [discriminate|now left|].
  exists c. repeat split; assumption.
Defined.

(** C5 (the code departs from it).  With the upstream call of section 4.5,
    which fails fast with [NoEgressAvailable] when the egress pool is
    exhausted: a request met with an exhausted credential pool is answered
    500 with a [server_error] body after the one call
    [cookieManager.getValidCount()], in both modes; a non-streaming request
    that reaches the upstream call with an exhausted egress pool is answered
    500 with a [server_error] body after one upstream call, which is not
    tried again; a streaming request in the same state is not answered: the
    streaming headers are set by then, [res.json] throws under them, and
    the handler throws with the status set and nothing sent. *)
Theorem pool_exhaustion_answer (p : pools) (E : env) (data nb : value) :
  exhausted p = true ->
  (credential_validCount p = 0%N ->
   exists c msg,
     chat_completions (env_with p E) data fresh_conn = (inl tt, c) /\
     statusCode (res c) = 500%N /\
     body (res c) = Some (error_body msg "server_error") /\
     (calls c = [] \/ calls c = [Call_getValidCount]) /\
     waiting c = Idle) /\
  (credential_validCount p <> 0%N ->
   INITIALIZED_SUCCESSFULLY E = true ->
   has_messages data = true ->
   buildNotionRequest E data = inl nb ->
   exists r c,
     chat_completions (env_with p E) data fresh_conn = (r, c) /\
     calls c = [Call_getValidCount; Call_buildNotionRequest data;
                Call_streamNotionResponse nb] /\
     waiting c = Idle /\
     statusCode (res c) = 500%N /\
     if wants_stream data then
       r = inr invalid_media_type /\
       body (res c) = None /\ headersSent (res c) = false /\
       headers (res c) = stream_headers
     else
       r = inl tt /\
       body (res c) =
         Some (error_body (js "Internal server error: NoEgressAvailable")
                 "server_error") /\
       headersSent (res c) = true).
Proof.
  intros Hex. split.
  - intros Hc.
    rewrite (chat_completions_cases (env_with p E) data fresh_conn eq_refl eq_refl).
    cbn [INITIALIZED_SUCCESSFULLY getValidCount env_with]. rewrite Hc.
    cbn [N.eqb]. cbv zeta.
    destruct (INITIALIZED_SUCCESSFULLY E); cbn [negb];
      eexists _, _; (split; [reflexivity|]); repeat split;
      try reflexivity; [now right|now left].
  - intros Hc Hi Hm Hb. apply N.eqb_neq in Hc.
    assert (He : N.eqb (egress_validCount p) 0 = true).
    { unfold exhausted in Hex. now rewrite Hc in Hex. }
    rewrite (chat_completions_cases (env_with p E) data fresh_conn eq_refl eq_refl).
    cbn [INITIALIZED_SUCCESSFULLY getValidCount buildNotionRequest
         streamNotionResponse env_with].
    rewrite Hi, Hc, (has_messages_not_nullish _ Hm), Hm, Hb, He.
    cbn [negb]. cbv zeta.
    destruct (wants_stream data); eexists _, _; (split; [reflexivity|]);
      repeat split.
Qed.

Lemma pool_exhaustion_answer_witness :
  (exists c,
     chat_completions (env_with no_credential example_env) (example_request true)
       fresh_conn = (inl tt, c) /\
     statusCode (res c) = 500%N /\ upstream_called c = false) /\
  (exists c,
     chat_completions (env_with no_egress example_env) (example_request false)
       fresh_conn = (inl tt, c) /\
     body (res c) =
       Some (error_body (js "Internal server error: NoEgressAvailable")
               "server_error")) /\
  (exists c,
     chat_completions (env_with no_egress example_env) (example_request true)
       fresh_conn = (inr invalid_media_type, c) /\
     body (res c) = None /\ headersSent (res c) = false).
Proof.
  split; [|split].
  - destruct (proj1 (@pool_exhaustion_answer no_credential example_env
                       (example_request true) (example_request true) eq_refl)
                eq_refl)
      as (c & msg & H1 & H2 & _ & H3 & _).
    exists c. repeat split; try assumption.
    unfold upstream_called. destruct H3 as [-> | ->]; reflexivity.
  - destruct (proj2 (@pool_exhaustion_answer no_egress example_env
                       (example_request false) (example_request false) eq_refl)
                ltac:(discriminate) eq_refl eq_refl eq_refl)
      as (r & c & H1 & _ & _ & _ & H2).
    cbv beta iota in H2. change (wants_stream (example_request false)) with false in H2.
    destruct H2 as (-> & H2 & _).
    exists c. split; assumption.
  - destruct (proj2 (@pool_exhaustion_answer no_egress example_env
                       (example_request true) (example_request true) eq_refl)
                ltac:(discriminate) eq_refl eq_refl eq_refl)
      as (r & c & H1 & _ & _ & _ & H2).
    change (wants_stream (example_request true)) with true in H2.
    destruct H2 as (-> & H2 & H3 & _).
    exists c. repeat split; assumption.
Defined.

(** C6 (the code departs from it). In the non-streaming branch the handler
    registers no [close] listener on the request, and whatever happens
    afterwards, the client going away included, [stream.end()] is never
    called: the cancellation the streaming branch wires is missing here. *)
Theorem non_streaming_is_never_cancelled (E : env) (data : value)
    (evs : list event) :
  wants_stream data = false ->
  cancellation_wired
    (snd ((chat_completions E data ;;; on_events E evs)%js fresh_conn)) = false.
Proof.
  intros Hw. destruct (chat_completions_not_streaming E data Hw) as [Hns Hcw].
  unfold bind. destruct (chat_completions E data fresh_conn) as [[[]|e] c];
    cbn [snd] in *; [|exact Hcw].
  destruct (on_events_not_streaming E evs c Hns) as [_ Hcalls].
  unfold cancellation_wired in *. now rewrite Hcalls.
Qed.

Lemma non_streaming_is_never_cancelled_witness :
  cancellation_wired
    (snd ((chat_completions example_env (example_request false) ;;;
           on_events example_env [Data Hel_event; Close; End])%js fresh_conn))
  = false /\
  cancellation_wired
    (snd ((chat_completions example_env (example_request true) ;;;
           on_events example_env [Data Hel_event; Close; End])%js fresh_conn))
  = true.
Proof.
  split.
  - exact (@non_streaming_is_never_cancelled example_env (example_request false)
             [Data Hel_event; Close; End] eq_refl).
  - vm_compute. reflexivity.
Defined.

(** C7. A request to an authenticated endpoint whose Authorization header
    is missing, does not start with [Bearer ], or carries a token other
    than the configured secret is answered 401 with a body
    [{error: {message, type: "authentication_error"}}], and nothing else
    happens; any other request passes authentication: the route's handler
    runs on it.  (The middleware runs first: the response has not been
    sent and has no Content-Type of its own yet.) *)
Theorem authenticate_contract
    (P : option jsstring) (E : env) (getStatus : value) (timestamp : jsstring)
    (ep : endpoint) (req : request) (c : conn) :
  authenticated ep = true ->
  headersSent (res c) = false ->
  getHeader (js "Content-Type") (headers (res c)) = None ->
  if rejected (EXPECTED_TOKEN P) (authorization req)
  then exists msg,
       serve P E getStatus timestamp ep req c =
       (inl tt, answered_with c 401 (error_body msg "authentication_error"))
  else serve P E getStatus timestamp ep req c =
       handler E getStatus timestamp ep req c.
Proof.
  intros Hep Hs Hct. unfold serve. rewrite Hep. unfold bind.
  rewrite (authenticate_cases P _ _ Hs (no_Content_Type_has_media_type _ Hct)).
  destruct (rejected (EXPECTED_TOKEN P) (authorization req)).
  - destruct (authorization req) as [s|].
    + destruct (startsWith (js "Bearer ") s); eexists; reflexivity.
    + eexists; reflexivity.
  - reflexivity.
Qed.

Lemma authenticate_contract_witness :
  (exists msg,
     serve None example_env VNull [] POST_v1_chat_completions
       {| authorization := Some (js "Bearer wrong"); req_body := example_request false |}
       fresh_conn =
     (inl tt, answered_with fresh_conn 401 (error_body msg "authentication_error"))) /\
  serve None example_env VNull [] GET_v1_models
    {| authorization := Some (js "Bearer default_token"); req_body := VUndefined |}
    fresh_conn =
  handler example_env VNull [] GET_v1_models
    {| authorization := Some (js "Bearer default_token"); req_body := VUndefined |}
    fresh_conn.
Proof.
  split.
  - exact (authenticate_contract None example_env VNull [] POST_v1_chat_completions
             {| authorization := Some (js "Bearer wrong");
                req_body := example_request false |}
             fresh_conn eq_refl eq_refl eq_refl).
  - exact (authenticate_contract None example_env VNull [] GET_v1_models
             {| authorization := Some (js "Bearer default_token");
                req_body := VUndefined |}
             fresh_conn eq_refl eq_refl eq_refl).
Defined.

(** C8. In a non-streaming exchange a chunk whose text contains [[DONE]]
    anywhere changes nothing, were it a well-formed event with a content of
    its own: the exchange goes on as if the chunk had not come.  So a
    generated content with that text in it is dropped: the event that
    [JSON.stringify] writes for it is such a chunk. *)
Theorem chunk_with_DONE_is_dropped (E : env) (data : value)
    (before after : list jsstring) (chunkStr : jsstring) :
  wants_stream data = false ->
  includes (js "[DONE]") chunkStr = true ->
  aggregate E data (before ++ chunkStr :: after) fresh_conn =
    aggregate E data (before ++ after) fresh_conn /\
  (forall chunks, on_data chunkStr chunks = chunks) /\
  (forall content chunks,
     includes (js "[DONE]") content = true ->
     on_data (delta_event content) chunks = chunks).
Proof.
  intros Hw Hd. split; [|split].
  - unfold aggregate, bind.
    destruct (chat_completions_not_streaming E data Hw) as [Hns _].
    destruct (chat_completions E data fresh_conn) as [[[]|e] c]; [|reflexivity].
    cbn [snd] in Hns.
    rewrite !map_app, <- !app_assoc. cbn [map app].
    apply on_events_inert; [now apply DONE_pushed|exact Hns].
  - intros chunks. rewrite on_data_pushed, (DONE_pushed _ Hd). apply app_nil_r.
  - intros content chunks Hc.
    rewrite on_data_pushed, (DONE_pushed _ (delta_event_DONE _ Hc)).
    apply app_nil_r.
Qed.

Lemma chunk_with_DONE_is_dropped_witness :
  delta_text DONE_in_content = js "say [DONE] then stop" /\
  answered (snd (aggregate example_env (example_request false)
                   ([Hel_event] ++ DONE_in_content :: []) fresh_conn))
  = Some (js "Hel", js "stop").
Proof.
  split; [vm_compute; reflexivity|].
  rewrite (proj1 (@chunk_with_DONE_is_dropped example_env (example_request false)
                    [Hel_event] [] DONE_in_content eq_refl eq_refl)).
  vm_compute. reflexivity.
Defined.

(** C9, as stated, fails: the second space-separated field of
    [Basic default_token] is the default secret, and the request is
    refused. *)
Lemma second_field_is_not_enough :
  token_of (js "Basic default_token") = Some (EXPECTED_TOKEN None) /\
  fst (authenticate None (Some (js "Basic default_token")) fresh_conn) = inl false.
Proof. split; reflexivity. Qed.

(** C9, amended. With [PROXY_AUTH_TOKEN] unset the secret is
    [default_token]; authentication passes exactly when the header starts
    with [Bearer ] and its second space-separated field is the secret; with
    the default secret, the headers that pass are [Bearer default_token]
    and that text followed by a space and anything. *)
Theorem authenticate_passes_iff :
  EXPECTED_TOKEN None = js "default_token" /\
  (forall P h c,
     fst (authenticate P h c) = inl true <->
     exists s, h = Some s /\ startsWith (js "Bearer ") s = true /\
               token_of s = Some (EXPECTED_TOKEN P)) /\
  (forall s c,
     fst (authenticate None (Some s) c) = inl true <->
     s = js "Bearer default_token" \/
     exists r, s = js "Bearer default_token " ++ r).
Proof.
  split; [reflexivity|]. split.
  - intros P h c. rewrite authenticate_true_iff. apply rejected_false_iff.
  - intros s c. rewrite authenticate_true_iff, rejected_false_iff.
    assert (Hsecret : ~ In 32%N (EXPECTED_TOKEN None)).
    { vm_compute. intuition discriminate. }
    split.
    + intros (s' & [= <-] & Hb & Ht).
      apply startsWith_inv in Hb as [t ->].
      rewrite token_of_Bearer in Ht.
      destruct (proj1 (@first_field_is 32%N _ t Hsecret) Ht) as [->|[r ->]].
      * now left.
      * right. now exists r.
    + intros H. exists s. split; [reflexivity|].
      assert (Hs : exists t, s = js "Bearer " ++ t /\
                  (t = EXPECTED_TOKEN None \/
                   exists r, t = EXPECTED_TOKEN None ++ 32%N :: r)).
      { destruct H as [->|[r ->]].
        - exists (js "default_token"). split; [reflexivity|now left].
        - exists (js "default_token " ++ r). split; [reflexivity|].
          right. now exists r. }
      destruct Hs as (t & -> & Ht). split.
      * apply startsWith_app.
      * rewrite token_of_Bearer.
        exact (proj2 (@first_field_is 32%N _ t Hsecret) Ht).
Qed.

(** C10. A streaming request that passes the guards and the request
    translator has its response's Content-Type set to the text
    [text-event-stream], which is not the media type [text/event-stream];
    so it is whether the upstream call then gives a stream or fails. *)
Theorem streaming_content_type (E : env) (data nb : value) (c : conn) :
  headersSent (res c) = false ->
  INITIALIZED_SUCCESSFULLY E = true ->
  getValidCount E <> 0%N ->
  has_messages data = true ->
  buildNotionRequest E data = inl nb ->
  wants_stream data = true ->
  getHeader (js "Content-Type") (headers (res (snd (chat_completions E data c))))
    = Some (js "text-event-stream") /\
  js "text-event-stream" <> js "text/event-stream".
Proof.
  intros Hs Hi Hn Hm Hb Hw. apply N.eqb_neq in Hn.
  rewrite (chat_completions_streaming E data c Hs Hi Hn Hm Hb Hw). cbv zeta.
  split; [|discriminate].
  destruct (streamNotionResponse E nb) as [[]|e]; reflexivity.
Qed.

Lemma streaming_content_type_witness :
  getHeader (js "Content-Type")
    (headers (res (snd (chat_completions example_env (example_request true) fresh_conn))))
    = Some (js "text-event-stream") /\
  js "text-event-stream" <> js "text/event-stream".
Proof.
  refine (@streaming_content_type example_env (example_request true)
            (example_request true) fresh_conn eq_refl eq_refl _ eq_refl eq_refl eq_refl).
  discriminate.
Defined.

(** * Further facts

    Lemmas for the properties of the last part. *)

Import JsonFacts QuoteFacts.

(** ** The handler, once the guards are passed *)

Module RunFacts.

Lemma streaming_run E data nb :
  INITIALIZED_SUCCESSFULLY E = true ->
  getValidCount E <> 0%N ->
  has_messages data = true ->
  wants_stream data = true ->
  buildNotionRequest E data = inl nb ->
  streamNotionResponse E nb = inl tt ->
  chat_completions E data fresh_conn = (inl tt, streaming_conn data nb).
Proof.
  intros Hi Hn Hm Hw Hb Hs. apply N.eqb_neq in Hn.
  rewrite (chat_completions_cases E data fresh_conn eq_refl eq_refl).
  rewrite Hi, Hn, (has_messages_not_nullish _ Hm), Hm, Hb, Hw, Hs.
  reflexivity.
Qed.

Lemma aggregating_run E data nb :
  INITIALIZED_SUCCESSFULLY E = true ->
  getValidCount E <> 0%N ->
  has_messages data = true ->
  wants_stream data = false ->
  buildNotionRequest E data = inl nb ->
  streamNotionResponse E nb = inl tt ->
  chat_completions E data fresh_conn = (inl tt, aggregating_conn data nb).
Proof.
  intros Hi Hn Hm Hw Hb Hs. apply N.eqb_neq in Hn.
  rewrite (chat_completions_cases E data fresh_conn eq_refl eq_refl).
  rewrite Hi, Hn, (has_messages_not_nullish _ Hm), Hm, Hb, Hw, Hs.
  reflexivity.
Qed.

Lemma wrote_nil c : wrote c [] = c.
Proof.
  destruct c as [[s h b w hs] k p]. unfold wrote. cbn.
  now rewrite app_nil_r.
Qed.

Lemma streaming_data E chunkStrs c :
  waiting c = Streaming ->
  on_events E (map Data chunkStrs) c = (inl tt, wrote c chunkStrs).
Proof.
  revert c. induction chunkStrs as [|s l IH]; intros c Hw.
  - now rewrite wrote_nil.
  - cbn [map on_events]. unfold bind, on_event. rewrite Hw.
    unfold res_write, update_res. rewrite IH by exact Hw.
    unfold wrote. cbn. rewrite <- app_assoc. cbn [app].
    destruct l; reflexivity.
Qed.

(** In the streaming branch no event raises anything, and the calls made
    are one [stream.end()] for each [close] of the request. *)
Lemma streaming_calls E evs c :
  waiting c = Streaming ->
  exists c',
    on_events E evs c = (inl tt, c') /\
    waiting c' = Streaming /\
    calls c' = calls c ++ repeat Call_stream_end (length (filter is_close evs)).
Proof.
  revert c. induction evs as [|ev evs IH]; intros c Hw.
  - exists c. cbn. rewrite app_nil_r. now repeat split.
  - assert (Hstep : exists c1,
               on_event E ev c = (inl tt, c1) /\ waiting c1 = Streaming /\
               calls c1 = calls c ++ (if is_close ev then [Call_stream_end] else [])).
    { unfold on_event. rewrite Hw.
      destruct ev; eexists; (split; [reflexivity|]); cbn;
        rewrite ?app_nil_r; now split. }
    destruct Hstep as (c1 & H1 & H2 & H3).
    cbn [on_events]. unfold bind. rewrite H1.
    destruct (IH c1 H2) as (c' & G1 & G2 & G3).
    exists c'. split; [exact G1|]. split; [exact G2|].
    rewrite G3, H3, <- app_assoc. f_equal. cbn [filter].
    destruct (is_close ev); reflexivity.
Qed.

End RunFacts.

Import RunFacts.

(** ** Events after the response has been sent *)

Module EventFacts.

Lemma on_events_cons E ev rest c :
  on_events E (ev :: rest) c =
  match on_event E ev c with
  | (inl _, c') => on_events E rest c'
  | (inr e, c') => (inr e, c')
  end.
Proof. reflexivity. Qed.

(** Without a listener nothing happens. *)
Lemma on_events_idle E evs c :
  waiting c = Idle -> on_events E evs c = (inl tt, c).
Proof.
  intros Hw. induction evs as [|ev rest IH]; [reflexivity|].
  rewrite on_events_cons. unfold on_event. rewrite Hw. exact IH.
Qed.

(** The end listener has no guard on [res.headersSent]: once the head has
    gone out, [res.json] throws and the connection stays as it is. *)
Lemma on_end_sent E requestData chunks c :
  headersSent (res c) = true -> snd (on_end E requestData chunks c) = c.
Proof.
  intros Hs. unfold on_end, bind, lift.
  destruct (get (js "model") requestData); cbn; [|reflexivity].
  destruct (join_empty chunks); cbn; [|reflexivity].
  unfold res_json. rewrite Hs. now destruct (has_media_type (res c)).
Qed.

Lemma on_error_sent c :
  headersSent (res c) = true -> on_error c = (inl tt, c).
Proof. intros Hs. unfold on_error, bind, res_headersSent. now rewrite Hs. Qed.

(** Once the head has gone out, an event leaves status, headers and body as
    they are, and adds to what has been written at most. *)
Lemma on_event_sent E ev c :
  headersSent (res c) = true ->
  headersSent (res (snd (on_event E ev c))) = true /\
  statusCode (res (snd (on_event E ev c))) = statusCode (res c) /\
  headers (res (snd (on_event E ev c))) = headers (res c) /\
  body (res (snd (on_event E ev c))) = body (res c) /\
  exists more, written (res (snd (on_event E ev c))) = written (res c) ++ more.
Proof.
  intros Hs. unfold on_event.
  destruct (waiting c) as [| |requestData chunks], ev as [chunkStr| |error| |];
    rewrite ?on_end_sent, ?on_error_sent by exact Hs; cbn;
    repeat split; try assumption;
    try (exists []; now rewrite app_nil_r).
  now exists [chunkStr].
Qed.

Lemma on_events_sent E evs c :
  headersSent (res c) = true ->
  headersSent (res (snd (on_events E evs c))) = true /\
  statusCode (res (snd (on_events E evs c))) = statusCode (res c) /\
  headers (res (snd (on_events E evs c))) = headers (res c) /\
  body (res (snd (on_events E evs c))) = body (res c) /\
  exists more, written (res (snd (on_events E evs c))) = written (res c) ++ more.
Proof.
  revert c. induction evs as [|ev rest IH]; intros c Hs.
  - cbn. repeat split; try assumption. exists []. now rewrite app_nil_r.
  - rewrite on_events_cons.
    destruct (on_event_sent E ev c Hs) as (H1 & H2 & H3 & H4 & more & H5).
    destruct (on_event E ev c) as [[[]|e] c1]; cbn [snd] in *.
    + destruct (IH c1 H1) as (G1 & G2 & G3 & G4 & more' & G5).
      repeat split; try congruence.
      exists (more ++ more'). rewrite G5, H5. now rewrite app_assoc.
    + repeat split; try assumption. now exists more.
Qed.

(** In the non-streaming branch the whole response stays as it is. *)
Lemma on_event_sent_res E ev c :
  headersSent (res c) = true -> not_streaming c = true ->
  res (snd (on_event E ev c)) = res c.
Proof.
  intros Hs Hns. unfold on_event.
  destruct (waiting c) as [| |requestData chunks] eqn:Hw, ev as [chunkStr| |error| |];
    rewrite ?on_end_sent, ?on_error_sent by exact Hs; try reflexivity;
    unfold not_streaming in Hns; rewrite Hw in Hns; discriminate.
Qed.

Lemma on_events_sent_res E evs c :
  headersSent (res c) = true -> not_streaming c = true ->
  res (snd (on_events E evs c)) = res c.
Proof.
  revert c. induction evs as [|ev rest IH]; intros c Hs Hns; [reflexivity|].
  rewrite on_events_cons.
  pose proof (on_event_sent_res E ev c Hs Hns) as Hres.
  destruct (on_event_not_streaming E ev c Hns) as [Hns' _].
  destruct (on_event E ev c) as [[[]|e] c1]; cbn [snd] in *; [|exact Hres].
  rewrite IH; [exact Hres| now rewrite Hres | exact Hns'].
Qed.

(** Events other than [end] and [error] leave the response of the
    non-streaming branch alone and raise nothing. *)
Lemma on_events_quiet E pre c :
  not_streaming c = true ->
  forallb (fun ev => negb (terminal ev)) pre = true ->
  exists c', on_events E pre c = (inl tt, c') /\ res c' = res c /\
             not_streaming c' = true.
Proof.
  revert c. induction pre as [|ev pre IH]; intros c Hns Hq.
  - now exists c.
  - cbn [forallb] in Hq. apply andb_prop in Hq as [Hev Hq].
    rewrite on_events_cons. unfold on_event.
    destruct (waiting c) as [| |requestData chunks] eqn:Hw;
      [| unfold not_streaming in Hns; rewrite Hw in Hns; discriminate |].
    + destruct ev; try discriminate; cbn; now apply IH.
    + destruct ev as [chunkStr| |error| |]; try discriminate; cbn.
      * destruct (IH (now_waiting c (Aggregating requestData (on_data chunkStr chunks))))
          as (c' & H1 & H2 & H3); [reflexivity|exact Hq|].
        exists c'. repeat split; assumption.
      * now apply IH.
      * now apply IH.
Qed.

(** What the end or error listener leaves: an exception, or a response
    whose head has gone out. *)
Lemma on_event_terminal E ev c :
  terminal ev = true -> not_streaming c = true -> waiting c <> Idle ->
  (exists e, fst (on_event E ev c) = inr e) \/
  headersSent (res (snd (on_event E ev c))) = true.
Proof.
  intros Hev Hns Hw. unfold on_event.
  destruct (waiting c) as [| |requestData chunks] eqn:Hwc;
    [congruence | unfold not_streaming in Hns; rewrite Hwc in Hns; discriminate |].
  destruct ev as [chunkStr| |error| |]; try discriminate.
  - unfold on_end, bind, lift.
    destruct (get (js "model") requestData); cbn; [|left; eauto].
    destruct (join_empty chunks); cbn; [|left; eauto].
    unfold res_json.
    destruct (has_media_type (res c)); cbn [negb fst throw]; [|left; eauto].
    destruct (headersSent (res c)); cbn; [left; eauto|now right].
  - unfold on_error, bind, res_headersSent. cbn [fst snd].
    destruct (headersSent (res c)) eqn:Hs; cbn [negb]; [right; exact Hs|].
    unfold res_status, res_json, update_res, has_media_type.
    cbv beta iota. cbn [res headers headersSent]. rewrite Hs.
    destruct (match getHeader _ _ with Some _ => _ | None => _ end);
      cbn [negb fst snd throw res headersSent]; [now right|left; eauto].
Qed.

End EventFacts.

Import EventFacts.

(** ** The secret *)

Module SecretFacts.

Lemma secret_with_space_rejected secret h :
  In 32%N secret -> rejected secret h = true.
Proof.
  intros Hin. destruct (rejected secret h) eqn:Hr; [reflexivity|].
  apply rejected_false_iff in Hr as (s & _ & _ & Ht).
  now apply token_of_no_space in Ht.
Qed.

Lemma EXPECTED_TOKEN_not_empty P : EXPECTED_TOKEN P <> [].
Proof. destruct P as [[|c t]|]; discriminate. Qed.

End SecretFacts.

Import SecretFacts.

(** ** Joining the collected values *)

Module JoinFacts.

Lemma join_empty_app a b :
  join_empty (a ++ b) =
  match join_empty a, join_empty b with
  | Some x, Some y => Some (x ++ y)
  | _, _ => None
  end.
Proof.
  induction a as [|v a IH]; cbn [app join_empty].
  - now destruct (join_empty b).
  - rewrite IH.
    destruct (match v with VUndefined | VNull => Some [] | _ => toString v end) as [s|];
      [|reflexivity].
    destruct (join_empty a) as [x|]; [|reflexivity].
    destruct (join_empty b) as [y|]; [|reflexivity].
    now rewrite app_assoc.
Qed.

Lemma joined_app s1 s2 :
  joined (s1 ++ s2) =
  match joined s1, joined s2 with
  | Some x, Some y => Some (x ++ y)
  | _, _ => None
  end.
Proof. unfold joined. rewrite flat_map_app. apply join_empty_app. Qed.

(** A non-streaming exchange, whatever the chunks hold. *)
Lemma aggregate_joined E data nb model chunkStrs :
  INITIALIZED_SUCCESSFULLY E = true ->
  getValidCount E <> 0%N ->
  has_messages data = true ->
  wants_stream data = false ->
  buildNotionRequest E data = inl nb ->
  streamNotionResponse E nb = inl tt ->
  get (js "model") data = inl model ->
  aggregate E data chunkStrs fresh_conn =
  let c := now_waiting (aggregating_conn data nb)
             (Aggregating data (flat_map pushed chunkStrs)) in
  match joined chunkStrs with
  | Some content => (inl tt, answered_with c 200 (fullResponse E model content))
  | None => (inr TypeError_to_primitive, c)
  end.
Proof.
  intros Hi Hn Hm Hw Hb Hs Hmodel.
  unfold aggregate. unfold bind at 1.
  rewrite (aggregating_run E data Hi Hn Hm Hw Hb Hs).
  rewrite on_events_app. unfold bind at 1.
  rewrite (@on_events_data E chunkStrs data [] (aggregating_conn data nb) eq_refl).
  rewrite collect_pushed. cbn [app].
  cbn [on_events]. unfold bind, on_event. cbn [waiting now_waiting].
  unfold on_end, bind, lift. rewrite Hmodel. cbn [ret].
  unfold joined. destruct (join_empty (flat_map pushed chunkStrs)); reflexivity.
Qed.

End JoinFacts.

Import JoinFacts.

(** ** [trim] *)

Module TrimFacts.

Lemma trimStart_all_spaces p :
  forallb is_trim_space p = true -> trimStart p = [].
Proof.
  induction p as [|c p IH]; cbn [forallb trimStart]; [reflexivity|].
  intros H. apply andb_prop in H as [-> H]. auto.
Qed.

(** What [trimStart] leaves begins with a code unit that is no white space. *)
Lemma trimStart_keep a b :
  forallb is_trim_space a = false -> trimStart (a ++ b) = trimStart a ++ b.
Proof.
  induction a as [|c a IH]; cbn [forallb trimStart app]; [discriminate|].
  destruct (is_trim_space c); cbn [andb]; [exact IH|reflexivity].
Qed.

Lemma trimStart_not_nil a :
  forallb is_trim_space a = false -> trimStart a <> [].
Proof.
  induction a as [|c a IH]; cbn [forallb trimStart]; [discriminate|].
  destruct (is_trim_space c); cbn [andb]; [exact IH|discriminate].
Qed.

Lemma forallb_rev {A} (f : A -> bool) l : forallb f (rev l) = forallb f l.
Proof.
  induction l as [|x l IH]; [reflexivity|].
  cbn [rev forallb]. rewrite forallb_app, IH. cbn [forallb].
  rewrite andb_true_r. apply andb_comm.
Qed.

Lemma trimEnd_app_spaces s ws :
  forallb is_trim_space ws = true -> trimEnd (s ++ ws) = trimEnd s.
Proof.
  intros H. unfold trimEnd. rewrite rev_app_distr, trimStart_spaces; [reflexivity|].
  now rewrite forallb_rev.
Qed.

Lemma trimEnd_keep a b :
  forallb is_trim_space b = false -> trimEnd (a ++ b) = a ++ trimEnd b.
Proof.
  intros H. unfold trimEnd. rewrite rev_app_distr, trimStart_keep.
  - now rewrite rev_app_distr, rev_involutive.
  - now rewrite forallb_rev.
Qed.

Lemma trimEnd_not_nil b :
  forallb is_trim_space b = false -> trimEnd b <> [].
Proof.
  intros H Hnil. unfold trimEnd in Hnil.
  apply (f_equal (@rev N)) in Hnil. rewrite rev_involutive in Hnil. cbn in Hnil.
  revert Hnil. apply trimStart_not_nil. now rewrite forallb_rev.
Qed.

(** The last code unit [trimEnd] leaves is no white space. *)
Lemma trimEnd_last b :
  forallb is_trim_space b = false ->
  exists b' c, trimEnd b = b' ++ [c] /\ is_trim_space c = false.
Proof.
  intros H. unfold trimEnd.
  assert (Hr : forallb is_trim_space (rev b) = false) by now rewrite forallb_rev.
  clear H. induction (rev b) as [|c l IH]; [discriminate|].
  cbn [forallb trimStart] in *. destruct (is_trim_space c) eqn:Hc.
  - apply IH. exact Hr.
  - exists (rev l), c. now split.
Qed.

Lemma trim_spaces ws1 p ws2 :
  forallb is_trim_space ws1 = true -> forallb is_trim_space ws2 = true ->
  trim (ws1 ++ p ++ ws2) = trim p.
Proof.
  intros H1 H2. unfold trim. rewrite trimStart_spaces by exact H1.
  destruct (forallb is_trim_space p) eqn:Hp.
  - rewrite !trimStart_all_spaces; [reflexivity|exact Hp|].
    rewrite forallb_app, Hp. exact H2.
  - rewrite trimStart_keep by exact Hp. now apply trimEnd_app_spaces.
Qed.

(** The white space of JSON is white space for [trim]. *)
Lemma is_ws_trim_space c : Json.is_ws c = true -> is_trim_space c = true.
Proof.
  unfold Json.is_ws.
  destruct (N.eq_dec c 9) as [->|]; [reflexivity|].
  destruct (N.eq_dec c 10) as [->|]; [reflexivity|].
  destruct (N.eq_dec c 13) as [->|]; [reflexivity|].
  destruct (N.eq_dec c 32) as [->|]; [reflexivity|].
  destruct c as [|p]; [discriminate|].
  do 6 (destruct p as [p|p|]; try discriminate; try congruence).
Qed.

Lemma skip_ws_not_nil a c b :
  is_trim_space c = false -> Json.skip_ws (a ++ c :: b) <> [].
Proof.
  intros Hc. induction a as [|x a IH]; cbn [app Json.skip_ws].
  - destruct (Json.is_ws c) eqn:Hw; [|discriminate].
    apply is_ws_trim_space in Hw. congruence.
  - destruct (Json.is_ws x); [exact IH|discriminate].
Qed.

End TrimFacts.

Import TrimFacts.

(** ** [includes] and white space *)

Module IncludesFacts.

Lemma solid_head_space x q w :
  solid (x :: q) = true -> is_trim_space w = true -> N.eqb x w = false.
Proof.
  unfold solid. cbn [forallb]. intros H Hw.
  apply andb_prop in H as [H _].
  destruct (N.eqb_spec x w) as [->|]; [|reflexivity].
  rewrite Hw in H. discriminate.
Qed.

Lemma solid_tail x q : solid (x :: q) = true -> solid q = true.
Proof. unfold solid. cbn [forallb]. intros H. now apply andb_prop in H. Qed.

Lemma startsWith_app_spaces q s ws :
  solid q = true -> forallb is_trim_space ws = true ->
  startsWith q (s ++ ws) = startsWith q s.
Proof.
  revert s. induction q as [|x q IH]; intros s Hq Hws; [reflexivity|].
  destruct s as [|c s]; cbn [app].
  - destruct ws as [|w ws]; [reflexivity|]. cbn [startsWith forallb] in *.
    apply andb_prop in Hws as [Hw _].
    now rewrite (solid_head_space _ _ _ Hq Hw).
  - cbn [startsWith]. rewrite IH; [reflexivity|now apply solid_tail in Hq|exact Hws].
Qed.

Lemma includes_spaces_app x q ws s :
  solid (x :: q) = true -> forallb is_trim_space ws = true ->
  includes (x :: q) (ws ++ s) = includes (x :: q) s.
Proof.
  intros Hq. induction ws as [|w ws IH]; intros Hws; [reflexivity|].
  cbn [forallb] in Hws. apply andb_prop in Hws as [Hw Hws].
  cbn [app includes startsWith]. rewrite (solid_head_space _ _ _ Hq Hw). cbn [andb orb].
  now apply IH.
Qed.

Lemma includes_app_spaces x q s ws :
  solid (x :: q) = true -> forallb is_trim_space ws = true ->
  includes (x :: q) (s ++ ws) = includes (x :: q) s.
Proof.
  intros Hq Hws. induction s as [|c s IH].
  - cbn [app]. rewrite <- (app_nil_r ws). now apply includes_spaces_app.
  - change ((c :: s) ++ ws) with (c :: (s ++ ws)).
    cbn [includes]. rewrite IH.
    change (c :: s ++ ws) with ((c :: s) ++ ws).
    now rewrite startsWith_app_spaces.
Qed.

(** No match begins in a run of code units other than the first of the
    pattern. *)
Lemma includes_skip x q pre s :
  forallb (fun c => negb (N.eqb x c)) pre = true ->
  includes (x :: q) (pre ++ s) = includes (x :: q) s.
Proof.
  induction pre as [|c pre IH]; intros H; [reflexivity|].
  cbn [forallb] in H. apply andb_prop in H as [Hc H].
  cbn [app includes startsWith].
  destruct (N.eqb x c); [discriminate|]. cbn [andb orb]. now apply IH.
Qed.

End IncludesFacts.

Import IncludesFacts.

(** ** The sentinel text and [JSON.stringify] *)

Module PayloadFacts.

Import Json JsonQuote.

Lemma includes_data_prefix s :
  includes (js "[DONE]") (js "data: " ++ s) = includes (js "[DONE]") s.
Proof. apply (includes_skip 91 (js "DONE]") (js "data: ") s). reflexivity. Qed.

Lemma substring_data s : substring 6 (js "data: " ++ s) = s.
Proof. reflexivity. Qed.

Lemma quote_chars_plain c rest :
  plain c = true -> quote_chars (c :: rest) = c :: quote_chars rest.
Proof.
  unfold plain. intros H.
  apply andb_prop in H as [H Hl]. apply andb_prop in H as [H Hh].
  apply andb_prop in H as [H H92]. apply andb_prop in H as [H32 H34].
  apply negb_true_iff in Hl, Hh, H92, H34, H32.
  rewrite quote_chars_cons, Hh, Hl. unfold quote_unit.
  rewrite H34, H92, H32.
  destruct (N.eqb_spec c 8) as [->|]; [discriminate|].
  destruct (N.eqb_spec c 9) as [->|]; [discriminate|].
  destruct (N.eqb_spec c 10) as [->|]; [discriminate|].
  destruct (N.eqb_spec c 12) as [->|]; [discriminate|].
  destruct (N.eqb_spec c 13) as [->|]; [discriminate|].
  reflexivity.
Qed.

Lemma plain_not c x : plain x = true -> plain c = false -> N.eqb x c = false.
Proof.
  intros Hx Hc. destruct (N.eqb_spec x c) as [->|]; [congruence|reflexivity].
Qed.

Lemma is_high_not_bracket c : is_high c = true -> N.eqb 91 c = false.
Proof.
  unfold is_high. intros H. apply andb_prop in H as [H _].
  apply N.leb_le in H. apply N.eqb_neq. lia.
Qed.

Lemma is_low_not_bracket c : is_low c = true -> N.eqb 91 c = false.
Proof.
  unfold is_low. intros H. apply andb_prop in H as [H _].
  apply N.leb_le in H. apply N.eqb_neq. lia.
Qed.

Lemma hex_char_not_bracket d : N.eqb 91 (hex_char d) = false.
Proof.
  unfold hex_char. apply N.eqb_neq.
  destruct (N.ltb_spec d 10); lia.
Qed.

Lemma unicode_escape_no_bracket c :
  forallb (fun e => negb (N.eqb 91 e)) (unicode_escape c) = true.
Proof.
  unfold unicode_escape. cbn [forallb].
  rewrite !hex_char_not_bracket. reflexivity.
Qed.

Lemma quote_unit_no_bracket c :
  N.eqb 91 c = false ->
  forallb (fun e => negb (N.eqb 91 e)) (quote_unit c) = true.
Proof.
  intros H. unfold quote_unit.
  destruct (N.eqb c 8); [reflexivity|].
  destruct (N.eqb c 9); [reflexivity|].
  destruct (N.eqb c 10); [reflexivity|].
  destruct (N.eqb c 12); [reflexivity|].
  destruct (N.eqb c 13); [reflexivity|].
  destruct (N.eqb c 34); [reflexivity|].
  destruct (N.eqb c 92); [reflexivity|].
  destruct (N.ltb c 32); [apply unicode_escape_no_bracket|].
  cbn [forallb]. now rewrite H.
Qed.

(** The first code unit of what a code unit is written as: itself, or
    the backslash of an escape. *)
Lemma quote_chars_head c rest :
  plain c = false ->
  exists h t, quote_chars (c :: rest) = h :: t /\ (h = c \/ h = 92%N).
Proof.
  intros Hc. rewrite quote_chars_cons.
  destruct (is_high c) eqn:Hh.
  { destruct rest as [|d rest']; [eexists _, _; split; [reflexivity|now right]|].
    destruct (is_low d); eexists _, _; (split; [reflexivity|]); [now left|now right]. }
  destruct (is_low c) eqn:Hl; [eexists _, _; split; [reflexivity|now right]|].
  unfold plain in Hc. rewrite Hh, Hl in Hc. cbn [negb] in Hc.
  rewrite !andb_true_r in Hc. unfold quote_unit.
  destruct (N.eqb c 8); [eexists _, _; split; [reflexivity|now right]|].
  destruct (N.eqb c 9); [eexists _, _; split; [reflexivity|now right]|].
  destruct (N.eqb c 10); [eexists _, _; split; [reflexivity|now right]|].
  destruct (N.eqb c 12); [eexists _, _; split; [reflexivity|now right]|].
  destruct (N.eqb c 13); [eexists _, _; split; [reflexivity|now right]|].
  destruct (N.eqb c 34); [eexists _, _; split; [reflexivity|now right]|].
  destruct (N.eqb c 92); [eexists _, _; split; [reflexivity|now right]|].
  destruct (N.ltb c 32); [eexists _, _; split; [reflexivity|now right]|].
  discriminate.
Qed.

(** A pattern of plain code units matches at the head of a quoted text
    exactly when it matches at the head of the text. *)
Lemma startsWith_quote_chars q s tail :
  forallb plain q = true ->
  startsWith q (quote_chars s ++ 34%N :: tail) = startsWith q s.
Proof.
  revert s. induction q as [|x q IH]; intros s Hq; [reflexivity|].
  cbn [forallb] in Hq. apply andb_prop in Hq as [Hx Hq].
  destruct s as [|c s].
  - cbn [quote_chars app startsWith].
    assert (H34 : N.eqb x 34 = false) by (apply plain_not; [exact Hx|reflexivity]).
    now rewrite H34.
  - destruct (plain c) eqn:Hc.
    + rewrite quote_chars_plain by exact Hc. cbn [app startsWith].
      now rewrite IH.
    + destruct (quote_chars_head c s Hc) as (h & t & -> & Hh).
      cbn [app startsWith]. rewrite (plain_not _ _ Hx Hc).
      destruct Hh as [->| ->].
      * now rewrite (plain_not _ _ Hx Hc).
      * assert (H92 : N.eqb x 92 = false) by (apply plain_not; [exact Hx|reflexivity]).
        now rewrite H92.
Qed.

Lemma includes_cons_other x q c s :
  N.eqb x c = false -> includes (x :: q) (c :: s) = includes (x :: q) s.
Proof. intros H. cbn [includes startsWith]. now rewrite H. Qed.

Lemma includes_cons_second x y q b c s :
  N.eqb y c = false ->
  includes (x :: y :: q) (b :: c :: s) = includes (x :: y :: q) (c :: s).
Proof.
  intros H. cbn [includes startsWith]. rewrite H.
  cbn [andb]. now rewrite andb_false_r.
Qed.

(** The sentinel text, or any text of plain code units that begins with a
    bracket, is in a quoted text exactly when it is in the text. *)
Lemma includes_quote_chars_aux n :
  forall s, length s <= n ->
  forall q tail, forallb plain q = true ->
  includes (91%N :: q) (quote_chars s ++ 34%N :: tail) =
  includes (91%N :: q) s || includes (91%N :: q) tail.
Proof.
  induction n as [|n IH]; intros s Hn q tail Hq.
  - destruct s; [|cbn in Hn; lia]. reflexivity.
  - destruct s as [|c s]; [reflexivity|]. cbn [length] in Hn.
    assert (Hs : length s <= n) by lia.
    assert (Hesc : forall esc,
              N.eqb 91 c = false ->
              forallb (fun e => negb (N.eqb 91 e)) esc = true ->
              includes (91%N :: q) ((esc ++ quote_chars s) ++ 34%N :: tail) =
              includes (91%N :: q) (c :: s) || includes (91%N :: q) tail).
    { intros esc Hc He. rewrite <- app_assoc, includes_skip by exact He.
      rewrite (IH s Hs q tail Hq). now rewrite includes_cons_other. }
    rewrite quote_chars_cons.
    destruct (is_high c) eqn:Hh.
    { pose proof (is_high_not_bracket c Hh) as Hc.
      destruct s as [|d s'].
      - rewrite <- (app_nil_r (unicode_escape c)).
        change (@nil N) with (quote_chars []) at 1.
        apply Hesc; [exact Hc|apply unicode_escape_no_bracket].
      - destruct (is_low d) eqn:Hl.
        + pose proof (is_low_not_bracket d Hl) as Hd.
          cbn [app]. rewrite !includes_cons_other by assumption.
          apply IH; [cbn [length] in Hs; lia|exact Hq].
        + apply Hesc; [exact Hc|apply unicode_escape_no_bracket]. }
    destruct (is_low c) eqn:Hl.
    { apply Hesc; [now apply is_low_not_bracket|apply unicode_escape_no_bracket]. }
    destruct (N.eqb 91 c) eqn:Hc.
    + apply N.eqb_eq in Hc. subst c.
      change (quote_unit 91) with [91%N]. cbn [app].
      cbn [includes]. rewrite (IH s Hs q tail Hq).
      change (91%N :: quote_chars s ++ 34%N :: tail)
        with (quote_chars (91%N :: s) ++ 34%N :: tail).
      rewrite startsWith_quote_chars; [now rewrite orb_assoc|].
      cbn [forallb]. now rewrite Hq.
    + apply Hesc; [reflexivity|now apply quote_unit_no_bracket].
Qed.

Lemma includes_quote_chars_iff s q tail :
  forallb plain q = true ->
  includes (91%N :: q) (quote_chars s ++ 34%N :: tail) =
  includes (91%N :: q) s || includes (91%N :: q) tail.
Proof. apply (includes_quote_chars_aux (n := length s)). lia. Qed.

(** The text of a delta event holds the sentinel text exactly when the
    content does. *)
Lemma delta_event_includes content :
  includes (js "[DONE]") (delta_event content) = includes (js "[DONE]") content.
Proof.
  unfold delta_event, stringify_string.
  rewrite includes_data_prefix.
  change (js "[DONE]") with (91%N :: 68%N :: js "ONE]").
  replace (qq "{'choices':[{'delta':{'content':" ++
           (34%N :: quote_chars content ++ [34%N]) ++ qq "}}]}" ++ [10%N; 10%N])
    with (qq "{'choices':" ++
          91%N :: 123%N :: (qq "'delta':{'content':" ++ [34%N]) ++
          quote_chars content ++ 34%N :: qq "}}]}" ++ [10%N; 10%N]).
  - rewrite includes_skip by reflexivity.
    rewrite includes_cons_second by reflexivity.
    rewrite includes_cons_other by reflexivity.
    rewrite includes_skip by reflexivity.
    rewrite includes_quote_chars_iff by reflexivity.
    apply orb_false_r.
  - change (qq "{'choices':[{'delta':{'content':")
      with (qq "{'choices':" ++ 91%N :: 123%N :: qq "'delta':{'content':").
    rewrite <- !app_assoc. cbn [app]. rewrite <- !app_assoc. reflexivity.
Qed.

End PayloadFacts.

Import PayloadFacts.

(** ** The payload of a chunk *)

Module FramingFacts.

Import Json JsonQuote.

(** What [parse] makes of a text of which a value has been read. *)
Lemma parse_rest f text v rest :
  parse_value f text = Parsed v rest ->
  parse text = match skip_ws rest with [] => Some v | _ => None end.
Proof.
  intros H. unfold parse.
  assert (E : parse_value (fuel_for text) text = Parsed v rest).
  { destruct (Nat.le_gt_cases f (fuel_for text)) as [Hle|Hgt].
    - rewrite (proj1 (parse_more_fuel f) _ _ Hle); [exact H|].
      rewrite H. discriminate.
    - rewrite <- H. symmetry.
      apply (proj1 (parse_more_fuel (fuel_for text))); [lia|].
      apply JsonFacts.parse_total. }
  now rewrite E.
Qed.

(** The chunk object of a delta event, read at the head of a longer text. *)
Lemma delta_event_parse_rest content rest :
  code_units content ->
  parse_value 12
    (qq "{'choices':[{'delta':{'content':" ++ stringify_string content ++
     qq "}}]}" ++ rest) =
  Parsed (VObj [(js "choices",
                 VArr [VObj [(js "delta", VObj [(js "content", VStr content)])]])])
         rest.
Proof.
  intros Hc. unfold stringify_string.
  cbn -[quote_chars].
  rewrite <- app_assoc. cbn [app].
  rewrite (string_chars_quote _ Hc).
  reflexivity.
Qed.

Lemma pushed_data_payload payload :
  pushed (js "data: " ++ payload) =
  if includes (js "[DONE]") payload then []
  else match Json.parse (trim payload) with
       | Some chunkData =>
           match deltaContent chunkData with
           | Some content => [content]
           | None => []
           end
       | None => []
       end.
Proof.
  unfold pushed, event_json.
  now rewrite includes_data_prefix, startsWith_app, substring_data.
Qed.

End FramingFacts.

Import FramingFacts.

(** ** Delta events, read back *)

Module RoundTripFacts.

(** What a delta event is worth to the listener, by its content. *)
Lemma delta_event_pushed_content content :
  code_units content ->
  pushed (delta_event content) =
  if includes (js "[DONE]") content then []
  else match content with [] => [] | _ :: _ => [VStr content] end.
Proof.
  intros Hc. unfold pushed.
  rewrite delta_event_includes, (delta_event_json Hc).
  destruct (includes (js "[DONE]") content); [reflexivity|].
  now destruct content.
Qed.

Lemma joined_delta_events contents :
  Forall code_units contents ->
  joined (map delta_event contents) =
  Some (concat (filter (fun content => negb (includes (js "[DONE]") content)) contents)).
Proof.
  induction 1 as [|content contents Hc _ IH]; [reflexivity|].
  change (map delta_event (content :: contents))
    with ([delta_event content] ++ map delta_event contents).
  rewrite joined_app, IH. unfold joined at 1. cbn [flat_map].
  rewrite app_nil_r, (delta_event_pushed_content Hc). cbn [filter].
  destruct (includes (js "[DONE]") content); cbn [negb]; [reflexivity|].
  destruct content as [|c t]; [reflexivity|].
  cbn [join_empty toString concat]. now rewrite app_nil_r.
Qed.

End RoundTripFacts.

Import RoundTripFacts.

(** * Further properties

    What the code shows beside the claims: the outcomes of the handler and
    its error paths, the streaming branch, the listeners of the
    non-streaming branch, authentication, the other routes and the
    start-up. *)

(** ** The handler *)

(** X1. The handler never leaves a request without an outcome.  Either it
    returns having answered with a body, with no listener on any stream; or
    it returns having obtained the upstream stream and registered its
    listeners, the response head still unsent; or it throws
    [invalid media type] from its [catch] block, the status set to 500 and
    nothing sent, which happens to no request but a streaming one whose
    upstream call is rejected. *)
Theorem handler_answers_or_waits (E : env) (data : value) :
  exists r c,
    chat_completions E data fresh_conn = (r, c) /\
    (r = inl tt /\ is_answered c = true /\ waiting c = Idle /\
     listening_to_stream c = false \/
     r = inl tt /\ is_answered c = false /\ headersSent (res c) = false /\
     waiting c <> Idle /\ listening_to_stream c = true \/
     r = inr invalid_media_type /\ is_answered c = false /\
     headersSent (res c) = false /\ statusCode (res c) = 500%N /\
     waiting c = Idle /\ listening_to_stream c = false /\
     wants_stream data = true /\
     exists nb e, buildNotionRequest E data = inl nb /\
                  streamNotionResponse E nb = inr e).
Proof.
  rewrite (chat_completions_cases E data fresh_conn eq_refl eq_refl). cbv zeta.
  destruct (INITIALIZED_SUCCESSFULLY E); cbn [negb];
    [|eexists _, _; split; [reflexivity|]; left; repeat split].
  destruct (N.eqb (getValidCount E) 0);
    [eexists _, _; split; [reflexivity|]; left; repeat split|].
  destruct (is_nullish data);
    [eexists _, _; split; [reflexivity|]; left; repeat split|].
  destruct (has_messages data); cbn [negb];
    [|eexists _, _; split; [reflexivity|]; left; repeat split].
  destruct (buildNotionRequest E data) as [nb|e];
    [|eexists _, _; split; [reflexivity|]; left; repeat split].
  destruct (wants_stream data), (streamNotionResponse E nb) as [[]|e] eqn:Hs;
    eexists _, _; (split; [reflexivity|]).
  - right; left. repeat split; discriminate.
  - right; right. repeat split. exists nb, e. split; [reflexivity|exact Hs].
  - right; left. repeat split; discriminate.
  - left. repeat split.
Qed.

(** X2. The upstream is contacted exactly for the requests that pass
    every guard (system initialised, a valid cookie, a non-empty
    [messages] array, the request translated), and only with the body the
    translator returned. *)
Theorem upstream_is_called_iff (E : env) (data : value) :
  (upstream_called (snd (chat_completions E data fresh_conn)) = true <->
   INITIALIZED_SUCCESSFULLY E = true /\ getValidCount E <> 0%N /\
   has_messages data = true /\ exists nb, buildNotionRequest E data = inl nb) /\
  (forall nb,
     In (Call_streamNotionResponse nb) (calls (snd (chat_completions E data fresh_conn))) ->
     buildNotionRequest E data = inl nb).
Proof.
  rewrite (chat_completions_cases E data fresh_conn eq_refl eq_refl). cbn [snd].
  destruct (INITIALIZED_SUCCESSFULLY E); cbn [negb].
  2: { split; [split; [discriminate|intros (H & _); discriminate]|intros nb []]. }
  destruct (N.eqb (getValidCount E) 0) eqn:Hn.
  { apply N.eqb_eq in Hn. split.
    - split; [discriminate|]. intros (_ & H & _). contradiction.
    - cbn. intros nb [H|[]]. discriminate. }
  apply N.eqb_neq in Hn.
  destruct (is_nullish data) eqn:Hnull.
  { split.
    - split; [discriminate|]. intros (_ & _ & H & _).
      apply has_messages_not_nullish in H. congruence.
    - cbn. intros nb [H|[]]. discriminate. }
  destruct (has_messages data); cbn [negb].
  2: { split.
       - split; [discriminate|]. intros (_ & _ & H & _). discriminate.
       - cbn. intros nb [H|[]]. discriminate. }
  destruct (buildNotionRequest E data) as [nb|e].
  2: { split.
       - split; [discriminate|]. intros (_ & _ & _ & nb & H). discriminate.
       - cbn. intros nb [H|[H|[]]]; discriminate. }
  split.
  - split; [intros _; repeat split; eauto|intros _].
    destruct (wants_stream data), (streamNotionResponse E nb) as [[]|e]; reflexivity.
  - intros nb'.
    destruct (wants_stream data), (streamNotionResponse E nb) as [[]|e]; cbn;
      intuition (try discriminate; congruence).
Qed.

(** X3. Once the system is initialised and a cookie is valid, the
    answer is 400 exactly when the body is neither [undefined] nor [null]
    and its [messages] is not a non-empty array; the elements of
    [messages] and the other fields are not looked at. *)
Theorem bad_request_iff (E : env) (data : value) :
  INITIALIZED_SUCCESSFULLY E = true ->
  getValidCount E <> 0%N ->
  (statusCode (res (snd (chat_completions E data fresh_conn))) = 400%N <->
   data <> VUndefined /\ data <> VNull /\
   ~ exists m ms, get (js "messages") data = inl (VArr (m :: ms))).
Proof.
  intros Hi Hn. apply N.eqb_neq in Hn.
  rewrite (chat_completions_cases E data fresh_conn eq_refl eq_refl).
  rewrite Hi, Hn. cbn [negb snd].
  assert (Hhas : has_messages data = true <->
                 exists m ms, get (js "messages") data = inl (VArr (m :: ms))).
  { unfold has_messages. split.
    - destruct (get (js "messages") data) as [[| | | | |[|m ms]|]|]; try discriminate.
      intros _. now exists m, ms.
    - now intros (m & ms & ->). }
  destruct (is_nullish data) eqn:Hnull.
  - split; [discriminate|]. intros (H1 & H2 & _).
    destruct data; try discriminate; congruence.
  - destruct (has_messages data) eqn:Hm; cbn [negb].
    + split.
      * destruct (buildNotionRequest E data) as [nb|e]; [|discriminate].
        destruct (wants_stream data), (streamNotionResponse E nb); discriminate.
      * intros (_ & _ & H). exfalso. apply H, Hhas. reflexivity.
    + split; [|reflexivity]. intros _.
      repeat split; try (intros ->; discriminate).
      intros H. apply Hhas in H. discriminate.
Qed.

Lemma bad_request_iff_witness :
  statusCode (res (snd (chat_completions example_env
                          (VObj [(js "messages", VStr (js "Hi"))]) fresh_conn)))
    = 400%N /\
  statusCode (res (snd (chat_completions example_env
                          (VObj [(js "messages", VArr [VNum (of_Z 1)])]) fresh_conn)))
    <> 400%N.
Proof.
  split.
  - apply (proj2 (@bad_request_iff example_env
                    (VObj [(js "messages", VStr (js "Hi"))]) eq_refl
                    ltac:(discriminate))).
    repeat split; try discriminate. intros (m & ms & H). discriminate.
  - intros H.
    apply (proj1 (@bad_request_iff example_env
                    (VObj [(js "messages", VArr [VNum (of_Z 1)])]) eq_refl
                    ltac:(discriminate))) in H.
    destruct H as (_ & _ & H). apply H. eexists _, _. reflexivity.
Defined.

(** X4. A request whose body is [undefined] or [null] is answered 500:
    reading [requestData.model] throws a [TypeError], which the outer
    [catch] turns into an internal server error that carries the message
    of the exception; the translator and the upstream are not reached. *)
Theorem missing_body_answer (E : env) (data : value) :
  INITIALIZED_SUCCESSFULLY E = true ->
  getValidCount E <> 0%N ->
  data = VUndefined \/ data = VNull ->
  exists c,
    chat_completions E data fresh_conn = (inl tt, c) /\
    statusCode (res c) = 500%N /\
    body (res c) =
      Some (error_body
              (js "Internal server error: Cannot read properties of " ++
               value_name data ++ js " (reading 'model')")
              "server_error") /\
    calls c = [Call_getValidCount] /\
    waiting c = Idle.
Proof.
  intros Hi Hn Hd. apply N.eqb_neq in Hn.
  rewrite (chat_completions_cases E data fresh_conn eq_refl eq_refl).
  rewrite Hi, Hn.
  destruct Hd as [-> | ->]; eexists; (split; [reflexivity|]); repeat split.
Qed.

Lemma missing_body_answer_witness :
  exists c,
    chat_completions example_env VUndefined fresh_conn = (inl tt, c) /\
    body (res c) =
      Some (error_body
              (js "Internal server error: Cannot read properties of undefined (reading 'model')")
              "server_error").
Proof.
  destruct (@missing_body_answer example_env VUndefined)
    as (c & H1 & _ & H2 & _); try reflexivity; [discriminate|now left|].
  exists c. split; assumption.
Defined.

(** X5. When [buildNotionRequest] throws, the answer is 500 with the
    message of the exception after [Internal server error: ]; the upstream
    is not called, no header has been set (a streaming request included)
    and no listener is registered. *)
Theorem translator_failure_answer (E : env) (data : value) (error : exn) :
  INITIALIZED_SUCCESSFULLY E = true ->
  getValidCount E <> 0%N ->
  has_messages data = true ->
  buildNotionRequest E data = inr error ->
  exists c,
    chat_completions E data fresh_conn = (inl tt, c) /\
    statusCode (res c) = 500%N /\
    body (res c) =
      Some (error_body (js "Internal server error: " ++ message error) "server_error") /\
    headers (res c) = [] /\
    calls c = [Call_getValidCount; Call_buildNotionRequest data] /\
    waiting c = Idle.
Proof.
  intros Hi Hn Hm Hb. apply N.eqb_neq in Hn.
  rewrite (chat_completions_cases E data fresh_conn eq_refl eq_refl).
  rewrite Hi, Hn, (has_messages_not_nullish _ Hm), Hm, Hb.
  eexists. split; [reflexivity|]. repeat split.
Qed.

Lemma translator_failure_answer_witness :
  exists c,
    chat_completions failing_translator_env (example_request true) fresh_conn
      = (inl tt, c) /\
    statusCode (res c) = 500%N /\
    body (res c) =
      Some (error_body (js "Internal server error: Unsupported model") "server_error") /\
    upstream_called c = false.
Proof.
  destruct (@translator_failure_answer failing_translator_env (example_request true)
              (JsError (js "Unsupported model")))
    as (c & H1 & H2 & H3 & _ & H4 & _); try reflexivity; [discriminate|].
  exists c. repeat split; try assumption.
  unfold upstream_called. rewrite H4. reflexivity.
Defined.

(** X6. When [streamNotionResponse] is rejected, no listener is
    registered, the call is not made again and the status is set to 500.
    A non-streaming request is answered with the message of the exception.
    A streaming request is not answered: the three streaming headers have
    been set by then, [res.json] of the [catch] block throws
    [invalid media type] under them, and the handler throws, no body sent
    and the head unsent. *)
Theorem upstream_failure_answer (E : env) (data nb : value) (error : exn) :
  INITIALIZED_SUCCESSFULLY E = true ->
  getValidCount E <> 0%N ->
  has_messages data = true ->
  buildNotionRequest E data = inl nb ->
  streamNotionResponse E nb = inr error ->
  exists r c,
    chat_completions E data fresh_conn = (r, c) /\
    statusCode (res c) = 500%N /\
    calls c = [Call_getValidCount; Call_buildNotionRequest data;
               Call_streamNotionResponse nb] /\
    waiting c = Idle /\
    if wants_stream data then
      r = inr invalid_media_type /\
      body (res c) = None /\
      headersSent (res c) = false /\
      headers (res c) = stream_headers
    else
      r = inl tt /\
      body (res c) =
        Some (error_body (js "Internal server error: " ++ message error)
                "server_error") /\
      headersSent (res c) = true /\
      headers (res c) = [].
Proof.
  intros Hi Hn Hm Hb Hs. apply N.eqb_neq in Hn.
  rewrite (chat_completions_cases E data fresh_conn eq_refl eq_refl).
  rewrite Hi, Hn, (has_messages_not_nullish _ Hm), Hm, Hb, Hs.
  cbn [negb]. cbv zeta.
  destruct (wants_stream data); eexists _, _; (split; [reflexivity|]);
    repeat split.
Qed.

Lemma upstream_failure_answer_witness :
  (exists c,
     chat_completions failing_upstream_env (example_request false) fresh_conn
       = (inl tt, c) /\
     body (res c) =
       Some (error_body (js "Internal server error: socket hang up") "server_error")) /\
  (exists c,
     chat_completions failing_upstream_env (example_request true) fresh_conn
       = (inr invalid_media_type, c) /\
     statusCode (res c) = 500%N /\
     body (res c) = None /\
     headersSent (res c) = false /\
     getHeader (js "Content-Type") (headers (res c)) = Some (js "text-event-stream")).
Proof.
  split.
  - destruct (@upstream_failure_answer failing_upstream_env (example_request false)
                (example_request false) (JsError (js "socket hang up")))
      as (r & c & H1 & _ & _ & _ & H2); try reflexivity; [discriminate|].
    change (wants_stream (example_request false)) with false in H2.
    destruct H2 as (-> & H2 & _).
    exists c. split; assumption.
  - destruct (@upstream_failure_answer failing_upstream_env (example_request true)
                (example_request true) (JsError (js "socket hang up")))
      as (r & c & H1 & H2 & _ & _ & H3); try reflexivity; [discriminate|].
    change (wants_stream (example_request true)) with true in H3.
    destruct H3 as (-> & H3 & H4 & H5).
    exists c. repeat split; try assumption.
    rewrite H5. reflexivity.
Defined.

(** ** The streaming branch *)

(** X7. In a streaming exchange the chunks of the upstream stream are
    written to the response as they are and in order, the sentinel and
    malformed chunks included: nothing is parsed; the status stays 200,
    the headers are the three streaming headers and no JSON body is sent,
    whether the stream then ends or fails: an error of the stream is not
    reported to the client. *)
Theorem streaming_passes_chunks_through (E : env) (data nb : value)
    (chunkStrs : list jsstring) (ev : event) :
  INITIALIZED_SUCCESSFULLY E = true ->
  getValidCount E <> 0%N ->
  has_messages data = true ->
  wants_stream data = true ->
  buildNotionRequest E data = inl nb ->
  streamNotionResponse E nb = inl tt ->
  terminal ev = true ->
  exists c,
    (chat_completions E data ;;; on_events E (map Data chunkStrs ++ [ev]))%js fresh_conn
      = (inl tt, c) /\
    written (res c) = chunkStrs /\
    body (res c) = None /\
    statusCode (res c) = 200%N /\
    headers (res c) = stream_headers /\
    calls c = [Call_getValidCount; Call_buildNotionRequest data;
               Call_streamNotionResponse nb; Call_stream_on "error";
               Call_stream_pipe; Call_req_on "close"].
Proof.
  intros Hi Hn Hm Hw Hb Hs Hev.
  unfold bind at 1. rewrite (streaming_run E data Hi Hn Hm Hw Hb Hs).
  rewrite on_events_app. unfold bind at 1.
  rewrite streaming_data by reflexivity.
  destruct ev; try discriminate;
    (eexists; split; [reflexivity|]); repeat split.
Qed.

Lemma streaming_passes_chunks_through_witness :
  (exists c,
     (chat_completions example_env (example_request true) ;;;
      on_events example_env (map Data Hel_lo_DONE ++ [End]))%js fresh_conn = (inl tt, c) /\
     written (res c) = Hel_lo_DONE /\
     body (res c) = None) /\
  (exists c,
     (chat_completions example_env (example_request true) ;;;
      on_events example_env
        (map Data [Hel_event; not_json] ++ [Error (JsError (js "socket hang up"))]))%js
       fresh_conn = (inl tt, c) /\
     written (res c) = [Hel_event; not_json] /\
     body (res c) = None).
Proof.
  split.
  - destruct (@streaming_passes_chunks_through example_env (example_request true)
                (example_request true) Hel_lo_DONE End)
      as (c & H1 & H2 & H3 & _); try reflexivity; [discriminate|].
    exists c. repeat split; assumption.
  - destruct (@streaming_passes_chunks_through example_env (example_request true)
                (example_request true) [Hel_event; not_json]
                (Error (JsError (js "socket hang up"))))
      as (c & H1 & H2 & H3 & _); try reflexivity; [discriminate|].
    exists c. repeat split; assumption.
Defined.

(** X8. In a streaming exchange [stream.end()] is called by the [close]
    listener of the request and by nothing else: whatever the events after
    the handler, it is called once for each [close] the request emits.
    Without one the upstream stream is never ended: not by the end or the
    failure of the stream, and not by a client that goes away (with the
    Node of the image the request has emitted [close] by the time the
    listener is registered). *)
Theorem stream_end_only_on_request_close (E : env) (data nb : value)
    (evs : list event) :
  INITIALIZED_SUCCESSFULLY E = true ->
  getValidCount E <> 0%N ->
  has_messages data = true ->
  wants_stream data = true ->
  buildNotionRequest E data = inl nb ->
  streamNotionResponse E nb = inl tt ->
  exists c,
    (chat_completions E data ;;; on_events E evs)%js fresh_conn = (inl tt, c) /\
    calls c =
      [Call_getValidCount; Call_buildNotionRequest data;
       Call_streamNotionResponse nb; Call_stream_on "error";
       Call_stream_pipe; Call_req_on "close"] ++
      repeat Call_stream_end (length (filter is_close evs)) /\
    (In Call_stream_end (calls c) <-> In Close evs).
Proof.
  intros Hi Hn Hm Hw Hb Hs.
  unfold bind at 1. rewrite (streaming_run E data Hi Hn Hm Hw Hb Hs).
  destruct (streaming_calls E evs (streaming_conn data nb) eq_refl)
    as (c & H1 & _ & H2).
  exists c. split; [exact H1|]. split; [exact H2|].
  rewrite H2, in_app_iff. cbn [calls streaming_conn]. split.
  - intros [H|H].
    + cbn in H. intuition discriminate.
    + destruct (filter is_close evs) as [|ev l] eqn:Hf; [destruct H|].
      assert (Hin : In ev (filter is_close evs)) by (rewrite Hf; now left).
      apply filter_In in Hin as [Hin Hc]. now destruct ev.
  - intros H. right.
    assert (Hin : In Close (filter is_close evs)) by (apply filter_In; now split).
    destruct (filter is_close evs); [contradiction|]. now left.
Qed.

Lemma stream_end_only_on_request_close_witness :
  exists c,
    (chat_completions example_env (example_request true) ;;;
     on_events example_env [Data Hel_event; Disconnect; End])%js fresh_conn
      = (inl tt, c) /\
    ~ In Call_stream_end (calls c).
Proof.
  destruct (@stream_end_only_on_request_close example_env (example_request true)
              (example_request true) [Data Hel_event; Disconnect; End])
    as (c & H1 & _ & H3); try reflexivity; [discriminate|].
  exists c. split; [exact H1|].
  intros H. apply H3 in H. cbn in H. intuition discriminate.
Defined.

(** ** The listeners of the non-streaming branch *)

(** X9. The data listener only ever appends: it leaves the array as it
    is, or adds one element at its end, and then the chunk starts with
    [data: ], does not contain [[DONE]], its payload is a JSON text, and
    the element is the value at [choices[0].delta.content], which is
    truthy (not [null], an empty string or zero). *)
Theorem data_listener_appends_at_most_one (chunkStr : jsstring) (chunks : list value) :
  on_data chunkStr chunks = chunks \/
  exists chunkData content,
    startsWith (js "data: ") chunkStr = true /\
    includes (js "[DONE]") chunkStr = false /\
    Json.parse (trim (substring 6 chunkStr)) = Some chunkData /\
    choices_0_delta_content chunkData = inl content /\
    truthy content = true /\
    on_data chunkStr chunks = chunks ++ [content].
Proof.
  rewrite on_data_pushed. unfold pushed, event_json, deltaContent.
  destruct (includes (js "[DONE]") chunkStr); [left; apply app_nil_r|].
  destruct (startsWith (js "data: ") chunkStr); [|left; apply app_nil_r].
  destruct (Json.parse (trim (substring 6 chunkStr))) as [chunkData|];
    [|left; apply app_nil_r].
  destruct (choices_0_delta_content chunkData) as [content|e] eqn:Hc;
    [|left; apply app_nil_r].
  destruct (truthy content) eqn:Ht; [|left; apply app_nil_r].
  right. exists chunkData, content. repeat split; assumption.
Qed.

(** X10. White space around the payload does not count: after the prefix
    [data: ], any white space [trim] strips (the line ends of the event
    framing among it) before and after the payload leaves the listener's
    result as it would be without it. *)
Theorem white_space_around_payload (ws1 payload ws2 : jsstring) (chunks : list value) :
  forallb is_trim_space ws1 = true ->
  forallb is_trim_space ws2 = true ->
  on_data (js "data: " ++ ws1 ++ payload ++ ws2) chunks =
  on_data (js "data: " ++ payload) chunks.
Proof.
  intros H1 H2. rewrite !on_data_pushed, !pushed_data_payload.
  rewrite (trim_spaces _ payload _ H1 H2).
  change (js "[DONE]") with (91%N :: js "DONE]").
  rewrite (includes_spaces_app 91 (js "DONE]") ws1 _ eq_refl H1).
  rewrite (includes_app_spaces 91 (js "DONE]") payload ws2 eq_refl H2).
  reflexivity.
Qed.

Lemma white_space_around_payload_witness :
  on_data (js "data: " ++ [32; 9]%N ++ qq "{'choices':[{'delta':{'content':'Hel'}}]}" ++
           [13; 10; 13; 10]%N) [] =
  [VStr (js "Hel")].
Proof.
  rewrite (@white_space_around_payload [32; 9]%N
             (qq "{'choices':[{'delta':{'content':'Hel'}}]}") [13; 10; 13; 10]%N []
             eq_refl eq_refl).
  reflexivity.
Defined.

(** X11. A chunk that holds a complete delta event followed by anything
    but white space (a second event read in the same chunk, say) adds
    nothing: the payload is no JSON text ([JSON.parse] throws), and the
    event is lost with what follows it. *)
Theorem text_after_an_event_loses_it (content tail : jsstring) (chunks : list value) :
  code_units content ->
  forallb is_trim_space tail = false ->
  on_data (delta_event content ++ tail) chunks = chunks.
Proof.
  intros Hc Ht. rewrite on_data_pushed.
  assert (Hp : pushed (delta_event content ++ tail) = []); [|now rewrite Hp, app_nil_r].
  unfold delta_event. rewrite <- !app_assoc. rewrite pushed_data_payload.
  destruct (includes _ _); [reflexivity|].
  set (J := qq "{'choices':[{'delta':{'content':").
  assert (Htrim : trim (J ++ JsonQuote.stringify_string content ++ qq "}}]}" ++
                        [10%N; 10%N] ++ tail) =
                  J ++ JsonQuote.stringify_string content ++ qq "}}]}" ++
                  [10%N; 10%N] ++ trimEnd tail).
  { unfold trim. rewrite trimStart_keep by reflexivity.
    change (trimStart J) with J.
    rewrite !app_assoc. rewrite trimEnd_keep by exact Ht.
    reflexivity. }
  rewrite Htrim. subst J.
  rewrite (@parse_rest _ _ _ _ (delta_event_parse_rest ([10%N; 10%N] ++ trimEnd tail) Hc)).
  destruct (trimEnd_last tail Ht) as (b & c & -> & Hcs).
  cbn [app Json.skip_ws Json.is_ws].
  pose proof (skip_ws_not_nil b c [] Hcs) as Hne.
  destruct (Json.skip_ws (b ++ [c])); [contradiction|reflexivity].
Qed.

Lemma text_after_an_event_loses_it_witness :
  on_data (delta_event (js "Hel") ++ delta_event (js "lo")) [] = [] /\
  on_data (delta_event (js "Hel")) [] = [VStr (js "Hel")].
Proof.
  split; [|reflexivity].
  apply (@text_after_an_event_loses_it (js "Hel") (delta_event (js "lo")) []).
  - repeat constructor.
  - reflexivity.
Defined.

(** X12. Round trip. When the upstream writes each content as a delta
    event with [JSON.stringify] and ends with the sentinel, the completion
    holds the contents back, unchanged and in order, whatever code units
    they are made of (quotes, backslashes, control characters, surrogates),
    except the contents that contain the text [[DONE]], which are
    dropped. *)
Theorem aggregate_round_trip (E : env) (data nb : value) (contents : list jsstring) :
  INITIALIZED_SUCCESSFULLY E = true ->
  getValidCount E <> 0%N ->
  has_messages data = true ->
  wants_stream data = false ->
  buildNotionRequest E data = inl nb ->
  streamNotionResponse E nb = inl tt ->
  Forall code_units contents ->
  answered (snd (aggregate E data
                   (map delta_event contents ++ [js "data: [DONE]"]) fresh_conn)) =
  Some (concat (filter (fun content => negb (includes (js "[DONE]") content)) contents),
        js "stop").
Proof.
  intros Hi Hn Hm Hw Hb Hs Hc.
  destruct (get_not_nullish (js "model") _ (has_messages_not_nullish _ Hm))
    as [model Hmodel].
  rewrite (aggregate_joined E data _ Hi Hn Hm Hw Hb Hs Hmodel).
  rewrite joined_app, (joined_delta_events Hc).
  change (joined [js "data: [DONE]"]) with (Some (@nil N)).
  cbv zeta. cbn [snd]. rewrite answered_fullResponse. now rewrite app_nil_r.
Qed.

Lemma aggregate_round_trip_witness :
  answered (snd (aggregate example_env (example_request false)
                   (map delta_event
                      [qq "He said 'hi'"; [10; 55357; 56832; 92]%N; js "[DONE]"; js "!"] ++
                    [js "data: [DONE]"]) fresh_conn)) =
  Some (qq "He said 'hi'" ++ [10; 55357; 56832; 92]%N ++ js "!", js "stop").
Proof.
  rewrite (@aggregate_round_trip example_env (example_request false)
             (example_request false)
             [qq "He said 'hi'"; [10; 55357; 56832; 92]%N; js "[DONE]"; js "!"]);
    try reflexivity.
  - discriminate.
  - repeat constructor.
Defined.

(** X13. The non-streaming answer for delta contents of any JSON type:
    the content is [chunks.join('')] of the collected values (a number in
    its JavaScript notation, an object as [[object Object]], an array as
    its elements separated by commas).  When the conversion throws (an
    object with a [toString] key), the end listener throws a [TypeError]
    and no response is sent. *)
Theorem aggregate_any_content (E : env) (data nb : value)
    (chunkStrs : list jsstring) :
  INITIALIZED_SUCCESSFULLY E = true ->
  getValidCount E <> 0%N ->
  has_messages data = true ->
  wants_stream data = false ->
  buildNotionRequest E data = inl nb ->
  streamNotionResponse E nb = inl tt ->
  (forall content,
     join_empty (flat_map pushed chunkStrs) = Some content ->
     exists c model,
       aggregate E data chunkStrs fresh_conn = (inl tt, c) /\
       statusCode (res c) = 200%N /\
       get (js "model") data = inl model /\
       body (res c) = Some (fullResponse E model content)) /\
  (join_empty (flat_map pushed chunkStrs) = None ->
   exists c,
     aggregate E data chunkStrs fresh_conn =
       (inr (JsError (js "Cannot convert object to primitive value")), c) /\
     body (res c) = None /\
     headersSent (res c) = false).
Proof.
  intros Hi Hn Hm Hw Hb Hs.
  destruct (get_not_nullish (js "model") _ (has_messages_not_nullish _ Hm))
    as [model Hmodel].
  rewrite (aggregate_joined E data chunkStrs Hi Hn Hm Hw Hb Hs Hmodel).
  unfold joined. cbv zeta. split.
  - intros content ->. eexists _, model. split; [reflexivity|].
    repeat split. exact Hmodel.
  - intros ->. eexists. split; [reflexivity|]. split; reflexivity.
Qed.

Lemma aggregate_any_content_witness :
  (exists c model,
     aggregate example_env (example_request false) mixed_contents fresh_conn
       = (inl tt, c) /\
     body (res c) =
       Some (fullResponse example_env model (js "1.5true[object Object]x,,y"))) /\
  (exists c,
     aggregate example_env (example_request false) toString_content fresh_conn
       = (inr (JsError (js "Cannot convert object to primitive value")), c) /\
     body (res c) = None).
Proof.
  split.
  - destruct (@aggregate_any_content example_env (example_request false)
                (example_request false) mixed_contents eq_refl
                ltac:(discriminate) eq_refl eq_refl eq_refl eq_refl) as [H _].
    destruct (H (js "1.5true[object Object]x,,y")) as (c & model & H1 & _ & _ & H2);
      [vm_compute; reflexivity|].
    exists c, model. split; assumption.
  - destruct (@aggregate_any_content example_env (example_request false)
                (example_request false) toString_content eq_refl
                ltac:(discriminate) eq_refl eq_refl eq_refl eq_refl) as [_ H].
    destruct H as (c & H1 & H2 & _); [vm_compute; reflexivity|].
    exists c. split; assumption.
Defined.

(** X14. Aggregation goes through concatenation: the content answered
    for the chunks of one stream followed by the chunks of another is the
    content answered for the first followed by the content answered for
    the second. *)
Theorem content_of_concatenated_streams (E : env) (data nb : value)
    (chunkStrs1 chunkStrs2 : list jsstring) (content1 content2 : jsstring) :
  INITIALIZED_SUCCESSFULLY E = true ->
  getValidCount E <> 0%N ->
  has_messages data = true ->
  wants_stream data = false ->
  buildNotionRequest E data = inl nb ->
  streamNotionResponse E nb = inl tt ->
  answered (snd (aggregate E data chunkStrs1 fresh_conn)) = Some (content1, js "stop") ->
  answered (snd (aggregate E data chunkStrs2 fresh_conn)) = Some (content2, js "stop") ->
  answered (snd (aggregate E data (chunkStrs1 ++ chunkStrs2) fresh_conn)) =
    Some (content1 ++ content2, js "stop").
Proof.
  intros Hi Hn Hm Hw Hb Hs.
  destruct (get_not_nullish (js "model") _ (has_messages_not_nullish _ Hm))
    as [model Hmodel].
  rewrite !(aggregate_joined E data _ Hi Hn Hm Hw Hb Hs Hmodel).
  rewrite joined_app. cbv zeta.
  destruct (joined chunkStrs1) as [x|]; [|discriminate].
  destruct (joined chunkStrs2) as [y|]; [|discriminate].
  cbn [snd]. rewrite !answered_fullResponse.
  now intros [= ->] [= ->].
Qed.

Lemma content_of_concatenated_streams_witness :
  answered (snd (aggregate example_env (example_request false)
                   ([Hel_event] ++ mixed_contents) fresh_conn)) =
  Some (js "Hel" ++ js "1.5true[object Object]x,,y", js "stop").
Proof.
  apply (@content_of_concatenated_streams example_env (example_request false)
           (example_request false) [Hel_event] mixed_contents);
    try reflexivity.
  discriminate.
Defined.

(** X15. When the upstream stream fails in a non-streaming exchange,
    the answer is 500 with the fixed message [Stream processing failed]
    (and no [type] field): the content collected so far and the message of
    the error are not sent. *)
Theorem stream_error_answer (E : env) (data nb : value)
    (chunkStrs : list jsstring) (error : exn) :
  INITIALIZED_SUCCESSFULLY E = true ->
  getValidCount E <> 0%N ->
  has_messages data = true ->
  wants_stream data = false ->
  buildNotionRequest E data = inl nb ->
  streamNotionResponse E nb = inl tt ->
  exists c,
    (chat_completions E data ;;;
     on_events E (map Data chunkStrs ++ [Error error]))%js fresh_conn = (inl tt, c) /\
    statusCode (res c) = 500%N /\
    body (res c) =
      Some (VObj [(js "error",
                   VObj [(js "message", VStr (js "Stream processing failed"))])]) /\
    headersSent (res c) = true.
Proof.
  intros Hi Hn Hm Hw Hb Hs.
  unfold bind at 1. rewrite (aggregating_run E data Hi Hn Hm Hw Hb Hs).
  rewrite on_events_app. unfold bind at 1.
  rewrite (@on_events_data E chunkStrs data [] (aggregating_conn data nb) eq_refl).
  eexists. split; [reflexivity|]. repeat split.
Qed.

Lemma stream_error_answer_witness :
  exists c,
    (chat_completions example_env (example_request false) ;;;
     on_events example_env
       (map Data [Hel_event] ++ [Error (JsError (js "socket hang up"))]))%js fresh_conn
      = (inl tt, c) /\
    statusCode (res c) = 500%N /\
    answered c = None.
Proof.
  destruct (@stream_error_answer example_env (example_request false)
              (example_request false) [Hel_event] (JsError (js "socket hang up")))
    as (c & H1 & H2 & H3 & _); try reflexivity; [discriminate|].
  exists c. repeat split; try assumption.
  unfold answered. rewrite H3. reflexivity.
Defined.

(** X16. In the non-streaming branch the first [end] or [error] event
    decides the response: whatever events come after it, the response is
    the one that event left. *)
Theorem first_end_or_error_decides (E : env) (pre rest : list event) (ev : event)
    (c : conn) :
  not_streaming c = true ->
  forallb (fun ev => negb (terminal ev)) pre = true ->
  terminal ev = true ->
  res (snd (on_events E (pre ++ ev :: rest) c)) =
  res (snd (on_events E (pre ++ [ev]) c)).
Proof.
  intros Hns Hq Hev.
  rewrite !on_events_app. unfold bind.
  destruct (on_events_quiet E pre c Hns Hq) as (c1 & -> & _ & Hns1).
  rewrite !on_events_cons.
  destruct (waiting c1) eqn:Hw.
  - unfold on_event. rewrite Hw. cbn. now rewrite on_events_idle.
  - unfold not_streaming in Hns1. rewrite Hw in Hns1. discriminate.
  - assert (Hw' : waiting c1 <> Idle) by congruence.
    destruct (on_event_terminal E ev c1 Hev Hns1 Hw') as [[e He]|Hs];
      destruct (on_event_not_streaming E ev c1 Hns1) as [Hns2 _];
      destruct (on_event E ev c1) as [[[]|e'] c2]; cbn [fst snd] in *;
      try discriminate; try reflexivity.
    now rewrite on_events_sent_res.
Qed.

Lemma first_end_or_error_decides_witness :
  res (snd (on_events example_env
              ([Data Hel_event; Close] ++
               Error (JsError (js "reset")) :: [Data Hel_event; End])
              (now_waiting fresh_conn (Aggregating (example_request false) [])))) =
  res (snd (on_events example_env
              ([Data Hel_event; Close] ++ [Error (JsError (js "reset"))])
              (now_waiting fresh_conn (Aggregating (example_request false) [])))).
Proof.
  exact (@first_end_or_error_decides example_env [Data Hel_event; Close]
           [Data Hel_event; End] (Error (JsError (js "reset")))
           (now_waiting fresh_conn (Aggregating (example_request false) []))
           eq_refl eq_refl eq_refl).
Defined.

(** X17. Once the head of the response has gone out, no event changes
    the status, the headers or the body, in either mode; the chunks
    written so far stay, and more can only be added after them. *)
Theorem sent_response_is_final (E : env) (evs : list event) (c : conn) :
  headersSent (res c) = true ->
  statusCode (res (snd (on_events E evs c))) = statusCode (res c) /\
  headers (res (snd (on_events E evs c))) = headers (res c) /\
  body (res (snd (on_events E evs c))) = body (res c) /\
  exists more, written (res (snd (on_events E evs c))) = written (res c) ++ more.
Proof.
  intros Hs. destruct (on_events_sent E evs c Hs) as (_ & H). exact H.
Qed.

Lemma sent_response_is_final_witness :
  body (res (snd (on_events example_env
                    [Data Hel_event; End; Error (JsError (js "late")); Close]
                    (answered_with
                       (now_waiting fresh_conn (Aggregating (example_request false) []))
                       500 stream_failed)))) =
  Some stream_failed.
Proof.
  exact (proj1 (proj2 (proj2
           (@sent_response_is_final example_env
              [Data Hel_event; End; Error (JsError (js "late")); Close]
              (answered_with
                 (now_waiting fresh_conn (Aggregating (example_request false) []))
                 500 stream_failed)
              eq_refl)))).
Defined.

(** ** Authentication *)

(** X18. A secret that contains a space can never be presented: the
    token is cut at the second space of the header, so with such a
    [PROXY_AUTH_TOKEN] every request to an authenticated route is answered
    401, whatever its header (the middleware runs first: the response has
    not been sent and has no Content-Type of its own yet). *)
Theorem secret_with_a_space_locks_out (P : option jsstring) (E : env)
    (getStatus : value) (timestamp : jsstring) (ep : endpoint) (req : request)
    (c : conn) :
  In 32%N (EXPECTED_TOKEN P) ->
  authenticated ep = true ->
  headersSent (res c) = false ->
  getHeader (js "Content-Type") (headers (res c)) = None ->
  exists msg,
    serve P E getStatus timestamp ep req c =
    (inl tt, answered_with c 401 (error_body msg "authentication_error")).
Proof.
  intros Hin Hep Hs Hct. unfold serve. rewrite Hep. unfold bind.
  rewrite (authenticate_cases P _ _ Hs (no_Content_Type_has_media_type _ Hct)).
  rewrite (secret_with_space_rejected _ (authorization req) Hin).
  destruct (authorization req) as [s|].
  - destruct (startsWith (js "Bearer ") s); eexists; reflexivity.
  - eexists; reflexivity.
Qed.

Lemma secret_with_a_space_locks_out_witness :
  exists msg,
    serve secret_with_space example_env VNull [] GET_v1_models
      {| authorization := Some (js "Bearer a b"); req_body := VUndefined |} fresh_conn =
    (inl tt, answered_with fresh_conn 401 (error_body msg "authentication_error")).
Proof.
  apply (@secret_with_a_space_locks_out secret_with_space example_env VNull []
           GET_v1_models
           {| authorization := Some (js "Bearer a b"); req_body := VUndefined |}
           fresh_conn).
  - right. now left.
  - reflexivity.
  - reflexivity.
  - reflexivity.
Defined.

(** X19. The secret is never empty (an empty [PROXY_AUTH_TOKEN] falls
    back to [default_token]), so a header with an empty token, such as
    [Bearer ] alone, is refused whatever the configuration. *)
Theorem empty_token_is_refused (P : option jsstring) :
  EXPECTED_TOKEN P <> [] /\
  EXPECTED_TOKEN (Some []) = js "default_token" /\
  (forall s c, token_of s = Some [] -> fst (authenticate P (Some s) c) <> inl true) /\
  (forall c, fst (authenticate P (Some (js "Bearer ")) c) <> inl true).
Proof.
  assert (H : forall s c, token_of s = Some [] ->
                          fst (authenticate P (Some s) c) <> inl true).
  { intros s c Ht Hpass.
    apply authenticate_true_iff, rejected_false_iff in Hpass
      as (s' & [= <-] & _ & Ht').
    rewrite Ht in Ht'. injection Ht' as Ht'.
    now apply (EXPECTED_TOKEN_not_empty P). }
  repeat split.
  - apply EXPECTED_TOKEN_not_empty.
  - exact H.
  - intros c. now apply H.
Qed.

(** X20. For a secret without a space, the headers that authenticate
    are [Bearer ] followed by the secret, and that text followed by a
    space and anything: what comes after a second space is ignored. *)
Theorem accepted_headers (P : option jsstring) (s : jsstring) (c : conn) :
  ~ In 32%N (EXPECTED_TOKEN P) ->
  (fst (authenticate P (Some s) c) = inl true <->
   s = js "Bearer " ++ EXPECTED_TOKEN P \/
   exists r, s = js "Bearer " ++ EXPECTED_TOKEN P ++ 32%N :: r).
Proof.
  intros Hsecret. rewrite authenticate_true_iff, rejected_false_iff. split.
  - intros (s' & [= <-] & Hb & Ht).
    apply startsWith_inv in Hb as [t ->].
    rewrite token_of_Bearer in Ht.
    destruct (proj1 (@first_field_is 32%N _ t Hsecret) Ht) as [->|[r ->]].
    + now left.
    + right. now exists r.
  - intros H. exists s. split; [reflexivity|].
    assert (Hs : exists t, s = js "Bearer " ++ t /\
                (t = EXPECTED_TOKEN P \/ exists r, t = EXPECTED_TOKEN P ++ 32%N :: r)).
    { destruct H as [->|[r ->]].
      - eexists. split; [reflexivity|now left].
      - eexists. split; [reflexivity|]. right. now exists r. }
    destruct Hs as (t & -> & Ht). split.
    + apply startsWith_app.
    + rewrite token_of_Bearer.
      exact (proj2 (@first_field_is 32%N _ t Hsecret) Ht).
Qed.

Lemma accepted_headers_witness :
  fst (authenticate (Some (js "s3cret")) (Some (js "Bearer s3cret and more")) fresh_conn)
    = inl true.
Proof.
  apply (proj2 (@accepted_headers (Some (js "s3cret")) (js "Bearer s3cret and more")
                  fresh_conn ltac:(vm_compute; intuition discriminate))).
  right. exists (js "and more"). reflexivity.
Defined.

(** ** The other routes *)

(** X21. Every route other than the chat completions answers before
    its handler returns, registers nothing and reaches neither the
    translator nor the upstream; the status is 401 exactly when the route
    is authenticated and the header is refused, and 200 otherwise, the
    state of the system playing no part. *)
Theorem other_routes_answer_at_once (P : option jsstring) (E : env)
    (getStatus : value) (timestamp : jsstring) (ep : endpoint) (req : request) :
  ep <> POST_v1_chat_completions ->
  exists c,
    serve P E getStatus timestamp ep req fresh_conn = (inl tt, c) /\
    is_answered c = true /\
    waiting c = Idle /\
    translator_called c = false /\
    upstream_called c = false /\
    (statusCode (res c) = 401%N <->
     authenticated ep = true /\ rejected (EXPECTED_TOKEN P) (authorization req) = true) /\
    (statusCode (res c) <> 401%N -> statusCode (res c) = 200%N).
Proof.
  intros Hep. unfold serve.
  destruct ep; try congruence; cbn [authenticated]; unfold bind.
  - rewrite (authenticate_cases P (authorization req) fresh_conn eq_refl eq_refl).
    destruct (rejected (EXPECTED_TOKEN P) (authorization req));
      (eexists; split; [reflexivity|]); repeat split;
      try discriminate; try reflexivity; intuition discriminate.
  - eexists. split; [reflexivity|]. repeat split;
      try discriminate; try reflexivity; intuition discriminate.
  - rewrite (authenticate_cases P (authorization req) fresh_conn eq_refl eq_refl).
    destruct (rejected (EXPECTED_TOKEN P) (authorization req));
      (eexists; split; [reflexivity|]); repeat split;
      try discriminate; try reflexivity; intuition discriminate.
Qed.

Lemma other_routes_answer_at_once_witness :
  exists c,
    serve None example_env VNull [] GET_cookies_status
      {| authorization := None; req_body := VUndefined |} fresh_conn = (inl tt, c) /\
    statusCode (res c) = 401%N /\
    waiting c = Idle.
Proof.
  destruct (@other_routes_answer_at_once None example_env VNull [] GET_cookies_status
              {| authorization := None; req_body := VUndefined |})
    as (c & H1 & _ & H2 & _ & _ & H3 & _); [discriminate|].
  exists c. repeat split; try assumption.
  apply H3. split; reflexivity.
Defined.

(** ** Start-up *)

(** X23. When [initialize()] resolves and the system is not
    initialised, the process does not exit: it listens on [PORT] and logs
    that API calls will fail; from then on a chat completion request with
    a valid token is answered 500, while the model list and the cookie
    status are still answered 200. *)
Theorem start_without_initialisation (P env_PORT : option jsstring) (E : env)
    (getStatus : value) (timestamp : jsstring) (req : request) :
  INITIALIZED_SUCCESSFULLY E = false ->
  hd_error (start env_PORT E (inl tt) Listening) = Some (Listen (PORT env_PORT)) /\
  (forall code, ~ In (Exit code) (start env_PORT E (inl tt) Listening)) /\
  In (Log "warn"
        (js "Warning: System did not initialize successfully. API calls will fail."))
     (start env_PORT E (inl tt) Listening) /\
  (rejected (EXPECTED_TOKEN P) (authorization req) = false ->
   statusCode (res (snd (serve P E getStatus timestamp POST_v1_chat_completions req
                           fresh_conn))) = 500%N /\
   statusCode (res (snd (serve P E getStatus timestamp GET_v1_models req
                           fresh_conn))) = 200%N /\
   statusCode (res (snd (serve P E getStatus timestamp GET_cookies_status req
                           fresh_conn))) = 200%N).
Proof.
  intros Hi. unfold start, on_listening. rewrite Hi.
  split; [reflexivity|]. split; [|split].
  - intros code H. cbn in H. intuition discriminate.
  - cbn. intuition.
  - intros Hr. unfold serve, bind. cbn [authenticated].
    rewrite (authenticate_cases P (authorization req) fresh_conn eq_refl eq_refl), Hr.
    cbn [handler]. rewrite (chat_completions_cases E (req_body req) fresh_conn eq_refl eq_refl).
    rewrite Hi. repeat split.
Qed.

Lemma start_without_initialisation_witness :
  hd_error (start None not_initialized_env (inl tt) Listening) =
    Some (Listen (VNum (of_Z 7860))) /\
  statusCode (res (snd (serve None not_initialized_env VNull []
                          POST_v1_chat_completions
                          {| authorization := Some (js "Bearer default_token");
                             req_body := example_request false |}
                          fresh_conn))) = 500%N.
Proof.
  destruct (@start_without_initialisation None None not_initialized_env VNull []
              {| authorization := Some (js "Bearer default_token");
                 req_body := example_request false |} eq_refl)
    as (H1 & _ & _ & H2).
  split; [exact H1|]. exact (proj1 (H2 eq_refl)).
Defined.
